(** * Food-access mapping: a shallow embedding of [main.py]

    The program reads a tract shapefile and a food-access CSV, joins them,
    prints a match rate and draws five maps.  The development embeds

    - the pandas / geopandas table operations the program calls (column
      lookup, boolean indexing, element-wise comparison and division, left
      merge, [count], [dissolve] with [aggfunc="sum"]),
    - the matplotlib state the plotting calls act on (figures, axes, titles,
      saved files),
    - the six functions of [main.py] as computations over a world that holds
      the shared table object.

    Numbers.  The CSV's numeric columns (population, flags, access counts)
    hold integers; pandas stores them as int64, or as float64 with NaN once
    the left join leaves a row unmatched.  A numeric cell is an [option Z]
    ([None] is NaN); sums over such cells are exact, which is what pandas
    computes as long as the magnitudes stay below 2^53.  True division and
    every comparison against a float literal are IEEE binary64, taken from
    the kernel's [SpecFloat] specification with [prec = 53], [emax = 1024].
    Division by zero does not raise: it gives an infinity or NaN, and a
    comparison with NaN is false.  The classification masks (lines
    113-118) are embedded for columns of either kind, integer cells or
    arbitrary float64 cells; the county aggregates are embedded for
    integer cells, and a theorem that relies on the value of a sum bounds
    the magnitudes by 2^53.

    Library behaviour the embedding follows.
    - [merge(how="left")] keeps the left rows in order, pairs each with
      every right row of equal key, and a null key matches a null key; a
      column name present on both sides gets the suffixes [_x] and [_y].
    - [dissolve(by=.., aggfunc="sum")] groups by the distinct non-null keys
      in sorted order, drops rows whose key is null, sums numeric columns
      skipping nulls, unions the geometries and concatenates the strings
      of a string column.
    - [df[name] = values] updates the table object in place, so the caller
      sees the new column; boolean indexing, column selection and
      [dissolve] return new tables.
    - [plt.subplots] makes its figure current; [df.plot(ax=..)] draws on the
      given axes, [plt.title] and [plt.savefig] act on the current ones.
    A missing column, a key dtype mismatch or a mask with nulls raises: the
    computation has no result. *)

From Stdlib Require Import ZArith Lia Bool.
From Stdlib Require QArith.
From Stdlib Require Import Floats.SpecFloat.
From stdpp Require Import gmap strings list sorting.

Local Open Scope Z_scope.

(* ===================================================================== *)
(** ** IEEE binary64 *)
(* ===================================================================== *)

Module F64.

Definition prec : Z := 53.
Definition emax : Z := 1024.

Definition nan : spec_float := S754_nan.
Definition pzero : spec_float := S754_zero false.

(** int64 -> float64, round to nearest even. *)
Definition of_Z (z : Z) : spec_float := binary_normalize prec emax z 0 false.

(** A numeric cell as a float64: NaN for a null. *)
Definition of_cell (c : option Z) : spec_float :=
  match c with
  | Some z => of_Z z
  | None => nan
  end.

Definition div (x y : spec_float) : spec_float := SFdiv prec emax x y.
Definition mul (x y : spec_float) : spec_float := SFmul prec emax x y.
Definition add (x y : spec_float) : spec_float := SFadd prec emax x y.

(** [x >= y]: false as soon as one side is NaN. *)
Definition ge (x y : spec_float) : bool :=
  match SFcompare x y with
  | Some Gt | Some Eq => true
  | _ => false
  end.

Definition le (x y : spec_float) : bool := SFleb x y.

(** [x == y]: false as soon as one side is NaN. *)
Definition eqb (x y : spec_float) : bool :=
  match SFcompare x y with
  | Some Eq => true
  | _ => false
  end.

(** [x > 0]: a positive finite number or plus infinity. *)
Definition positive (x : spec_float) : bool :=
  match x with
  | S754_finite false _ _ | S754_infinity false => true
  | _ => false
  end.

Definition is_nan (x : spec_float) : bool :=
  match x with
  | S754_nan => true
  | _ => false
  end.

(** The literals of the program. *)
Definition lit_0_33 : spec_float := S754_finite false 5944751508129055 (-54).
Definition lit_100 : spec_float := S754_finite false 7036874417766400 (-46).
Definition lit_2 : spec_float := S754_finite false 4503599627370496 (-51).

End F64.

(* ===================================================================== *)
(** ** Columns and tables *)
(* ===================================================================== *)

(** A geometry is the set of polygon parts it covers; the union of two
    geometries is the union of the sets. *)
Definition geom : Type := gset nat.

(** Row labels: the positions of a [RangeIndex], or the group keys that
    [dissolve] turns into the index. *)
Inductive label :=
  | RowId (n : nat)
  | Key (s : string).

Global Instance label_eq_dec : EqDecision label.
Proof. solve_decision. Defined.

(** One column of a table, by dtype. *)
Inductive column :=
  | NumCol (l : list (option Z))
  | FltCol (l : list spec_float)
  | BoolCol (l : list (option bool))
  | ObjCol (l : list (option string))
  | GeomCol (l : list (option geom)).

(** One cell of a column. *)
Inductive cell :=
  | CNum (v : option Z)
  | CFlt (v : spec_float)
  | CBool (v : option bool)
  | CObj (v : option string)
  | CGeom (v : option geom).

Definition col_len (c : column) : nat :=
  match c with
  | NumCol l => length l
  | FltCol l => length l
  | BoolCol l => length l
  | ObjCol l => length l
  | GeomCol l => length l
  end.

Definition cell_at (c : column) (i : nat) : option cell :=
  match c with
  | NumCol l => CNum <$> l !! i
  | FltCol l => CFlt <$> l !! i
  | BoolCol l => CBool <$> l !! i
  | ObjCol l => CObj <$> l !! i
  | GeomCol l => CGeom <$> l !! i
  end.

Definition cell_null (c : cell) : bool :=
  match c with
  | CNum None | CBool None | CObj None | CGeom None => true
  | CFlt f => F64.is_nan f
  | _ => false
  end.

(** [Series.notnull()] *)
Definition notnull (c : column) : list bool :=
  match c with
  | NumCol l => (λ v, bool_decide (is_Some v)) <$> l
  | FltCol l => (λ v, negb (F64.is_nan v)) <$> l
  | BoolCol l => (λ v, bool_decide (is_Some v)) <$> l
  | ObjCol l => (λ v, bool_decide (is_Some v)) <$> l
  | GeomCol l => (λ v, bool_decide (is_Some v)) <$> l
  end.

(** [Series.count()]: the number of non-null cells. *)
Definition count (c : column) : nat :=
  length (filter (λ b, b = true) (notnull c)).

(** Keep the cells whose mask entry is true. *)
Fixpoint take_mask {A} (mask : list bool) (l : list A) : list A :=
  match mask, l with
  | b :: mask', x :: l' =>
      if b then x :: take_mask mask' l' else take_mask mask' l'
  | _, _ => []
  end.

Definition col_take (mask : list bool) (c : column) : column :=
  match c with
  | NumCol l => NumCol (take_mask mask l)
  | FltCol l => FltCol (take_mask mask l)
  | BoolCol l => BoolCol (take_mask mask l)
  | ObjCol l => ObjCol (take_mask mask l)
  | GeomCol l => GeomCol (take_mask mask l)
  end.

Record DataFrame := mkDF {
  df_index : list label;
  df_columns : gmap string column
}.

Definition nrows (df : DataFrame) : nat := length (df_index df).

(** Every column is as long as the index. *)
Definition df_wf (df : DataFrame) : Prop :=
  ∀ name c, df_columns df !! name = Some c → col_len c = nrows df.

(** [df[name]]; a missing column is a [KeyError]. *)
Definition getitem (df : DataFrame) (name : string) : option column :=
  df_columns df !! name.

Definition get_num (df : DataFrame) (name : string) : option (list (option Z)) :=
  match getitem df name with
  | Some (NumCol l) => Some l
  | _ => None
  end.

(** A column used as a boolean mask: bool dtype without nulls. *)
Definition as_mask (c : column) : option (list bool) :=
  match c with
  | BoolCol l => mapM id l
  | _ => None
  end.

(** [df[name] = values]; the lengths must agree. *)
Definition setitem (df : DataFrame) (name : string) (c : column) : option DataFrame :=
  if decide (col_len c = nrows df)
  then Some (mkDF (df_index df) (<[name := c]> (df_columns df)))
  else None.

(** [df[mask]]: boolean indexing returns a new table with the selected
    rows; the row labels stay with their rows. *)
Definition bool_index (df : DataFrame) (mask : list bool) : option DataFrame :=
  if decide (length mask = nrows df)
  then Some (mkDF (take_mask mask (df_index df)) (col_take mask <$> df_columns df))
  else None.

(** [df[[n1; n2; ...]]]: a new table with the listed columns. *)
Fixpoint select_cols (cols : gmap string column) (names : list string)
  : option (gmap string column) :=
  match names with
  | [] => Some ∅
  | n :: names' =>
      c ← cols !! n;
      rest ← select_cols cols names';
      Some (<[n := c]> rest)
  end.

Definition select (df : DataFrame) (names : list string) : option DataFrame :=
  cols ← select_cols (df_columns df) names;
  Some (mkDF (df_index df) cols).

(* ===================================================================== *)
(** ** Element-wise Series operations *)
(* ===================================================================== *)

(** [s == k] *)
Definition eq_scalar (s : list (option Z)) (k : Z) : list bool :=
  (λ v, bool_decide (v = Some k)) <$> s.

(** [s >= k], integer threshold; a null compares false. *)
Definition ge_scalar (s : list (option Z)) (k : Z) : list bool :=
  (λ v, match v with Some z => k <=? z | None => false end) <$> s.

(** [a / b]: true division, cell by cell, in float64. *)
Definition truediv (a b : list (option Z)) : list spec_float :=
  zip_with (λ x y, F64.div (F64.of_cell x) (F64.of_cell y)) a b.

(** [s >= k], float threshold. *)
Definition ge_float (s : list spec_float) (k : spec_float) : list bool :=
  (λ v, F64.ge v k) <$> s.

(** [a & b], [a | b] *)
Definition band (a b : list bool) : list bool := zip_with andb a b.
Definition bor (a b : list bool) : list bool := zip_with orb a b.

(** A numeric Series, by dtype: integer cells (an int64 column, or the
    float64 column of integers and NaN that a left join makes of it), or
    arbitrary float64 cells. *)
Inductive series :=
  | IntS (l : list (option Z))
  | FltS (l : list spec_float).

(** [df[name]] for a numeric column; comparing or dividing a column of
    another dtype is outside the embedding and has no result. *)
Definition get_series (df : DataFrame) (name : string) : option series :=
  match getitem df name with
  | Some (NumCol l) => Some (IntS l)
  | Some (FltCol l) => Some (FltS l)
  | _ => None
  end.

Definition series_len (s : series) : nat :=
  match s with
  | IntS l => length l
  | FltS l => length l
  end.

(** The cells as float64, as true division sees them. *)
Definition series_floats (s : series) : list spec_float :=
  match s with
  | IntS l => F64.of_cell <$> l
  | FltS l => l
  end.

(** [s == k] and [s >= k] for an integer literal [k]: on integers for
    integer cells, in float64 for float cells. *)
Definition series_eq (s : series) (k : Z) : list bool :=
  match s with
  | IntS l => eq_scalar l k
  | FltS l => (λ v, F64.eqb v (F64.of_Z k)) <$> l
  end.

Definition series_ge (s : series) (k : Z) : list bool :=
  match s with
  | IntS l => ge_scalar l k
  | FltS l => ge_float l (F64.of_Z k)
  end.

(** [a / b]: true division of the cells as float64. *)
Definition series_div (a b : series) : list spec_float :=
  zip_with F64.div (series_floats a) (series_floats b).

(* ===================================================================== *)
(** ** The low-access classification ([plot_low_access_tracts], lines 113-120) *)
(* ===================================================================== *)

Definition urban_area (df : DataFrame) : option (list bool) :=
  urban ← get_series df "Urban";
  lapophalf ← get_series df "lapophalf";
  pop ← get_series df "POP2010";
  Some (band (series_eq urban 1)
             (bor (series_ge lapophalf 500)
                  (ge_float (series_div lapophalf pop) F64.lit_0_33))).

Definition rural_area (df : DataFrame) : option (list bool) :=
  rural ← get_series df "Rural";
  lapop10 ← get_series df "lapop10";
  pop ← get_series df "POP2010";
  Some (band (series_eq rural 1)
             (bor (series_ge lapop10 500)
                  (ge_float (series_div lapop10 pop) F64.lit_0_33))).

(* ===================================================================== *)
(** ** [DataFrame.merge(how="left")] *)
(* ===================================================================== *)

(** Join keys: integer or string cells; [None] is a null key. *)
Inductive keyv :=
  | KNum (z : Z)
  | KStr (s : string).

Global Instance keyv_eq_dec : EqDecision keyv.
Proof. solve_decision. Defined.

(** The key cells of a column together with a dtype tag; merging on a
    column of another dtype is an error. *)
Definition col_keys (c : column) : option (bool * list (option keyv)) :=
  match c with
  | NumCol l => Some (false, fmap (M:=list) (fmap (M:=option) KNum) l)
  | ObjCol l => Some (true, fmap (M:=list) (fmap (M:=option) KStr) l)
  | _ => None
  end.

(** Positions of [rk] whose key equals [k]; pandas matches a null key with
    a null key. *)
Definition matches (k : option keyv) (rk : list (option keyv)) : list nat :=
  filter (λ j, rk !! j = Some k) (seq 0 (length rk)).

(** The rows of a left join: every left position, in order, paired with
    each matching right position, or with [None] when nothing matches. *)
Definition join_row (rk : list (option keyv)) (i : nat) (k : option keyv)
  : list (nat * option nat) :=
  match matches k rk with
  | [] => [(i, None)]
  | js => (λ j, (i, Some j)) <$> js
  end.

Definition join_rows (lk rk : list (option keyv)) : list (nat * option nat) :=
  mjoin (imap (join_row rk) lk).

(** The null of each dtype. *)
Definition null_cell_like (c : column) : cell :=
  match c with
  | NumCol _ => CNum None
  | FltCol _ => CFlt F64.nan
  | BoolCol _ => CBool None
  | ObjCol _ => CObj None
  | GeomCol _ => CGeom None
  end.

Definition gather {A} (null : A) (l : list A) (idx : list (option nat)) : list A :=
  (λ oi, match oi with
         | Some i => default null (l !! i)
         | None => null
         end) <$> idx.

(** The cells of [c] at the given positions; a null where there is none. *)
Definition col_gather (idx : list (option nat)) (c : column) : column :=
  match c with
  | NumCol l => NumCol (gather None l idx)
  | FltCol l => FltCol (gather F64.nan l idx)
  | BoolCol l => BoolCol (gather None l idx)
  | ObjCol l => ObjCol (gather None l idx)
  | GeomCol l => GeomCol (gather None l idx)
  end.

(** Column names of the result: a name present on both sides gets the
    suffix [_x] on the left and [_y] on the right. *)
Definition left_name (rcols : gmap string column) (n : string) : string :=
  if decide (is_Some (rcols !! n)) then n +:+ "_x" else n.

Definition right_name (lcols : gmap string column) (n : string) : string :=
  if decide (is_Some (lcols !! n)) then n +:+ "_y" else n.

Definition merged_columns (l r : DataFrame) (rows : list (nat * option nat))
  : list (string * column) :=
  ((λ nc, (left_name (df_columns r) nc.1, col_gather (Some ∘ fst <$> rows) nc.2))
     <$> map_to_list (df_columns l))
  ++ ((λ nc, (right_name (df_columns l) nc.1, col_gather (snd <$> rows) nc.2))
     <$> map_to_list (df_columns r)).

(** [l.merge(r, left_on=.., right_on=.., how="left")] for two distinct key
    names.  The result has a fresh [RangeIndex]. *)
Definition merge_left (l r : DataFrame) (left_on right_on : string) : option DataFrame :=
  lkc ← getitem l left_on;
  rkc ← getitem r right_on;
  lk ← col_keys lkc;
  rk ← col_keys rkc;
  if decide (left_on ≠ right_on ∧ lk.1 = rk.1) then
    let rows := join_rows lk.2 rk.2 in
    let cols := merged_columns l r rows in
    if decide (NoDup cols.*1)
    then Some (mkDF (RowId <$> seq 0 (length rows)) (list_to_map cols))
    else None
  else None.

(* ===================================================================== *)
(** ** [GeoDataFrame.dissolve(by=.., aggfunc="sum")] *)
(* ===================================================================== *)

Definition str_le (a b : string) : Prop := String.leb a b = true.

Global Instance str_le_dec a b : Decision (str_le a b).
Proof. unfold str_le. apply _. Defined.

(** The groups: the distinct non-null keys, sorted.  Rows with a null key
    belong to no group. *)
Definition group_keys (by_ : list (option string)) : list string :=
  merge_sort str_le (remove_dups (omap id by_)).

Definition group_mask (by_ : list (option string)) (k : string) : list bool :=
  (λ v, bool_decide (v = Some k)) <$> by_.

(** Sum of the non-null cells; an empty or all-null group sums to 0. *)
Definition sum_cells (l : list (option Z)) : Z :=
  foldr (λ v acc, match v with Some z => z + acc | None => acc end) 0 l.

(** The sum of a numeric column over the rows of group [k]. *)
Definition group_sum (by_ : list (option string)) (l : list (option Z)) (k : string) : Z :=
  sum_cells (take_mask (group_mask by_ k) l).

Definition sum_floats (l : list spec_float) : spec_float :=
  foldl (λ acc v, if F64.is_nan v then acc else F64.add acc v) F64.pzero l.

Definition count_true (l : list (option bool)) : Z :=
  foldr (λ v acc, match v with Some true => 1 + acc | _ => acc end) 0 l.

Definition union_geoms (l : list (option geom)) : geom :=
  ⋃ (omap id l).

(** The sum of strings is their concatenation, nulls skipped. *)
Definition concat_strings (l : list (option string)) : string :=
  foldr String.append "" (omap id l).

(** One column aggregated over the groups.  Numeric columns are summed,
    the strings of a string column are concatenated, the geometry column
    is unioned; another geometry column does not survive the sum. *)
Definition agg_column (by_ : list (option string)) (keys : list string)
    (name : string) (c : column) : option column :=
  match c with
  | NumCol l => Some (NumCol ((λ k, Some (group_sum by_ l k)) <$> keys))
  | FltCol l => Some (FltCol ((λ k, sum_floats (take_mask (group_mask by_ k) l)) <$> keys))
  | BoolCol l => Some (NumCol ((λ k, Some (count_true (take_mask (group_mask by_ k) l))) <$> keys))
  | ObjCol l =>
      Some (ObjCol ((λ k, Some (concat_strings (take_mask (group_mask by_ k) l))) <$> keys))
  | GeomCol l =>
      if decide (name = "geometry")
      then Some (GeomCol ((λ k, Some (union_geoms (take_mask (group_mask by_ k) l))) <$> keys))
      else None
  end.

Definition dissolve_sum (df : DataFrame) (by_name : string) : option DataFrame :=
  byc ← getitem df by_name;
  match byc with
  | ObjCol by_ =>
      let keys := group_keys by_ in
      Some (mkDF (Key <$> keys)
                 (map_imap (agg_column by_ keys) (delete by_name (df_columns df))))
  | _ => None
  end.

(* ===================================================================== *)
(** ** [percentage_food_data] *)
(* ===================================================================== *)

Definition percentage_food_data (state_data : DataFrame) : option spec_float :=
  census ← getitem state_data "CensusTract";
  ctid ← getitem state_data "CTIDFP00";
  Some (F64.mul (F64.div (F64.of_Z (Z.of_nat (count census)))
                         (F64.of_Z (Z.of_nat (count ctid))))
                F64.lit_100).

(* ===================================================================== *)
(** ** The world: input files, the shared table, matplotlib, output files *)
(* ===================================================================== *)

(** One [GeoDataFrame.plot] call on an axes. *)
Record layer := mkLayer {
  ly_geometry : list (option geom);
  ly_column : option string;
  ly_values : option column;
  ly_color : option string;
  ly_legend : bool;
  ly_vmin : option Z;
  ly_vmax : option Z
}.

Record axes := mkAxes {
  ax_layers : list layer;
  ax_title : string
}.

(** A figure is its grid of subplot axes, row by row.  The colour bar
    that [legend=True] adds beside an axes is recorded on the layer
    ([ly_legend]), not as an axes of its own. *)
Definition figure : Type := list axes.

(** An axes object: the figure it belongs to and its position there. *)
Definition ax_handle : Type := nat * nat.

Record world := mkWorld {
  disk : gmap string DataFrame;
  heap : gmap nat DataFrame;
  figs : list figure;
  gca : nat;
  files : gmap string figure;
  stdout : list spec_float
}.

(** Computations: read and update the world, or raise. *)
Definition M (A : Type) : Type := world → option (A * world).

Global Instance M_ret : MRet M := λ A x w, Some (x, w).
Global Instance M_bind : MBind M := λ A B f m w,
  match m w with
  | Some (a, w') => f a w'
  | None => None
  end.

Definition raise {A} : M A := λ _, None.

Definition lift {A} (o : option A) : M A :=
  match o with
  | Some a => mret a
  | None => raise
  end.

Definition get_world : M world := λ w, Some (w, w).
Definition put_world (w : world) : M unit := λ _, Some ((), w).

(** The table an object reference points to. *)
Definition deref (l : nat) : M DataFrame :=
  w ← get_world; lift (heap w !! l).

Definition store (l : nat) (df : DataFrame) : M unit :=
  w ← get_world;
  put_world (mkWorld (disk w) (<[l := df]> (heap w)) (figs w) (gca w) (files w) (stdout w)).

Definition alloc (df : DataFrame) : M nat :=
  w ← get_world;
  let l := fresh (dom (heap w)) in
  _ ← put_world (mkWorld (disk w) (<[l := df]> (heap w)) (figs w) (gca w) (files w) (stdout w));
  mret l.

(** [gpd.read_file] / [pd.read_csv]: the parsed content of a path. *)
Definition read_file (path : string) : M DataFrame :=
  w ← get_world; lift (disk w !! path).

Definition print (x : spec_float) : M unit :=
  w ← get_world;
  put_world (mkWorld (disk w) (heap w) (figs w) (gca w) (files w) (stdout w ++ [x])).

Definition put_figs (fs : list figure) (cur : nat) : M unit :=
  w ← get_world;
  put_world (mkWorld (disk w) (heap w) fs cur (files w) (stdout w)).

(** [plt.subplots]: a new figure of [n] empty axes becomes the current
    figure, its last axes the current axes. *)
Definition plt_subplots (n : nat) : M (list ax_handle) :=
  w ← get_world;
  let fid := length (figs w) in
  _ ← put_figs (figs w ++ [replicate n (mkAxes [] "")]) (pred n);
  mret ((λ i, (fid, i)) <$> seq 0 n).

(** The current axes; pyplot makes a figure when there is none. *)
Definition plt_gca : M ax_handle :=
  w ← get_world;
  match figs w with
  | [] => hs ← plt_subplots 1; lift (head hs)
  | _ => mret (pred (length (figs w)), gca w)
  end.

Definition update_axes (h : ax_handle) (f : axes → axes) : M unit :=
  w ← get_world;
  fig ← lift (figs w !! h.1);
  ax ← lift (fig !! h.2);
  put_figs (<[h.1 := <[h.2 := f ax]> fig]> (figs w)) (gca w).

(** [ax.set_title] and [plt.title] *)
Definition ax_set_title (h : ax_handle) (t : string) : M unit :=
  update_axes h (λ ax, mkAxes (ax_layers ax) t).

Definition plt_title (t : string) : M unit :=
  h ← plt_gca; ax_set_title h t.

Definition put_file (name : string) (fig : figure) : M unit :=
  w ← get_world;
  put_world (mkWorld (disk w) (heap w) (figs w) (gca w) (<[name := fig]> (files w)) (stdout w)).

(** [plt.savefig]: the current figure is written to the file. *)
Definition plt_savefig (name : string) : M unit :=
  h ← plt_gca;
  w ← get_world;
  fig ← lift (figs w !! h.1);
  put_file name fig.

(** Keyword arguments of [GeoDataFrame.plot]. *)
Record plot_kw := mkKw {
  kw_column : option string;
  kw_color : option string;
  kw_legend : bool;
  kw_ax : option ax_handle;
  kw_vmin : option Z;
  kw_vmax : option Z
}.

Definition kw_default : plot_kw := mkKw None None false None None None.

Definition get_geometry (df : DataFrame) : option (list (option geom)) :=
  match getitem df "geometry" with
  | Some (GeomCol l) => Some l
  | _ => None
  end.

(** [df.plot(...)]: draws the geometries, coloured by [column] when given,
    on [ax], or on the axes of a new figure when no [ax] is passed. *)
Definition df_plot (df : DataFrame) (kw : plot_kw) : M ax_handle :=
  g ← lift (get_geometry df);
  vals ← match kw_column kw with
          | Some c => v ← lift (getitem df c); mret (Some v)
          | None => mret None
          end;
  h ← match kw_ax kw with
       | Some h => mret h
       | None => hs ← plt_subplots 1; lift (head hs)
       end;
  _ ← update_axes h (λ ax,
        mkAxes (ax_layers ax ++
                  [mkLayer g (kw_column kw) vals (kw_color kw) (kw_legend kw)
                           (kw_vmin kw) (kw_vmax kw)])
               (ax_title ax));
  mret h.

(* ===================================================================== *)
(** ** The functions of [main.py] *)
(* ===================================================================== *)

(** Lines 6-16.  The result is a new table object. *)
Definition load_in_data (shp_file_name csv_file_name : string) : M nat :=
  shp_file ← read_file shp_file_name;
  csv_file ← read_file csv_file_name;
  merged_dataset ← lift (merge_left shp_file csv_file "CTIDFP00" "CensusTract");
  alloc merged_dataset.

(** Lines 29-36. *)
Definition plot_map (state_data : nat) : M unit :=
  df ← deref state_data;
  _ ← df_plot df kw_default;
  _ ← plt_title "Washington State";
  plt_savefig "map.png".

(** Lines 39-49. *)
Definition plot_population_map (state_data : nat) : M unit :=
  hs ← plt_subplots 1;
  ax ← lift (head hs);
  df ← deref state_data;
  _ ← df_plot df (mkKw None (Some "#EEEEEE") false (Some ax) None None);
  _ ← df_plot df (mkKw (Some "POP2010") None true (Some ax) None None);
  _ ← plt_title "Washington Census Tract Populations";
  plt_savefig "population_map.png".

(** Lines 52-64.  The first assignment to [county] is overwritten by the
    second; it can still raise a [KeyError]. *)
Definition plot_population_county_map (state_data : nat) : M unit :=
  df ← deref state_data;
  _ ← lift (select df ["POP2010"; "County"; "geometry"]);
  county ← lift (dissolve_sum df "County");
  hs ← plt_subplots 1;
  ax ← lift (head hs);
  _ ← df_plot df (mkKw None (Some "#EEEEEE") false (Some ax) None None);
  _ ← df_plot county (mkKw (Some "POP2010") None true (Some ax) None None);
  _ ← plt_title "Washington County Populations";
  plt_savefig "county_population_map.png".

(** Lines 72-84: the county table with its four ratio columns. *)
Definition add_ratio (ratio_data : DataFrame) (name count_name : string)
  : option DataFrame :=
  num ← get_num ratio_data count_name;
  pop ← get_num ratio_data "POP2010";
  setitem ratio_data name (FltCol (truediv num pop)).

Definition county_ratio_data (state_data : DataFrame) : option DataFrame :=
  ratio_data ← select state_data
    ["County"; "geometry"; "POP2010"; "lapophalf"; "lapop10"; "lalowihalf"; "lalowi10"];
  ratio_data ← dissolve_sum ratio_data "County";
  ratio_data ← add_ratio ratio_data "lapophalf_ratio" "lapophalf";
  ratio_data ← add_ratio ratio_data "lapop10_ratio" "lapop10";
  ratio_data ← add_ratio ratio_data "lalowihalf_ratio" "lalowihalf";
  add_ratio ratio_data "lalowi10_ratio" "lalowi10".

Definition ratio_kw (column : string) (ax : ax_handle) : plot_kw :=
  mkKw (Some column) None true (Some ax) (Some 0) (Some 1).

Definition background_kw (ax : ax_handle) : plot_kw :=
  mkKw None (Some "#EEEEEE") false (Some ax) None None.

(** Lines 67-103.  The plot and title calls are kept in the order of the
    source. *)
Definition plot_food_access_by_county (state_data : nat) : M unit :=
  df ← deref state_data;
  ratio_data ← lift (county_ratio_data df);
  hs ← plt_subplots 4;
  match hs with
  | [ax1; ax2; ax3; ax4] =>
      _ ← df_plot df (background_kw ax1);
      _ ← df_plot ratio_data (ratio_kw "lapophalf_ratio" ax1);
      _ ← ax_set_title ax1 "Low Access: Half";
      _ ← df_plot df (background_kw ax3);
      _ ← df_plot ratio_data (ratio_kw "lapop10_ratio" ax3);
      _ ← ax_set_title ax2 "Low Access + Low Income: Half";
      _ ← df_plot df (background_kw ax2);
      _ ← df_plot ratio_data (ratio_kw "lalowihalf_ratio" ax2);
      _ ← ax_set_title ax3 "Low Access: 10";
      _ ← df_plot df (background_kw ax4);
      _ ← df_plot ratio_data (ratio_kw "lalowi10_ratio" ax4);
      _ ← ax_set_title ax4 "Low Access + Low Income: 10";
      plt_savefig "county_food_access.png"
  | _ => raise
  end.

(** Lines 113-120: the table with the [low_access] column assigned. *)
Definition classify (df : DataFrame) : option DataFrame :=
  urban ← urban_area df;
  rural ← rural_area df;
  setitem df "low_access" (BoolCol (Some <$> bor urban rural)).

(** Line 122: the rows with a known population. *)
Definition food_access_subset (df : DataFrame) : option DataFrame :=
  pop ← getitem df "POP2010";
  bool_index df (notnull pop).

(** Line 123: among those, the rows flagged low access. *)
Definition low_access_subset (food_access : DataFrame) : option DataFrame :=
  flags ← getitem food_access "low_access";
  mask ← as_mask flags;
  bool_index food_access mask.

(** Lines 106-130.  The new column is assigned on the caller's table. *)
Definition plot_low_access_tracts (state_data : nat) : M unit :=
  df ← deref state_data;
  df ← lift (classify df);
  _ ← store state_data df;
  food_access ← lift (food_access_subset df);
  low_access ← lift (low_access_subset food_access);
  hs ← plt_subplots 1;
  ax ← lift (head hs);
  _ ← df_plot df (background_kw ax);
  _ ← df_plot food_access (mkKw None (Some "#AAAAAA") false (Some ax) None None);
  _ ← df_plot low_access (mkKw None None false (Some ax) None None);
  _ ← plt_title "Low Access Census Tracts";
  plt_savefig "low_access.png".

Definition shp_path : string :=
  "/course/food_access/tl_2010_53_tract00/tl_2010_53_tract00.shp".
Definition csv_path : string := "/course/food_access/food_access.csv".

(** Lines 133-143. *)
Definition main : M unit :=
  state_data ← load_in_data shp_path csv_path;
  df ← deref state_data;
  p ← lift (percentage_food_data df);
  _ ← print p;
  _ ← plot_map state_data;
  _ ← plot_population_map state_data;
  _ ← plot_population_county_map state_data;
  _ ← plot_food_access_by_county state_data;
  plot_low_access_tracts state_data.

(* ===================================================================== *)
(** ** Row-level reading of the classification rule *)
(* ===================================================================== *)

(** The five cells of one tract that the rule looks at. *)
Record tract_row := mkRow {
  r_urban : option Z;
  r_rural : option Z;
  r_lapophalf : option Z;
  r_lapop10 : option Z;
  r_pop : option Z
}.

Definition num_at (df : DataFrame) (name : string) (i : nat) : option (option Z) :=
  l ← get_num df name; l !! i.

Definition row_of (df : DataFrame) (i : nat) : option tract_row :=
  u ← num_at df "Urban" i;
  r ← num_at df "Rural" i;
  h ← num_at df "lapophalf" i;
  t ← num_at df "lapop10" i;
  p ← num_at df "POP2010" i;
  Some (mkRow u r h t p).

(** The value of the [low_access] column in row [i]. *)
Definition flag_at (df : DataFrame) (i : nat) : option (option bool) :=
  match getitem df "low_access" with
  | Some (BoolCol l) => l !! i
  | _ => None
  end.

(** [x >= k] on one cell: the cell holds a number and it is at least [k]. *)
Definition count_ge (x : option Z) (k : Z) : Prop :=
  ∃ z, x = Some z ∧ k ≤ z.

(** [x / pop >= 0.33] on one row, in float64. *)
Definition ratio_ge (x pop : option Z) : Prop :=
  F64.ge (F64.div (F64.of_cell x) (F64.of_cell pop)) F64.lit_0_33 = true.

Definition urban_rule (row : tract_row) : Prop :=
  r_urban row = Some 1 ∧
  (count_ge (r_lapophalf row) 500 ∨ ratio_ge (r_lapophalf row) (r_pop row)).

Definition rural_rule (row : tract_row) : Prop :=
  r_rural row = Some 1 ∧
  (count_ge (r_lapop10 row) 500 ∨ ratio_ge (r_lapop10 row) (r_pop row)).

Definition low_access_rule (row : tract_row) : Prop :=
  urban_rule row ∨ rural_rule row.

(** The table has the five numeric columns the classifier reads. *)
Definition classifier_schema (df : DataFrame) : Prop :=
  Forall (λ n, is_Some (get_num df n))
         ["Urban"; "Rural"; "lapophalf"; "lapop10"; "POP2010"].

(** The two masks of the classifier, row by row. *)
Definition urban_bit (row : tract_row) : bool :=
  bool_decide (r_urban row = Some 1)
  && ((match r_lapophalf row with Some z => 500 <=? z | None => false end)
      || F64.ge (F64.div (F64.of_cell (r_lapophalf row)) (F64.of_cell (r_pop row)))
                F64.lit_0_33).

Definition rural_bit (row : tract_row) : bool :=
  bool_decide (r_rural row = Some 1)
  && ((match r_lapop10 row with Some z => 500 <=? z | None => false end)
      || F64.ge (F64.div (F64.of_cell (r_lapop10 row)) (F64.of_cell (r_pop row)))
                F64.lit_0_33).

(* ===================================================================== *)
(** ** Frames of computations, figures *)
(* ===================================================================== *)

(** A computation that leaves the table objects and the input files as
    they were. *)
Definition read_only {A} (m : M A) : Prop :=
  ∀ w a w', m w = Some (a, w') → heap w' = heap w ∧ disk w' = disk w.

(** The world with another list of figures. *)
Definition set_figs (w : world) (fs : list figure) : world :=
  mkWorld (disk w) (heap w) fs (gca w) (files w) (stdout w).

Definition add_layer (ax : axes) (ly : layer) : axes :=
  mkAxes (ax_layers ax ++ [ly]) (ax_title ax).

Definition set_title (ax : axes) (t : string) : axes :=
  mkAxes (ax_layers ax) t.

(* ===================================================================== *)
(** ** The four-panel figure *)
(* ===================================================================== *)

(** The columns drawn on a panel. *)
Definition panel_columns (ax : axes) : list string :=
  omap ly_column (ax_layers ax).

(** The title that names each ratio column. *)
Definition title_of_ratio (col : string) : option string :=
  if decide (col = "lapophalf_ratio") then Some "Low Access: Half"
  else if decide (col = "lapop10_ratio") then Some "Low Access: 10"
  else if decide (col = "lalowihalf_ratio") then Some "Low Access + Low Income: Half"
  else if decide (col = "lalowi10_ratio") then Some "Low Access + Low Income: 10"
  else None.

(** A panel whose title is not the title of a column drawn on it. *)
Definition panel_mismatch (ax : axes) : Prop :=
  Exists (λ col, title_of_ratio col ≠ Some (ax_title ax)) (panel_columns ax).

(** A panel whose title is the title of every column drawn on it. *)
Definition panel_matches (ax : axes) : Prop :=
  Forall (λ col, title_of_ratio col = Some (ax_title ax)) (panel_columns ax).

(* ===================================================================== *)
(** ** Rows of a left join *)
(* ===================================================================== *)

(** The join keys of a column of a table. *)
Definition key_cells (df : DataFrame) (name : string) : option (list (option keyv)) :=
  c ← getitem df name; snd <$> col_keys c.

(** Row [k] of the columns [m] holds, under the names [rename n], the cells
    of row [i] of the columns [src]. *)
Definition row_carries (m : gmap string column) (rename : string → string)
    (src : gmap string column) (k i : nat) : Prop :=
  ∀ n c, src !! n = Some c →
    ∃ c', m !! rename n = Some c' ∧ cell_at c' k = cell_at c i.

(** Row [k] of [m] holds nulls under the names of the columns [src]. *)
Definition row_nulls (m : gmap string column) (rename : string → string)
    (src : gmap string column) (k : nat) : Prop :=
  ∀ n c, src !! n = Some c →
    ∃ c', m !! rename n = Some c' ∧ cell_at c' k = Some (null_cell_like c).

(** The key found at a gathered position. *)
Definition key_at (ks : list (option keyv)) (oi : option nat) : option keyv :=
  match oi with
  | Some i => default None (ks !! i)
  | None => None
  end.

(* ===================================================================== *)
(** ** County aggregates *)
(* ===================================================================== *)

Definition sum_Z (l : list Z) : Z := foldr Z.add 0 l.

(** The value a cell adds to a sum: nulls are skipped. *)
Definition cell_value (v : option Z) : Z := default 0 v.

(** A float cell of a table. *)
Definition flt_at (df : DataFrame) (name : string) (i : nat) : option spec_float :=
  match getitem df name with
  | Some (FltCol l) => l !! i
  | _ => None
  end.

(** The columns [plot_food_access_by_county] selects, with their dtypes. *)
Definition county_schema (df : DataFrame) : Prop :=
  (∃ by_, getitem df "County" = Some (ObjCol by_)) ∧
  is_Some (getitem df "geometry") ∧
  Forall (λ n, is_Some (get_num df n))
         ["POP2010"; "lapophalf"; "lapop10"; "lalowihalf"; "lalowi10"].

(* ===================================================================== *)
(** ** Sample tables *)
(* ===================================================================== *)

Global Instance df_wf_dec (df : DataFrame) : Decision (df_wf df).
Proof.
  unfold df_wf.
  change (Decision (map_Forall (λ _ c, col_len c = nrows df) (df_columns df))).
  apply map_Forall_dec. intros ? ?. apply _.
Defined.

(** *** Sample inputs

    Six tracts in the shapefile, five of them in the CSV.  The CSV rows are
    the scenarios of the classification rule: an urban tract over the ratio
    threshold, an urban tract under both thresholds, a rural tract at the
    count threshold, a tract with a count but no population, and a tract
    with a zero population. *)
Definition sample_shp : DataFrame :=
  mkDF (RowId <$> seq 0 6)
       (list_to_map
          [("CTIDFP00", ObjCol [Some "t1"; Some "t2"; Some "t3"; Some "t4"; Some "t5"; Some "t6"]);
           ("geometry", GeomCol [Some {[1%nat]}; Some {[2%nat]}; Some {[3%nat]};
                                 Some {[4%nat]}; Some {[5%nat]}; Some {[6%nat]}])]).

Definition sample_csv : DataFrame :=
  mkDF (RowId <$> seq 0 5)
       (list_to_map
          [("CensusTract", ObjCol [Some "t1"; Some "t2"; Some "t3"; Some "t4"; Some "t5"]);
           ("County", ObjCol [Some "King"; Some "King"; Some "Adams"; Some "Adams"; Some "Ferry"]);
           ("Urban", NumCol [Some 1; Some 1; Some 0; Some 1; Some 1]);
           ("Rural", NumCol [Some 0; Some 0; Some 1; Some 0; Some 0]);
           ("POP2010", NumCol [Some 1000; Some 3000; Some 2000; None; Some 0]);
           ("lapophalf", NumCol [Some 400; Some 100; Some 0; Some 600; Some 100]);
           ("lapop10", NumCol [Some 0; Some 0; Some 500; Some 0; Some 0]);
           ("lalowihalf", NumCol [Some 100; Some 900; Some 0; Some 10; Some 0]);
           ("lalowi10", NumCol [Some 0; Some 0; Some 50; Some 0; Some 0])]).

Definition sample_disk : gmap string DataFrame :=
  list_to_map [(shp_path, sample_shp); (csv_path, sample_csv)].

Definition sample_world : world := mkWorld sample_disk ∅ [] 0%nat ∅ [].

(** The merged table of the sample inputs: the sixth tract is unmatched. *)
Definition sample_merged : DataFrame :=
  mkDF (RowId <$> seq 0 6)
       (list_to_map
          [("CTIDFP00", ObjCol [Some "t1"; Some "t2"; Some "t3"; Some "t4"; Some "t5"; Some "t6"]);
           ("geometry", GeomCol [Some {[1%nat]}; Some {[2%nat]}; Some {[3%nat]};
                                 Some {[4%nat]}; Some {[5%nat]}; Some {[6%nat]}]);
           ("CensusTract", ObjCol [Some "t1"; Some "t2"; Some "t3"; Some "t4"; Some "t5"; None]);
           ("County", ObjCol [Some "King"; Some "King"; Some "Adams"; Some "Adams"; Some "Ferry"; None]);
           ("Urban", NumCol [Some 1; Some 1; Some 0; Some 1; Some 1; None]);
           ("Rural", NumCol [Some 0; Some 0; Some 1; Some 0; Some 0; None]);
           ("POP2010", NumCol [Some 1000; Some 3000; Some 2000; None; Some 0; None]);
           ("lapophalf", NumCol [Some 400; Some 100; Some 0; Some 600; Some 100; None]);
           ("lapop10", NumCol [Some 0; Some 0; Some 500; Some 0; Some 0; None]);
           ("lalowihalf", NumCol [Some 100; Some 900; Some 0; Some 10; Some 0; None]);
           ("lalowi10", NumCol [Some 0; Some 0; Some 50; Some 0; Some 0; None])]).

(** The world once the sample inputs are loaded. *)
Definition sample_loaded : world :=
  mkWorld sample_disk {[ 0%nat := sample_merged ]} [] 0%nat ∅ [].

(** The sample table with its [low_access] column. *)
Definition sample_classified : DataFrame :=
  mkDF (df_index sample_merged)
       (<["low_access" := BoolCol [Some true; Some false; Some true; Some true; Some true; Some false]]>
          (df_columns sample_merged)).

(* ===================================================================== *)
(** ** Rendering calls, ratios of tracts, further tables *)
(* ===================================================================== *)

(** The five rendering calls of [main]. *)
Inductive render :=
  | Outline
  | TractPopulation
  | CountyPopulation
  | FoodAccessGrid
  | LowAccessMap.

Definition run_render (r : render) : nat → M unit :=
  match r with
  | Outline => plot_map
  | TractPopulation => plot_population_map
  | CountyPopulation => plot_population_county_map
  | FoodAccessGrid => plot_food_access_by_county
  | LowAccessMap => plot_low_access_tracts
  end.




(** A CSV whose first tract has a population but no county name. *)
Definition no_county_shp : DataFrame :=
  mkDF (RowId <$> seq 0 2)
       (list_to_map
          [("CTIDFP00", ObjCol [Some "t1"; Some "t2"]);
           ("geometry", GeomCol [Some {[1%nat]}; Some {[2%nat]}])]).

Definition no_county_csv : DataFrame :=
  mkDF (RowId <$> seq 0 2)
       (list_to_map
          [("CensusTract", ObjCol [Some "t1"; Some "t2"]);
           ("County", ObjCol [None; Some "King"]);
           ("POP2010", NumCol [Some 5; Some 7])]).

(** A shapefile without features. *)
Definition empty_shp : DataFrame :=
  mkDF [] (list_to_map [("CTIDFP00", ObjCol []); ("geometry", GeomCol [])]).

(** The figure [plot_food_access_by_county] saves for the sample table. *)
Definition sample_grid_figure : option figure :=
  match plot_food_access_by_county 0%nat sample_loaded with
  | Some (_, w') => files w' !! "county_food_access.png"
  | None => None
  end.

(* ===================================================================== *)
(** ** Layers, figures and tables the functions produce *)
(* ===================================================================== *)

(** The layer a plot call adds: the geometries of the table and, when a
    column is named, the values of that column. *)
Definition plot_data (df : DataFrame) (kw : plot_kw) : option layer :=
  g ← get_geometry df;
  vals ← match kw_column kw with
          | Some c => v ← getitem df c; Some (Some v)
          | None => Some None
          end;
  Some (mkLayer g (kw_column kw) vals (kw_color kw) (kw_legend kw)
                (kw_vmin kw) (kw_vmax kw)).

(** A world after drawing: new figures, current axes and files. *)
Definition drawn (w : world) (fs : list figure) (cur : nat)
    (fl : gmap string figure) : world :=
  mkWorld (disk w) (heap w) fs cur fl (stdout w).

(** The layers the program draws. *)
Definition plain_layer (g : list (option geom)) (color : option string) : layer :=
  mkLayer g None None color false None None.

Definition column_layer (g : list (option geom)) (name : string) (vals : column) : layer :=
  mkLayer g (Some name) (Some vals) None true None None.

Definition ratio_layer (g : list (option geom)) (name : string) (vals : column) : layer :=
  mkLayer g (Some name) (Some vals) None true (Some 0) (Some 1).

(** The county rows of a column: sums of a numeric column, unions of the
    geometries. *)
Definition county_sums (by_ : list (option string)) (l : list (option Z))
  : list (option Z) :=
  (λ k, Some (group_sum by_ l k)) <$> group_keys by_.

Definition county_geometry (by_ : list (option string)) (g : list (option geom))
  : list (option geom) :=
  (λ k, Some (union_geoms (take_mask (group_mask by_ k) g))) <$> group_keys by_.

(** A county ratio column: the summed counts over the summed population. *)
Definition county_ratio (by_ : list (option string)) (l P : list (option Z)) : column :=
  FltCol (truediv (county_sums by_ l) (county_sums by_ P)).

(** The flags the classifier assigns. *)
Definition low_access_flags (df : DataFrame) : option (list bool) :=
  u ← urban_area df; r ← rural_area df; Some (bor u r).

(** The five figures of the program. *)
Definition outline_figure (g : list (option geom)) : figure :=
  [mkAxes [plain_layer g None] "Washington State"].

Definition population_figure (g : list (option geom)) (pop : column) : figure :=
  [mkAxes [plain_layer g (Some "#EEEEEE"); column_layer g "POP2010" pop]
          "Washington Census Tract Populations"].

Definition county_figure (by_ : list (option string)) (g : list (option geom))
    (P : list (option Z)) : figure :=
  [mkAxes [plain_layer g (Some "#EEEEEE");
           column_layer (county_geometry by_ g) "POP2010" (NumCol (county_sums by_ P))]
          "Washington County Populations"].

Definition grid_panel (by_ : list (option string)) (g : list (option geom))
    (name title : string) (l P : list (option Z)) : axes :=
  mkAxes [plain_layer g (Some "#EEEEEE");
          ratio_layer (county_geometry by_ g) name (county_ratio by_ l P)]
         title.

Definition grid_figure (by_ : list (option string)) (g : list (option geom))
    (P H T LH LT : list (option Z)) : figure :=
  [grid_panel by_ g "lapophalf_ratio" "Low Access: Half" H P;
   grid_panel by_ g "lalowihalf_ratio" "Low Access + Low Income: Half" LH P;
   grid_panel by_ g "lapop10_ratio" "Low Access: 10" T P;
   grid_panel by_ g "lalowi10_ratio" "Low Access + Low Income: 10" LT P].

Definition low_access_figure (g : list (option geom)) (pop : column)
    (flags : list bool) : figure :=
  let keep := notnull pop in
  [mkAxes [plain_layer g (Some "#EEEEEE");
           plain_layer (take_mask keep g) (Some "#AAAAAA");
           plain_layer (take_mask (take_mask keep flags) (take_mask keep g)) None]
          "Low Access Census Tracts"].

(** The table with the flags assigned to [low_access]. *)
Definition with_flags (df : DataFrame) (flags : list bool) : DataFrame :=
  mkDF (df_index df) (<["low_access" := BoolCol (Some <$> flags)]> (df_columns df)).

(** The match rate of two key columns. *)
Definition match_rate (census ctid : column) : spec_float :=
  F64.mul (F64.div (F64.of_Z (Z.of_nat (count census)))
                   (F64.of_Z (Z.of_nat (count ctid))))
          F64.lit_100.

(** The files [main] writes, in the order of the calls. *)
Definition main_files (f1 f2 f3 f4 f5 : figure) (fl : gmap string figure)
  : gmap string figure :=
  <["low_access.png" := f5]>
    (<["county_food_access.png" := f4]>
       (<["county_population_map.png" := f3]>
          (<["population_map.png" := f2]>
             (<["map.png" := f1]> fl)))).

(** A cell of the geometry column. *)
Definition geom_at (df : DataFrame) (i : nat) : option (option geom) :=
  g ← get_geometry df; g !! i.

(** A count cell that lies between 0 and the population cell of its
    tract; a null counts as 0, as in the sums. *)
Definition within_population (x p : option Z) : Prop :=
  0 ≤ cell_value x ≤ cell_value p.

(** The ratio columns of the county table, each with the count column it
    is computed from (lines 77-84). *)
Definition ratio_sources (H T LH LT : list (option Z))
  : list (string * list (option Z)) :=
  [("lapophalf_ratio", H); ("lapop10_ratio", T);
   ("lalowihalf_ratio", LH); ("lalowi10_ratio", LT)].

(** The order of the group keys is total. *)
Global Instance str_le_total : Total str_le.
Proof. intros a b. apply String.leb_total. Defined.

Global Instance within_population_dec x p : Decision (within_population x p).
Proof. unfold within_population. apply _. Defined.

Global Instance render_eq_dec : EqDecision render.
Proof. solve_decision. Defined.

(** The world once [plot_low_access_tracts] has assigned the flags on the
    table at [l]. *)
Definition flagged (w : world) (l : nat) (df : DataFrame) (flags : list bool) : world :=
  mkWorld (disk w) (<[l := with_flags df flags]> (heap w))
          (figs w) (gca w) (files w) (stdout w).

(** The columns of the sample table that the program reads. *)
Definition sample_geometry : list (option geom) :=
  [Some {[1%nat]}; Some {[2%nat]}; Some {[3%nat]};
   Some {[4%nat]}; Some {[5%nat]}; Some {[6%nat]}].

Definition sample_county : list (option string) :=
  [Some "King"; Some "King"; Some "Adams"; Some "Adams"; Some "Ferry"; None].

Definition sample_pop : list (option Z) :=
  [Some 1000; Some 3000; Some 2000; None; Some 0; None].

Definition sample_lapophalf : list (option Z) :=
  [Some 400; Some 100; Some 0; Some 600; Some 100; None].

Definition sample_lapop10 : list (option Z) :=
  [Some 0; Some 0; Some 500; Some 0; Some 0; None].

Definition sample_lalowihalf : list (option Z) :=
  [Some 100; Some 900; Some 0; Some 10; Some 0; None].

Definition sample_lalowi10 : list (option Z) :=
  [Some 0; Some 0; Some 50; Some 0; Some 0; None].

Definition sample_census : column :=
  ObjCol [Some "t1"; Some "t2"; Some "t3"; Some "t4"; Some "t5"; None].

Definition sample_ctid : column :=
  ObjCol [Some "t1"; Some "t2"; Some "t3"; Some "t4"; Some "t5"; Some "t6"].

Definition sample_flags : list bool := [true; false; true; true; true; false].

(** The join keys of the sample CSV. *)
Definition sample_csv_keys : list (option keyv) :=
  [Some (KStr "t1"); Some (KStr "t2"); Some (KStr "t3"); Some (KStr "t4");
   Some (KStr "t5")].

(* ===================================================================== *)
(** ** Rows of numeric cells of either dtype *)
(* ===================================================================== *)

(** The five cells of one tract, each an integer cell or a float cell. *)
Record num_row := mkNumRow {
  n_urban : cell;
  n_rural : cell;
  n_lapophalf : cell;
  n_lapop10 : cell;
  n_pop : cell
}.

Definition series_cell (s : series) (i : nat) : option cell :=
  match s with
  | IntS l => CNum <$> l !! i
  | FltS l => CFlt <$> l !! i
  end.

Definition num_cell_at (df : DataFrame) (name : string) (i : nat) : option cell :=
  s ← get_series df name; series_cell s i.

Definition num_row_of (df : DataFrame) (i : nat) : option num_row :=
  u ← num_cell_at df "Urban" i;
  r ← num_cell_at df "Rural" i;
  h ← num_cell_at df "lapophalf" i;
  t ← num_cell_at df "lapop10" i;
  p ← num_cell_at df "POP2010" i;
  Some (mkNumRow u r h t p).

(** A cell as float64. *)
Definition cell_float (c : cell) : spec_float :=
  match c with
  | CNum v => F64.of_cell v
  | CFlt x => x
  | _ => F64.nan
  end.

(** [c == k], [c >= k], [c > 0] on one numeric cell; a null compares
    false. *)
Definition cell_eq (c : cell) (k : Z) : bool :=
  match c with
  | CNum v => bool_decide (v = Some k)
  | CFlt x => F64.eqb x (F64.of_Z k)
  | _ => false
  end.

Definition cell_ge (c : cell) (k : Z) : bool :=
  match c with
  | CNum (Some z) => k <=? z
  | CFlt x => F64.ge x (F64.of_Z k)
  | _ => false
  end.

Definition cell_pos (c : cell) : bool :=
  match c with
  | CNum (Some z) => 0 <? z
  | CFlt x => F64.positive x
  | _ => false
  end.

(** The cell is zero: the integer 0, or the float +0.0. *)
Definition cell_zero (c : cell) : bool :=
  match c with
  | CNum (Some 0) => true
  | CFlt (S754_zero false) => true
  | _ => false
  end.

(** [x / pop >= 0.33] on one row. *)
Definition cell_ratio_ge (x pop : cell) : bool :=
  F64.ge (F64.div (cell_float x) (cell_float pop)) F64.lit_0_33.

Definition cell_urban_bit (row : num_row) : bool :=
  cell_eq (n_urban row) 1
  && (cell_ge (n_lapophalf row) 500 || cell_ratio_ge (n_lapophalf row) (n_pop row)).

Definition cell_rural_bit (row : num_row) : bool :=
  cell_eq (n_rural row) 1
  && (cell_ge (n_lapop10 row) 500 || cell_ratio_ge (n_lapop10 row) (n_pop row)).

(** The table has the five columns the classifier reads, each numeric. *)
Definition numeric_schema (df : DataFrame) : Prop :=
  Forall (λ n, is_Some (get_series df n))
         ["Urban"; "Rural"; "lapophalf"; "lapop10"; "POP2010"].

(** One urban tract with population 0 and half a person beyond half a
    mile, the count held as a float. *)
Definition half_person_table : DataFrame :=
  mkDF [RowId 0]
       (list_to_map
          [("Urban", NumCol [Some 1]);
           ("Rural", NumCol [Some 0]);
           ("POP2010", NumCol [Some 0]);
           ("lapophalf", FltCol [S754_finite false 4503599627370496 (-53)]);
           ("lapop10", NumCol [Some 0])]).

(* ===================================================================== *)
(** ** Exact ratios, counties of two tracts, magnitudes *)
(* ===================================================================== *)




(** The sum of the magnitudes of a column.  While it is below 2^53 every
    partial sum of the column, in any order, is an integer that int64 and
    float64 hold exactly, so the sums of pandas are the integer sums. *)
Definition abs_total (l : list (option Z)) : Z :=
  sum_Z ((λ v, Z.abs (cell_value v)) <$> l).

(** The joins at the two ends of the match rate: a CSV that has every
    tract of the shapefile, and one that has none of them. *)
Definition stranger_csv : DataFrame :=
  mkDF (RowId <$> seq 0 2)
       (list_to_map
          [("CensusTract", ObjCol [Some "u1"; Some "u2"]);
           ("County", ObjCol [Some "King"; Some "King"]);
           ("POP2010", NumCol [Some 5; Some 7])]).

Definition all_matched : DataFrame :=
  mkDF (RowId <$> seq 0 2)
       (list_to_map
          [("CTIDFP00", ObjCol [Some "t1"; Some "t2"]);
           ("geometry", GeomCol [Some {[1%nat]}; Some {[2%nat]}]);
           ("CensusTract", ObjCol [Some "t1"; Some "t2"]);
           ("County", ObjCol [None; Some "King"]);
           ("POP2010", NumCol [Some 5; Some 7])]).

Definition none_matched : DataFrame :=
  mkDF (RowId <$> seq 0 2)
       (list_to_map
          [("CTIDFP00", ObjCol [Some "t1"; Some "t2"]);
           ("geometry", GeomCol [Some {[1%nat]}; Some {[2%nat]}]);
           ("CensusTract", ObjCol [None; None]);
           ("County", ObjCol [None; None]);
           ("POP2010", NumCol [None; None])]).

(* ===================================================================== *)
(** ** Lemmas on masks and element-wise operations *)
(* ===================================================================== *)

Section series_lemmas.

Lemma get_num_getitem df name l :
  get_num df name = Some l → getitem df name = Some (NumCol l).
Proof.
  unfold get_num. destruct (getitem df name) as [[]|]; congruence.
Qed.

Lemma get_num_length df name l :
  df_wf df → get_num df name = Some l → length l = nrows df.
Proof.
  intros Hwf Hl. apply get_num_getitem in Hl.
  exact (Hwf name (NumCol l) Hl).
Qed.

Lemma get_series_num df name l :
  get_num df name = Some l → get_series df name = Some (IntS l).
Proof.
  intros H%get_num_getitem. unfold get_series. by rewrite H.
Qed.

Lemma get_series_length df name s :
  df_wf df → get_series df name = Some s → series_len s = nrows df.
Proof.
  intros Hwf. unfold get_series.
  destruct (getitem df name) as [[l|l|l|l|l]|] eqn:E; try done;
    intros [= <-]; exact (Hwf _ _ E).
Qed.

Lemma series_eq_length s k : length (series_eq s k) = series_len s.
Proof. destruct s; simpl; unfold eq_scalar; by rewrite length_fmap. Qed.

Lemma series_ge_length s k : length (series_ge s k) = series_len s.
Proof.
  destruct s; simpl; unfold ge_scalar, ge_float; by rewrite length_fmap.
Qed.

Lemma series_div_length a b :
  length (series_div a b) = Nat.min (series_len a) (series_len b).
Proof.
  unfold series_div. destruct a, b; simpl;
    by rewrite length_zip_with, ?length_fmap.
Qed.

Lemma series_div_int x y : series_div (IntS x) (IntS y) = truediv x y.
Proof.
  unfold series_div, truediv. simpl.
  by rewrite zip_with_fmap_l, zip_with_fmap_r.
Qed.

Lemma eq_scalar_lookup s k i v :
  s !! i = Some v → eq_scalar s k !! i = Some (bool_decide (v = Some k)).
Proof. intros H. unfold eq_scalar. by rewrite list_lookup_fmap, H. Qed.

Lemma ge_scalar_lookup s k i v :
  s !! i = Some v →
  ge_scalar s k !! i = Some (match v with Some z => k <=? z | None => false end).
Proof. intros H. unfold ge_scalar. by rewrite list_lookup_fmap, H. Qed.

Lemma ratio_lookup a b i x y :
  a !! i = Some x → b !! i = Some y →
  ge_float (truediv a b) F64.lit_0_33 !! i
  = Some (F64.ge (F64.div (F64.of_cell x) (F64.of_cell y)) F64.lit_0_33).
Proof.
  intros Ha Hb. unfold ge_float, truediv.
  by rewrite list_lookup_fmap, lookup_zip_with, Ha, Hb.
Qed.

Lemma band_lookup a b i x y :
  a !! i = Some x → b !! i = Some y → band a b !! i = Some (x && y).
Proof. intros Ha Hb. unfold band. by rewrite lookup_zip_with, Ha, Hb. Qed.

Lemma bor_lookup a b i x y :
  a !! i = Some x → b !! i = Some y → bor a b !! i = Some (x || y).
Proof. intros Ha Hb. unfold bor. by rewrite lookup_zip_with, Ha, Hb. Qed.

Lemma band_length a b : length (band a b) = Nat.min (length a) (length b).
Proof. apply length_zip_with. Qed.

Lemma bor_length a b : length (bor a b) = Nat.min (length a) (length b).
Proof. apply length_zip_with. Qed.

Lemma count_ge_leb (x : option Z) k :
  count_ge x k ↔ match x with Some z => k <=? z | None => false end = true.
Proof.
  unfold count_ge. destruct x as [z|]; split.
  - intros (z' & [= <-] & Hz). by apply Z.leb_le.
  - intros Hz. exists z. split; [done | by apply Z.leb_le].
  - intros (z' & Hz & _). discriminate.
  - discriminate.
Qed.

Lemma urban_bit_rule row : urban_bit row = true ↔ urban_rule row.
Proof.
  unfold urban_bit, urban_rule, ratio_ge.
  rewrite andb_true_iff, orb_true_iff, bool_decide_eq_true, count_ge_leb.
  reflexivity.
Qed.

Lemma rural_bit_rule row : rural_bit row = true ↔ rural_rule row.
Proof.
  unfold rural_bit, rural_rule, ratio_ge.
  rewrite andb_true_iff, orb_true_iff, bool_decide_eq_true, count_ge_leb.
  reflexivity.
Qed.

End series_lemmas.

(* ===================================================================== *)
(** ** The classifier, row by row *)
(* ===================================================================== *)

Section classifier.

Variable df : DataFrame.
Hypothesis Hwf : df_wf df.
Hypothesis Hschema : classifier_schema df.

Lemma schema_columns :
  ∃ U R H T P,
    get_num df "Urban" = Some U ∧ get_num df "Rural" = Some R ∧
    get_num df "lapophalf" = Some H ∧ get_num df "lapop10" = Some T ∧
    get_num df "POP2010" = Some P ∧
    length U = nrows df ∧ length R = nrows df ∧ length H = nrows df ∧
    length T = nrows df ∧ length P = nrows df.
Proof.
  unfold classifier_schema in Hschema.
  repeat (apply Forall_cons in Hschema as [[? ?] Hschema]).
  do 5 eexists. repeat split; eauto using get_num_length.
Qed.

(** What [classify] returns: the same rows, the same columns but for
    [low_access], and in each row the disjunction of the two masks. *)
Lemma classify_rows :
  ∃ df',
    classify df = Some df' ∧
    df_index df' = df_index df ∧
    (∀ name, name ≠ "low_access" → df_columns df' !! name = df_columns df !! name) ∧
    ∀ i, (i < nrows df)%nat →
      ∃ row, row_of df i = Some row ∧
             flag_at df' i = Some (Some (urban_bit row || rural_bit row)).
Proof.
  destruct schema_columns as (U & R & H & T & P & HU & HR & HH & HT & HP
                              & LU & LR & LH & LT & LP).
  set (u := band (eq_scalar U 1)
                 (bor (ge_scalar H 500) (ge_float (truediv H P) F64.lit_0_33))).
  set (r := band (eq_scalar R 1)
                 (bor (ge_scalar T 500) (ge_float (truediv T P) F64.lit_0_33))).
  assert (Hlen : length (bor u r) = nrows df).
  { subst u r. unfold band, bor, eq_scalar, ge_scalar, ge_float, truediv.
    repeat rewrite ?length_zip_with, ?length_fmap. lia. }
  exists (mkDF (df_index df)
               (<["low_access" := BoolCol (Some <$> bor u r)]> (df_columns df))).
  split; [|split; [done|split]].
  - unfold classify, urban_area, rural_area.
    rewrite (get_series_num _ _ _ HU), (get_series_num _ _ _ HR),
      (get_series_num _ _ _ HH), (get_series_num _ _ _ HT),
      (get_series_num _ _ _ HP). cbn [mbind option_bind series_eq series_ge].
    rewrite !series_div_int. fold u r. unfold setitem. simpl. rewrite length_fmap, Hlen.
    by rewrite decide_True.
  - intros name Hne. simpl. by rewrite lookup_insert_ne.
  - intros i Hi.
    destruct (lookup_lt_is_Some_2 U i) as [xu Hxu]; [lia|].
    destruct (lookup_lt_is_Some_2 R i) as [xr Hxr]; [lia|].
    destruct (lookup_lt_is_Some_2 H i) as [xh Hxh]; [lia|].
    destruct (lookup_lt_is_Some_2 T i) as [xt Hxt]; [lia|].
    destruct (lookup_lt_is_Some_2 P i) as [xp Hxp]; [lia|].
    exists (mkRow xu xr xh xt xp). split.
    + unfold row_of, num_at. rewrite HU, HR, HH, HT, HP. simpl.
      by rewrite Hxu, Hxr, Hxh, Hxt, Hxp.
    + unfold flag_at, getitem. simpl. rewrite lookup_insert_eq.
      rewrite list_lookup_fmap.
      erewrite bor_lookup; [reflexivity| |].
      * subst u. eapply band_lookup; [by apply eq_scalar_lookup|].
        eapply bor_lookup; [by apply ge_scalar_lookup | by apply ratio_lookup].
      * subst r. eapply band_lookup; [by apply eq_scalar_lookup|].
        eapply bor_lookup; [by apply ge_scalar_lookup | by apply ratio_lookup].
Qed.

End classifier.

(** C1.  For a well-formed table with the five numeric columns, the
    classifier returns, and in every row the new [low_access] cell is true
    exactly when (Urban == 1 and (lapophalf >= 500 or lapophalf / POP2010
    >= 0.33)) or (Rural == 1 and (lapop10 >= 500 or lapop10 / POP2010 >=
    0.33)). *)
Theorem low_access_iff_rule (df : DataFrame) :
  df_wf df → classifier_schema df →
  ∃ df', classify df = Some df' ∧
    ∀ i, (i < nrows df)%nat →
      ∃ row b, row_of df i = Some row ∧ flag_at df' i = Some (Some b) ∧
               (b = true ↔ low_access_rule row).
Proof.
  intros Hwf Hs.
  destruct (classify_rows df Hwf Hs) as (df' & Hc & _ & _ & Hrows).
  exists df'. split; [done|]. intros i Hi.
  destruct (Hrows i Hi) as (row & Hrow & Hflag).
  exists row, (urban_bit row || rural_bit row). repeat split; try done.
  - intros [Hu|Hr]%orb_true_iff; [left; by apply urban_bit_rule
                                 | right; by apply rural_bit_rule].
  - intros [Hu|Hr]; apply orb_true_iff;
      [left; by apply urban_bit_rule | right; by apply rural_bit_rule].
Qed.

(** C10.  A row whose Urban flag is not 1 and whose Rural flag is not 1
    (a null flag included) gets [low_access = False], whatever its counts
    and population are. *)
Theorem no_flag_no_low_access (df : DataFrame) :
  df_wf df → classifier_schema df →
  ∃ df', classify df = Some df' ∧
    ∀ i row, row_of df i = Some row →
      r_urban row ≠ Some 1 → r_rural row ≠ Some 1 →
      flag_at df' i = Some (Some false).
Proof.
  intros Hwf Hs.
  destruct (classify_rows df Hwf Hs) as (df' & Hc & _ & _ & Hrows).
  exists df'. split; [done|]. intros i row Hrow Hu Hr.
  assert (Hi : (i < nrows df)%nat).
  { destruct (schema_columns df Hwf Hs) as (U & ? & ? & ? & ? & HU & _ & _ & _ & _ & LU & _).
    unfold row_of, num_at in Hrow. rewrite HU in Hrow. simpl in Hrow.
    destruct (U !! i) eqn:E; [|discriminate].
    apply lookup_lt_Some in E. lia. }
  destruct (Hrows i Hi) as (row' & Hrow' & Hflag).
  assert (row' = row) as -> by congruence.
  rewrite Hflag. unfold urban_bit, rural_bit.
  by rewrite !bool_decide_eq_false_2.
Qed.

(* ===================================================================== *)
(** ** Boolean indexing *)
(* ===================================================================== *)

Section masks.

Context {A B : Type}.

Lemma take_mask_nil_r (mask : list bool) : take_mask mask (@nil A) = [].
Proof. by destruct mask as [|[] ?]. Qed.

Lemma elem_of_take_mask (mask : list bool) (l : list A) x :
  x ∈ take_mask mask l → ∃ j, mask !! j = Some true ∧ l !! j = Some x.
Proof.
  revert l. induction mask as [|b mask IH]; intros [|y l]; simpl;
    try (by intros ?%elem_of_nil).
  destruct b.
  - intros [->|Hx]%elem_of_cons.
    + by exists 0%nat.
    + destruct (IH l Hx) as (j & ? & ?). by exists (S j).
  - intros Hx. destruct (IH l Hx) as (j & ? & ?). by exists (S j).
Qed.


Lemma take_mask_fmap (f : A → B) (mask : list bool) (l : list A) :
  take_mask mask (f <$> l) = f <$> take_mask mask l.
Proof.
  revert l. induction mask as [|b mask IH]; intros [|y l]; simpl; try done.
  destruct b; simpl; by rewrite IH.
Qed.

Lemma take_mask_length (mask : list bool) (l : list A) (k : list B) :
  length l = length k → length (take_mask mask l) = length (take_mask mask k).
Proof.
  revert l k. induction mask as [|b mask IH]; intros [|y l] [|z k] Hlen;
    simpl in *; try done.
  destruct b; simpl; [f_equal|]; apply IH; lia.
Qed.

End masks.

Lemma mapM_id_Some {A} (l : list A) : mapM id (Some <$> l) = Some l.
Proof. apply mapM_Some. induction l; constructor; auto. Qed.

Lemma notnull_length c : length (notnull c) = col_len c.
Proof. destruct c; simpl; apply length_fmap. Qed.



(* ===================================================================== *)
(** ** Rounding in binary64 *)
(* ===================================================================== *)

Section rounding.

Lemma digits2_pos_bounds (p : positive) :
  2 ^ (Zpos (digits2_pos p) - 1) ≤ Zpos p < 2 ^ Zpos (digits2_pos p).
Proof.
  induction p as [p IH|p IH|]; simpl digits2_pos.
  - rewrite Pos2Z.inj_succ.
    replace (Z.succ (Zpos (digits2_pos p)) - 1) with (Z.succ (Zpos (digits2_pos p) - 1)) by lia.
    rewrite !Z.pow_succ_r by lia. lia.
  - rewrite Pos2Z.inj_succ.
    replace (Z.succ (Zpos (digits2_pos p)) - 1) with (Z.succ (Zpos (digits2_pos p) - 1)) by lia.
    rewrite !Z.pow_succ_r by lia. lia.
  - simpl. lia.
Qed.

Lemma shr_1_m (x : shr_record) :
  0 ≤ shr_m x → shr_m (shr_1 x) = shr_m x / 2 ∧ shr_r (shr_1 x) = Z.odd (shr_m x).
Proof.
  destruct x as [m r s]. simpl. intros Hm.
  destruct m as [|[p|p|]|p]; simpl; try lia; split; try done.
  - rewrite Pos2Z.inj_xI. apply Z.div_unique with 1; lia.
  - rewrite Pos2Z.inj_xO. apply Z.div_unique with 0; lia.
Qed.

Lemma shr_iter (p : positive) (x : shr_record) :
  0 ≤ shr_m x →
  shr_m (SpecFloat.iter_pos shr_1 p x) = shr_m x / 2 ^ Zpos p ∧
  (shr_r (SpecFloat.iter_pos shr_1 p x) = true →
   shr_m (SpecFloat.iter_pos shr_1 p x) * 2 ^ Zpos p < shr_m x).
Proof.
  revert x. induction p as [p IH|p IH|]; intros x Hx; simpl SpecFloat.iter_pos.
  - destruct (shr_1_m x Hx) as [Hm1 Hr1].
    assert (H1 : 0 ≤ shr_m (shr_1 x)) by (rewrite Hm1; apply Z.div_pos; lia).
    destruct (IH _ H1) as [Hm2 Hr2].
    assert (H2 : 0 ≤ shr_m (SpecFloat.iter_pos shr_1 p (shr_1 x))).
    { rewrite Hm2. apply Z.div_pos; lia. }
    destruct (IH _ H2) as [Hm3 Hr3].
    set (z := SpecFloat.iter_pos shr_1 p (SpecFloat.iter_pos shr_1 p (shr_1 x))) in *.
    set (y := SpecFloat.iter_pos shr_1 p (shr_1 x)) in *.
    replace (Zpos p~1) with (1 + Zpos p + Zpos p) by lia.
    rewrite !Z.pow_add_r by lia. change (2 ^ 1) with 2.
    assert (Hpow : 0 < 2 ^ Zpos p) by (apply Z.pow_pos_nonneg; lia).
    split.
    + rewrite Hm3, Hm2, Hm1. rewrite !Z.div_div by lia. f_equal. lia.
    + intros Hr. specialize (Hr3 Hr).
      pose proof (Z.mul_div_le (shr_m (shr_1 x)) (2 ^ Zpos p)) as Ha.
      pose proof (Z.mul_div_le (shr_m x) 2) as Hb.
      rewrite <- Hm2 in Ha. rewrite <- Hm1 in Hb. nia.
  - destruct (IH _ Hx) as [Hm2 Hr2].
    assert (H2 : 0 ≤ shr_m (SpecFloat.iter_pos shr_1 p x)).
    { rewrite Hm2. apply Z.div_pos; lia. }
    destruct (IH _ H2) as [Hm3 Hr3].
    replace (Zpos p~0) with (Zpos p + Zpos p) by lia.
    rewrite !Z.pow_add_r by lia.
    assert (Hpow : 0 < 2 ^ Zpos p) by (apply Z.pow_pos_nonneg; lia).
    split.
    + rewrite Hm3, Hm2. rewrite !Z.div_div by lia. f_equal.
    + intros Hr. specialize (Hr3 Hr).
      pose proof (Z.mul_div_le (shr_m x) (2 ^ Zpos p)) as Ha.
      rewrite <- Hm2 in Ha. nia.
  - destruct (shr_1_m x Hx) as [Hm1 Hr1]. change (2 ^ 1) with 2. split; [done|].
    rewrite Hr1, Hm1. intros Hodd.
    rewrite (Z.div_mod (shr_m x) 2) at 2 by lia.
    rewrite Zmod_odd, Hodd. lia.
Qed.

Lemma Zdigits2_bounds (m : Z) :
  0 < m → 2 ^ (Zdigits2 m - 1) ≤ m < 2 ^ Zdigits2 m ∧ 0 < Zdigits2 m.
Proof.
  intros Hm. destruct m as [|p|p]; try lia. simpl.
  split; [apply digits2_pos_bounds | lia].
Qed.

Lemma fexp_eq (x : Z) : fexp 53 1024 x = Z.max (x - 53) (-1074).
Proof. reflexivity. Qed.

Lemma pow2_lt_exp (a b : Z) : 0 ≤ a → 2 ^ a < 2 ^ b → a < b.
Proof.
  intros Ha H. destruct (Z.lt_ge_cases b 0) as [Hb|Hb].
  - rewrite (Z.pow_neg_r 2 b) in H by lia.
    assert (0 < 2 ^ a) by (apply Z.pow_pos_nonneg; lia). lia.
  - apply (Z.pow_lt_mono_r_iff 2); lia.
Qed.

Lemma shr_record_of_loc_m m l : shr_m (shr_record_of_loc m l) = m.
Proof. by destruct l as [|[]]. Qed.

Lemma shr_record_of_loc_r m l :
  shr_r (shr_record_of_loc m l) = true → l ≠ loc_Exact.
Proof. by destruct l as [|[]]. Qed.

(** The shift of [shr]: the mantissa is divided by [2^n]; a set round bit
    tells that the division was not exact. *)
Lemma shr_spec (x : shr_record) (e n : Z) :
  0 ≤ shr_m x →
  (n ≤ 0 ∧ shr x e n = (x, e)) ∨
  (0 < n ∧ snd (shr x e n) = e + n ∧
   shr_m (fst (shr x e n)) = shr_m x / 2 ^ n ∧
   (shr_r (fst (shr x e n)) = true → shr_m (fst (shr x e n)) * 2 ^ n < shr_m x)).
Proof.
  intros Hx. destruct n as [|p|p]; simpl.
  - left. split; [lia|done].
  - right. destruct (shr_iter p x Hx) as [Hm Hr]. repeat split; auto; lia.
  - left. split; [lia|done].
Qed.

Lemma round_nearest_even_cases (x : shr_record) :
  let m' := round_nearest_even (shr_m x) (loc_of_shr_record x) in
  m' = shr_m x ∨ (m' = shr_m x + 1 ∧ shr_r x = true).
Proof.
  destruct x as [m [] []]; simpl; auto.
  destruct (Z.even m); auto.
Qed.

(** One [shr_fexp] step below a bound [g * 2^ge]. *)
Lemma shr_fexp_upper (m e : Z) (l : location) (g ge : Z) :
  0 ≤ m → 0 < g < 2 ^ 53 → -1074 ≤ ge → e ≤ ge →
  m ≤ g * 2 ^ (ge - e) →
  let r := shr_fexp 53 1024 m e l in
  0 ≤ shr_m (fst r) ∧ snd r ≤ ge ∧
  shr_m (fst r) ≤ g * 2 ^ (ge - snd r) ∧
  (shr_r (fst r) = true →
     (l ≠ loc_Exact ∧ snd r = e ∧ shr_m (fst r) = m)
     ∨ shr_m (fst r) < g * 2 ^ (ge - snd r)).
Proof.
  intros Hm Hg Hge He Hle. unfold shr_fexp.
  set (n := fexp 53 1024 (Zdigits2 m + e) - e).
  destruct (shr_spec (shr_record_of_loc m l) e n) as [[Hn ->]|(Hn & He' & Hm' & Hr')].
  { by rewrite shr_record_of_loc_m. }
  - simpl. rewrite shr_record_of_loc_m. repeat split; auto.
    intros Hr. left. repeat split; auto. by apply shr_record_of_loc_r in Hr.
  - cbv zeta. rewrite shr_record_of_loc_m in *.
    set (r := shr (shr_record_of_loc m l) e n) in *.
    assert (Hen : e + n ≤ ge).
    { subst n. rewrite fexp_eq in *.
      destruct (Z.max_spec (Zdigits2 m + e - 53) (-1074)) as [[_ ->]|[_ Hmax]]; [lia|].
      rewrite Hmax in *.
      assert (0 < m) as Hpos.
      { destruct (Z.eq_dec m 0) as [->|]; [simpl in *; lia | lia]. }
      destruct (Zdigits2_bounds m Hpos) as [[Hlo _] Hd].
      assert (2 ^ (Zdigits2 m - 1) < 2 ^ (53 + (ge - e))).
      { rewrite Z.pow_add_r by lia.
        assert (0 < 2 ^ (ge - e)) by (apply Z.pow_pos_nonneg; lia). nia. }
      apply pow2_lt_exp in H; lia. }
    assert (Hpow : 0 < 2 ^ n) by (apply Z.pow_pos_nonneg; lia).
    assert (Hsplit : 2 ^ (ge - e) = 2 ^ (ge - (e + n)) * 2 ^ n).
    { rewrite <- Z.pow_add_r by lia. f_equal. lia. }
    assert (Hdiv : shr_m (fst r) * 2 ^ n ≤ m).
    { rewrite Hm'. rewrite Z.mul_comm. apply Z.mul_div_le. lia. }
    assert (0 < 2 ^ (ge - (e + n))) by (apply Z.pow_pos_nonneg; lia).
    rewrite He'. repeat split.
    + rewrite Hm'. apply Z.div_pos; lia.
    + lia.
    + rewrite Hsplit in Hle. nia.
    + intros Hr. right. specialize (Hr' Hr). rewrite Hsplit in Hle. nia.
Qed.

(** [binary_round_aux] stays below a representable bound. *)
Lemma binary_round_aux_upper (s : bool) (m e : Z) (l : location) (g ge : Z) :
  0 ≤ m → 0 < g < 2 ^ 53 → -1074 ≤ ge ≤ 971 → e ≤ ge →
  m ≤ g * 2 ^ (ge - e) → (l ≠ loc_Exact → m < g * 2 ^ (ge - e)) →
  match binary_round_aux 53 1024 s m e l with
  | S754_zero s' => s' = s
  | S754_finite s' m' e' => s' = s ∧ e' ≤ ge ∧ Zpos m' ≤ g * 2 ^ (ge - e')
  | _ => False
  end.
Proof.
  intros Hm Hg Hge He Hle Hlt. unfold binary_round_aux.
  pose proof (shr_fexp_upper m e l g ge Hm Hg (proj1 Hge) He Hle) as H1.
  destruct (shr_fexp 53 1024 m e l) as [r1 e1]. simpl in H1.
  destruct H1 as (Hm1 & He1 & Hle1 & Hr1).
  set (m2 := round_nearest_even (shr_m r1) (loc_of_shr_record r1)).
  assert (Hm2 : 0 ≤ m2 ≤ g * 2 ^ (ge - e1)).
  { destruct (round_nearest_even_cases r1) as [Heq|[Heq Hr]]; fold m2 in Heq;
      rewrite Heq; [lia|].
    destruct (Hr1 Hr) as [(Hl & -> & ->)|Hlt1]; [specialize (Hlt Hl)|]; lia. }
  pose proof (shr_fexp_upper m2 e1 loc_Exact g ge (proj1 Hm2) Hg (proj1 Hge) He1 (proj2 Hm2)) as H2.
  destruct (shr_fexp 53 1024 m2 e1 loc_Exact) as [r2 e2]. simpl in H2.
  destruct H2 as (Hm3 & He2 & Hle2 & _).
  destruct (shr_m r2) as [|p|p]; [done| |lia].
  replace (e2 <=? 1024 - 53) with true by (symmetry; apply Z.leb_le; lia).
  auto.
Qed.

(** A positive mantissa above the subnormal exponent never rounds to zero. *)
Lemma shr_fexp_pos (m e : Z) (l : location) :
  0 < m → -1074 ≤ e →
  let r := shr_fexp 53 1024 m e l in
  0 < shr_m (fst r) ∧ -1074 ≤ snd r.
Proof.
  intros Hm He. unfold shr_fexp.
  set (n := fexp 53 1024 (Zdigits2 m + e) - e).
  destruct (shr_spec (shr_record_of_loc m l) e n) as [[Hn ->]|(Hn & He' & Hm' & _)].
  { rewrite shr_record_of_loc_m. lia. }
  - simpl. by rewrite shr_record_of_loc_m.
  - cbv zeta. rewrite shr_record_of_loc_m in *. rewrite He', Hm'.
    destruct (Zdigits2_bounds m Hm) as [[Hlo _] Hd].
    assert (n = Zdigits2 m - 53) as Hn'.
    { subst n. rewrite fexp_eq in *. lia. }
    split; [|lia].
    apply Z.div_str_pos. split; [apply Z.pow_pos_nonneg; lia|].
    etrans; [|exact Hlo]. apply Z.pow_le_mono_r; lia.
Qed.

Lemma binary_round_aux_pos (s : bool) (m e : Z) (l : location) :
  0 < m → -1074 ≤ e →
  match binary_round_aux 53 1024 s m e l with
  | S754_finite s' _ _ | S754_infinity s' => s' = s
  | _ => False
  end.
Proof.
  intros Hm He. unfold binary_round_aux.
  pose proof (shr_fexp_pos m e l Hm He) as H1.
  destruct (shr_fexp 53 1024 m e l) as [r1 e1]. simpl in H1. destruct H1 as [Hm1 He1].
  set (m2 := round_nearest_even (shr_m r1) (loc_of_shr_record r1)).
  assert (Hm2 : 0 < m2).
  { destruct (round_nearest_even_cases r1) as [Heq|[Heq _]]; fold m2 in Heq; lia. }
  pose proof (shr_fexp_pos m2 e1 loc_Exact Hm2 He1) as H2.
  destruct (shr_fexp 53 1024 m2 e1 loc_Exact) as [r2 e2]. simpl in H2.
  destruct H2 as [Hm3 _].
  destruct (shr_m r2) as [|p|p]; [lia| |lia].
  by destruct (e2 <=? 1024 - 53).
Qed.

Lemma Zdigits2_unique (m d : Z) :
  2 ^ (d - 1) ≤ m < 2 ^ d → 0 < d → Zdigits2 m = d.
Proof.
  intros [Hlo Hhi] Hd.
  assert (0 < m) as Hm.
  { assert (0 < 2 ^ (d - 1)) by (apply Z.pow_pos_nonneg; lia). lia. }
  destruct (Zdigits2_bounds m Hm) as [[Hlo' Hhi'] Hd'].
  assert (d - 1 < Zdigits2 m) by (apply pow2_lt_exp; lia).
  assert (Zdigits2 m - 1 < d) by (apply pow2_lt_exp; lia).
  lia.
Qed.

Lemma iter_xO_spec (p k : positive) :
  Zpos (Pos.iter xO p k) = Zpos p * 2 ^ Zpos k.
Proof.
  induction k as [|k IH] using Pos.peano_ind.
  - simpl. lia.
  - rewrite Pos.iter_succ, Pos2Z.inj_xO, IH, Pos2Z.inj_succ, Z.pow_succ_r; lia.
Qed.

(** A mantissa of exactly 53 bits is kept as it is. *)
Lemma binary_round_aux_exact (s : bool) (m : positive) (e : Z) :
  Zdigits2 (Zpos m) = 53 → -1074 ≤ e ≤ 971 →
  binary_round_aux 53 1024 s (Zpos m) e loc_Exact = S754_finite s m e.
Proof.
  intros Hd He. simpl in Hd. unfold binary_round_aux, shr_fexp.
  simpl Zdigits2. rewrite Hd, fexp_eq.
  replace (Z.max (53 + e - 53) (-1074) - e) with 0 by lia.
  cbn [shr shr_record_of_loc fst snd shr_m loc_of_shr_record round_nearest_even].
  simpl Zdigits2. rewrite Hd, fexp_eq.
  replace (Z.max (53 + e - 53) (-1074) - e) with 0 by lia.
  cbn [shr shr_record_of_loc fst snd shr_m].
  replace (e <=? 1024 - 53) with true by (symmetry; apply Z.leb_le; lia). done.
Qed.

(** Integers below 2^53 convert without rounding. *)
Lemma of_Z_small (p : positive) :
  Zpos p < 2 ^ 53 →
  ∃ m e, F64.of_Z (Zpos p) = S754_finite false m e ∧
         -52 ≤ e ≤ 0 ∧ Zpos m = Zpos p * 2 ^ (- e).
Proof.
  intros Hp. unfold F64.of_Z, binary_normalize, binary_round.
  destruct (digits2_pos_bounds p) as [Hlo Hhi].
  set (d := Zpos (digits2_pos p)) in *.
  assert (Hd : 1 ≤ d ≤ 53).
  { split; [subst d; lia|]. assert (d - 1 < 53) by (apply pow2_lt_exp; lia). lia. }
  rewrite Z.add_0_r. unfold F64.prec, F64.emax. rewrite fexp_eq.
  replace (Z.max (d - 53) (-1074)) with (d - 53) by lia.
  unfold shl_align. rewrite Z.sub_0_r.
  destruct (d - 53) as [|k|k] eqn:Hk; [|lia|].
  - exists p, 0. rewrite binary_round_aux_exact; [|simpl; fold d; lia|lia].
    split; [done|]. split; [lia|]. simpl. lia.
  - exists (Pos.iter xO p k), (Zneg k).
    assert (Hm : Zpos (Pos.iter xO p k) = Zpos p * 2 ^ Zpos k) by apply iter_xO_spec.
    rewrite binary_round_aux_exact; [|apply Zdigits2_unique; [|lia]|lia].
    + split; [done|]. split; [lia|]. exact Hm.
    + rewrite Hm. replace (Zpos k) with (53 - d) by lia.
      assert (0 < 2 ^ (53 - d)) by (apply Z.pow_pos_nonneg; lia).
      replace (2 ^ (53 - 1)) with (2 ^ (d - 1) * 2 ^ (53 - d))
        by (rewrite <- Z.pow_add_r by lia; f_equal; lia).
      replace (2 ^ 53) with (2 ^ d * 2 ^ (53 - d))
        by (rewrite <- Z.pow_add_r by lia; f_equal; lia).
      nia.
Qed.

Lemma of_Z_0 : F64.of_Z 0 = S754_zero false.
Proof. reflexivity. Qed.

(** The float literals of the program are the nearest binary64 numbers:
    [0.33] is the rounded quotient 33/100, [100] and [2] are exact. *)
Lemma lit_0_33_nearest : F64.lit_0_33 = F64.div (F64.of_Z 33) (F64.of_Z 100).
Proof. vm_compute. reflexivity. Qed.

Lemma lit_100_exact : F64.lit_100 = F64.of_Z 100.
Proof. vm_compute. reflexivity. Qed.

Lemma lit_2_exact : F64.lit_2 = F64.of_Z 2.
Proof. vm_compute. reflexivity. Qed.

(** The sign of a converted integer. *)
Lemma of_Z_pos (p : positive) :
  match F64.of_Z (Zpos p) with
  | S754_finite s _ _ | S754_infinity s => s = false
  | _ => False
  end.
Proof.
  unfold F64.of_Z, binary_normalize, binary_round.
  destruct (shl_align p 0 _) as [mz ez] eqn:Hsh.
  apply binary_round_aux_pos; [lia|].
  unfold shl_align in Hsh. rewrite Z.sub_0_r in Hsh.
  unfold F64.prec, F64.emax in Hsh. rewrite fexp_eq in Hsh.
  destruct (Z.max _ _) eqn:Hmax in Hsh; inversion Hsh; subst; lia.
Qed.

Lemma of_Z_neg (p : positive) :
  match F64.of_Z (Zneg p) with
  | S754_finite s _ _ | S754_infinity s => s = true
  | _ => False
  end.
Proof.
  unfold F64.of_Z, binary_normalize, binary_round.
  destruct (shl_align p 0 _) as [mz ez] eqn:Hsh.
  apply binary_round_aux_pos; [lia|].
  unfold shl_align in Hsh. rewrite Z.sub_0_r in Hsh.
  unfold F64.prec, F64.emax in Hsh. rewrite fexp_eq in Hsh.
  destruct (Z.max _ _) eqn:Hmax in Hsh; inversion Hsh; subst; lia.
Qed.

Lemma new_location_inexact (nb k : Z) :
  new_location nb k ≠ loc_Exact → k ≠ 0.
Proof.
  intros H ->. apply H. unfold new_location, new_location_even, new_location_odd.
  by destruct (Z.even nb).
Qed.

Lemma SFdiv_core_binary_spec (m1 m2 : positive) (e1 e2 : Z) :
  let e' := Z.min (fexp 53 1024 (Zdigits2 (Zpos m1) + e1 - (Zdigits2 (Zpos m2) + e2)))
                  (e1 - e2) in
  let n := Zpos m1 * 2 ^ (e1 - e2 - e') in
  SFdiv_core_binary 53 1024 (Zpos m1) e1 (Zpos m2) e2
  = (n / Zpos m2, e', new_location (Zpos m2) (n mod Zpos m2)).
Proof.
  intros e' n. unfold SFdiv_core_binary. fold e'.
  assert (Hs : 0 ≤ e1 - e2 - e') by (subst e'; lia).
  assert (Hn : match e1 - e2 - e' with
               | Z0 => Zpos m1
               | Zpos _ => Z.shiftl (Zpos m1) (e1 - e2 - e')
               | Zneg _ => 0
               end = n).
  { subst n. destruct (e1 - e2 - e') as [|k|k] eqn:Hk; [lia| |lia].
    by rewrite Z.shiftl_mul_pow2. }
  rewrite Hn. unfold Z.div, Z.modulo.
  by destruct (Z.div_eucl n (Zpos m2)).
Qed.

(** A quotient of two converted counts, numerator at most the denominator,
    is at most one. *)
Lemma div_le_one (a b : positive) :
  Zpos a ≤ Zpos b → Zpos b < 2 ^ 53 →
  match F64.div (F64.of_Z (Zpos a)) (F64.of_Z (Zpos b)) with
  | S754_zero s => s = false
  | S754_finite s m e => s = false ∧ e ≤ -52 ∧ Zpos m ≤ 2 ^ 52 * 2 ^ (-52 - e)
  | _ => False
  end.
Proof.
  intros Hab Hb.
  destruct (of_Z_small a) as (ma & ea & -> & Hea & Hma); [lia|].
  destruct (of_Z_small b) as (mb & eb & -> & Heb & Hmb); [lia|].
  unfold F64.div, SFdiv, F64.prec, F64.emax.
  rewrite SFdiv_core_binary_spec.
  set (e' := Z.min _ _). set (n := Zpos ma * 2 ^ (ea - eb - e')).
  simpl xorb.
  assert (He' : e' ≤ -53).
  { subst e'. rewrite fexp_eq.
    destruct (Zdigits2_bounds (Zpos ma)) as [[Hlo _] _]; [lia|].
    destruct (Zdigits2_bounds (Zpos mb)) as [[_ Hhi] _]; [lia|].
    set (da := Zdigits2 (Zpos ma)) in *. set (db := Zdigits2 (Zpos mb)) in *.
    assert (da - 1 + ea < db + eb); [|lia].
    assert (0 < 2 ^ (- ea)) by (apply Z.pow_pos_nonneg; lia).
    assert (0 < 2 ^ (- eb)) by (apply Z.pow_pos_nonneg; lia).
    assert (0 < da ∧ 0 < db) as [? ?] by (subst da db; simpl; lia).
    assert (da - 1 + ea + 52 < db + eb + 52); [|lia].
    apply pow2_lt_exp; [lia|].
    replace (2 ^ (da - 1 + ea + 52)) with (2 ^ (da - 1) * 2 ^ (ea + 52))
      by (rewrite <- Z.pow_add_r by lia; f_equal; lia).
    replace (2 ^ (db + eb + 52)) with (2 ^ db * 2 ^ (eb + 52))
      by (rewrite <- Z.pow_add_r by lia; f_equal; lia).
    assert (E1 : 2 ^ 52 = 2 ^ (- ea) * 2 ^ (ea + 52))
      by (rewrite <- Z.pow_add_r by lia; f_equal; lia).
    assert (E2 : 2 ^ 52 = 2 ^ (- eb) * 2 ^ (eb + 52))
      by (rewrite <- Z.pow_add_r by lia; f_equal; lia).
    assert (0 < 2 ^ (ea + 52)) by (apply Z.pow_pos_nonneg; lia).
    assert (0 < 2 ^ (eb + 52)) by (apply Z.pow_pos_nonneg; lia).
    assert (Zpos ma * 2 ^ (ea + 52) = Zpos a * 2 ^ 52) by (rewrite Hma, E1; ring).
    assert (Zpos mb * 2 ^ (eb + 52) = Zpos b * 2 ^ 52) by (rewrite Hmb, E2 at 1; ring).
    nia. }
  assert (Hs : 0 ≤ ea - eb - e') by (subst e'; lia).
  assert (Hnle : n ≤ Zpos mb * 2 ^ (- e')).
  { subst n. rewrite Hma, Hmb.
    rewrite <- !Z.mul_assoc, <- !Z.pow_add_r by lia.
    replace (- ea + (ea - eb - e')) with (- eb + - e') by lia.
    apply Z.mul_le_mono_nonneg_r; [apply Z.pow_nonneg|]; lia. }
  assert (Hpw : 2 ^ 52 * 2 ^ (-52 - e') = 2 ^ (- e')).
  { rewrite <- Z.pow_add_r by lia. f_equal. lia. }
  assert (Hn0 : 0 ≤ n) by (subst n; apply Z.mul_nonneg_nonneg; [|apply Z.pow_nonneg]; lia).
  apply binary_round_aux_upper; try lia.
  - apply Z.div_pos; lia.
  - rewrite Hpw. apply Z.div_le_upper_bound; lia.
  - intros Hloc%new_location_inexact. rewrite Hpw.
    pose proof (Z.div_mod n (Zpos mb)) as Hdm.
    pose proof (Z.mod_pos_bound n (Zpos mb)) as Hmod.
    assert (0 < 2 ^ (- e')) by (apply Z.pow_pos_nonneg; lia).
    nia.
Qed.

(** Scaling a ratio of at most one by the literal 100 stays within 100. *)
Lemma mul_100_le (m : positive) (e : Z) :
  e ≤ -52 → Zpos m ≤ 2 ^ 52 * 2 ^ (-52 - e) →
  match F64.mul (S754_finite false m e) F64.lit_100 with
  | S754_zero s => s = false
  | S754_finite s m' e' =>
      s = false ∧ e' ≤ -46 ∧ Zpos m' ≤ 7036874417766400 * 2 ^ (-46 - e')
  | _ => False
  end.
Proof.
  intros He Hm. unfold F64.mul, F64.lit_100, SFmul, F64.prec, F64.emax.
  simpl xorb.
  assert (Hpw : 2 ^ 52 * 2 ^ (-52 - e) = 2 ^ (- e)).
  { rewrite <- Z.pow_add_r by lia. f_equal. lia. }
  apply binary_round_aux_upper; try lia; try done.
  replace (-46 - (e + -46)) with (- e) by lia.
  rewrite Pos2Z.inj_mul. nia.
Qed.

(** Range of a finite non-negative float at or below the literal 100. *)
Lemma le_lit_100 (m : positive) (e : Z) :
  e ≤ -46 → Zpos m ≤ 7036874417766400 * 2 ^ (-46 - e) →
  F64.le (S754_finite false m e) F64.lit_100 = true.
Proof.
  intros He Hm. unfold F64.le, SFleb, F64.lit_100, SFcompare.
  destruct (Z.compare_spec e (-46)) as [->|Hlt|Hgt]; [|done|lia].
  simpl in Hm. rewrite Pos.compare_cont_spec. simpl.
  destruct (Pos.compare_spec m 7036874417766400); try done. lia.
Qed.

(** The match rate on counts [a <= b], [0 < b < 2^53]. *)
Lemma match_rate_range (a b : Z) :
  0 ≤ a ≤ b → 0 < b < 2 ^ 53 →
  let p := F64.mul (F64.div (F64.of_Z a) (F64.of_Z b)) F64.lit_100 in
  F64.le F64.pzero p = true ∧ F64.le p F64.lit_100 = true.
Proof.
  intros Ha Hb. destruct b as [|b|b]; try lia.
  destruct a as [|a|a]; try lia.
  - destruct (of_Z_small b) as (mb & eb & Hb' & _); [lia|].
    cbv zeta. rewrite of_Z_0, Hb'. by vm_compute.
  - pose proof (div_le_one a b ltac:(lia) ltac:(lia)) as Hdiv. cbv zeta.
    destruct (F64.div (F64.of_Z (Zpos a)) (F64.of_Z (Zpos b))) as [s|s| |s m e].
    + rewrite Hdiv. by vm_compute.
    + done.
    + done.
    + destruct Hdiv as (-> & He & Hm).
      pose proof (mul_100_le m e He Hm) as Hmul.
      destruct (F64.mul (S754_finite false m e) F64.lit_100) as [s'|s'| |s' m' e'].
      * rewrite Hmul. by vm_compute.
      * done.
      * done.
      * destruct Hmul as (-> & He' & Hm'). split; [done|].
        by apply le_lit_100.
Qed.

End rounding.

(* ===================================================================== *)
(** ** The world monad: inversion and frame lemmas *)
(* ===================================================================== *)

Section monad.

Context {A B : Type}.

Lemma bind_Some (m : M A) (f : A → M B) w b w' :
  (m ≫= f) w = Some (b, w') ↔ ∃ a w1, m w = Some (a, w1) ∧ f a w1 = Some (b, w').
Proof.
  unfold mbind, M_bind. destruct (m w) as [[a w1]|]; split.
  - intros H. by exists a, w1.
  - by intros (? & ? & [= <- <-] & ?).
  - discriminate.
  - by intros (? & ? & ? & ?).
Qed.

Lemma lift_Some (o : option A) w a w' :
  lift o w = Some (a, w') ↔ o = Some a ∧ w' = w.
Proof.
  destruct o as [x|]; simpl; unfold mret, M_ret, raise; split.
  - by intros [= <- <-].
  - by intros [[= <-] ->].
  - discriminate.
  - by intros [? _].
Qed.

Lemma read_only_bind (m : M A) (f : A → M B) :
  read_only m → (∀ a, read_only (f a)) → read_only (m ≫= f).
Proof.
  intros Hm Hf w b w' (a & w1 & H1 & H2)%bind_Some.
  destruct (Hm _ _ _ H1) as [E1 E2]. destruct (Hf a _ _ _ H2) as [E3 E4].
  split; congruence.
Qed.

Lemma read_only_ret (a : A) : read_only (mret a : M A).
Proof. intros w ? w' H. by inversion H. Qed.

Lemma read_only_lift (o : option A) : read_only (lift o).
Proof. by intros w a w' [_ ->]%lift_Some. Qed.

Lemma read_only_raise : read_only (raise : M A).
Proof. by intros w a w'. Qed.

End monad.

Create HintDb frame discriminated.
#[export] Hint Resolve read_only_ret read_only_lift read_only_raise : frame.

Ltac frame_step :=
  first [ solve [eauto with frame]
        | progress cbv zeta
        | apply read_only_bind; [|intros ?] ].

Section frame.

Lemma read_only_get_world : read_only get_world.
Proof. intros w ? w' H. by inversion H. Qed.

Lemma read_only_put_figs fs cur : read_only (put_figs fs cur).
Proof. intros w ? w' H. by inversion H. Qed.

Lemma read_only_put_file name fig : read_only (put_file name fig).
Proof. intros w ? w' H. by inversion H. Qed.

#[local] Hint Resolve read_only_get_world read_only_put_figs read_only_put_file : frame.

Lemma read_only_deref l : read_only (deref l).
Proof. unfold deref. repeat frame_step. Qed.

Lemma read_only_read_file p : read_only (read_file p).
Proof. unfold read_file. repeat frame_step. Qed.

Lemma read_only_subplots n : read_only (plt_subplots n).
Proof. unfold plt_subplots. repeat frame_step. Qed.

#[local] Hint Resolve read_only_deref read_only_read_file read_only_subplots : frame.

Lemma read_only_gca : read_only plt_gca.
Proof.
  unfold plt_gca. apply read_only_bind; [auto with frame|].
  intros w. destruct (figs w); repeat frame_step.
Qed.

Lemma read_only_update_axes h f : read_only (update_axes h f).
Proof. unfold update_axes. repeat frame_step. Qed.

#[local] Hint Resolve read_only_gca read_only_update_axes : frame.

Lemma read_only_set_title h t : read_only (ax_set_title h t).
Proof. unfold ax_set_title. auto with frame. Qed.

#[local] Hint Resolve read_only_set_title : frame.

Lemma read_only_title t : read_only (plt_title t).
Proof. unfold plt_title. repeat frame_step. Qed.

Lemma read_only_savefig name : read_only (plt_savefig name).
Proof.
  unfold plt_savefig. repeat frame_step.
Qed.

Lemma read_only_plot df kw : read_only (df_plot df kw).
Proof.
  unfold df_plot. repeat frame_step.
  - destruct (kw_column kw); repeat frame_step.
  - destruct (kw_ax kw); repeat frame_step.
Qed.

End frame.

#[export] Hint Resolve read_only_get_world read_only_put_figs read_only_put_file read_only_deref
  read_only_read_file read_only_subplots read_only_gca read_only_update_axes
  read_only_set_title read_only_title read_only_savefig read_only_plot : frame.

Lemma read_only_plot_map l : read_only (plot_map l).
Proof. unfold plot_map. repeat frame_step. Qed.

Lemma read_only_plot_population_map l : read_only (plot_population_map l).
Proof. unfold plot_population_map. repeat frame_step. Qed.

Lemma read_only_plot_population_county_map l :
  read_only (plot_population_county_map l).
Proof. unfold plot_population_county_map. repeat frame_step. Qed.

Lemma read_only_plot_food_access_by_county l :
  read_only (plot_food_access_by_county l).
Proof.
  unfold plot_food_access_by_county. repeat frame_step.
  repeat (case_match; auto with frame). repeat frame_step.
Qed.

(* ------------------------------------------------------------------ *)

Lemma get_world_Some w a w' : get_world w = Some (a, w') ↔ a = w ∧ w' = w.
Proof. unfold get_world. split; [by intros [= <- <-] | by intros [-> ->]]. Qed.

Lemma deref_Some l w df w' :
  deref l w = Some (df, w') ↔ heap w !! l = Some df ∧ w' = w.
Proof.
  unfold deref. rewrite bind_Some. split.
  - intros (a & w1 & [-> ->]%get_world_Some & H%lift_Some). done.
  - intros [H ->]. exists w, w. split; [done|]. by apply lift_Some.
Qed.

Lemma classify_frame df df' :
  classify df = Some df' →
  df_index df' = df_index df ∧
  is_Some (df_columns df' !! "low_access") ∧
  ∀ name, name ≠ "low_access" → df_columns df' !! name = df_columns df !! name.
Proof.
  unfold classify, setitem. intros H.
  destruct (urban_area df) as [u|]; [|done].
  destruct (rural_area df) as [r|]; [|done]. simpl in H.
  case_decide; [|done]. injection H as <-. simpl. repeat split.
  - rewrite lookup_insert_eq. by eexists.
  - intros name Hne. by rewrite lookup_insert_ne.
Qed.

(** The only table [plot_low_access_tracts] touches is its argument, and
    there it assigns the [low_access] column. *)
Lemma plot_low_access_tracts_heap l w u w' :
  plot_low_access_tracts l w = Some (u, w') →
  ∃ df df', heap w !! l = Some df ∧ classify df = Some df' ∧
            heap w' = <[l := df']> (heap w) ∧ disk w' = disk w.
Proof.
  unfold plot_low_access_tracts. intros H.
  apply bind_Some in H as (df & w1 & [Hdf ->]%deref_Some & H).
  apply bind_Some in H as (df' & w1 & [Hcl ->]%lift_Some & H).
  apply bind_Some in H as ([] & w1 & Hst & H).
  exists df, df'. split; [done|]. split; [done|].
  match type of H with
  | ?m _ = _ => assert (Hro : read_only m) by (repeat frame_step)
  end.
  destruct (Hro _ _ _ H) as [-> ->]. by inversion Hst.
Qed.

Section figures.

Variable F : list figure.

Lemma update_axes_cur (fig : figure) (i : nat) (ax : axes) (f : axes → axes) w u w' :
  figs w = F ++ [fig] → fig !! i = Some ax →
  update_axes (length F, i) f w = Some (u, w') →
  w' = set_figs w (F ++ [<[i := f ax]> fig]).
Proof.
  intros Hfigs Hax. unfold update_axes. simpl.
  intros (a & w1 & [-> ->]%get_world_Some & H)%bind_Some.
  rewrite Hfigs in H.
  rewrite lookup_app_r, Nat.sub_diag in H by lia. simpl in H.
  apply bind_Some in H as (fig' & w1 & Hr & H). inversion Hr; subst fig' w1; clear Hr.
  apply bind_Some in H as (ax' & w1 & [Hax' ->]%lift_Some & H).
  assert (ax' = ax) as -> by congruence.
  inversion H. unfold set_figs. f_equal.
  rewrite insert_app_r_alt, Nat.sub_diag by lia. done.
Qed.

Lemma ax_set_title_cur (fig : figure) (i : nat) (ax : axes) t w u w' :
  figs w = F ++ [fig] → fig !! i = Some ax →
  ax_set_title (length F, i) t w = Some (u, w') →
  w' = set_figs w (F ++ [<[i := set_title ax t]> fig]).
Proof.
  intros Hf Ha. unfold ax_set_title. intros H.
  exact (update_axes_cur fig i ax _ w u w' Hf Ha H).
Qed.

Lemma df_plot_cur (fig : figure) (i : nat) (ax : axes) df kw w h w' :
  figs w = F ++ [fig] → kw_ax kw = Some (length F, i) →
  fig !! i = Some ax →
  df_plot df kw w = Some (h, w') →
  ∃ ly, ly_column ly = kw_column kw ∧
        w' = set_figs w (F ++ [<[i := add_layer ax ly]> fig]).
Proof.
  intros Hfigs Hkw Hax. unfold df_plot. rewrite Hkw.
  intros (g & w1 & [_ ->]%lift_Some & H)%bind_Some.
  apply bind_Some in H as (vals & w1 & Hv & H).
  assert (w1 = w) as ->.
  { destruct (kw_column kw).
    - apply bind_Some in Hv as (? & ? & [_ ->]%lift_Some & Hv). by inversion Hv.
    - by inversion Hv. }
  apply bind_Some in H as (h' & w1 & Hh & H). inversion Hh; subst h' w1.
  apply bind_Some in H as ([] & w1 & Hup & H).
  eapply update_axes_cur in Hup; [|done..].
  inversion H; subst. eexists. split; [|reflexivity]. done.
Qed.

End figures.

(* ===================================================================== *)
(** ** The four-panel figure: titles and columns *)
(* ===================================================================== *)

Lemma plt_subplots_Some n w hs w' :
  plt_subplots n w = Some (hs, w') →
  hs = (λ i, (length (figs w), i)) <$> seq 0 n ∧
  w' = mkWorld (disk w) (heap w) (figs w ++ [replicate n (mkAxes [] "")])
               (pred n) (files w) (stdout w).
Proof. unfold plt_subplots. intros H. by inversion H. Qed.

Lemma plt_savefig_cur (F : list figure) (fig : figure) name w u w' :
  figs w = F ++ [fig] →
  plt_savefig name w = Some (u, w') →
  files w' = <[name := fig]> (files w).
Proof.
  intros Hfigs. unfold plt_savefig, plt_gca.
  intros (h & w1 & Hg & H)%bind_Some.
  apply bind_Some in Hg as (a & w2 & [-> ->]%get_world_Some & Hg).
  rewrite Hfigs in Hg.
  destruct F as [|f0 F']; simpl in Hg.
  - inversion Hg; subst h w1; clear Hg.
    apply bind_Some in H as (a & w2 & [-> ->]%get_world_Some & H).
    rewrite Hfigs in H. simpl in H. by inversion H.
  - inversion Hg; subst h w1; clear Hg.
    apply bind_Some in H as (a & w2 & [-> ->]%get_world_Some & H).
    rewrite Hfigs in H. simpl in H.
    rewrite length_app in H. simpl in H.
    replace (length F' + 1)%nat with (S (length F')) in H by lia. simpl in H.
    rewrite lookup_app_r, Nat.sub_diag in H by lia. simpl in H. by inversion H.
Qed.

Ltac plot_step H :=
  let ly := fresh "ly" in let Hc := fresh "Hc" in
  let h := fresh "h" in let w1 := fresh "w" in
  let Hp := fresh "Hp" in let Hw := fresh "Hw" in
  apply bind_Some in H as (h & w1 & Hp & H);
  eapply df_plot_cur in Hp as (ly & Hc & Hw); [|reflexivity..];
  simpl in Hc; subst w1.

Ltac title_step H :=
  let h := fresh "h" in let w1 := fresh "w" in
  let Hp := fresh "Hp" in
  apply bind_Some in H as (h & w1 & Hp & H);
  eapply ax_set_title_cur in Hp; [|reflexivity..];
  subst w1.

(** C9 (amended).  In the four-panel figure the [set_title] calls are
    interleaved with the plot calls of other panels, yet in the saved
    figure every panel carries the title of the ratio column drawn on it:
    lapophalf_ratio with "Low Access: Half", lalowihalf_ratio with "Low
    Access + Low Income: Half", lapop10_ratio with "Low Access: 10" and
    lalowi10_ratio with "Low Access + Low Income: 10". *)
Theorem county_figure_titles_match l w w' :
  plot_food_access_by_county l w = Some ((), w') →
  ∃ fig, files w' !! "county_food_access.png" = Some fig ∧
    panel_columns <$> fig
      = [["lapophalf_ratio"]; ["lalowihalf_ratio"]; ["lapop10_ratio"]; ["lalowi10_ratio"]] ∧
    ax_title <$> fig
      = ["Low Access: Half"; "Low Access + Low Income: Half";
         "Low Access: 10"; "Low Access + Low Income: 10"] ∧
    Forall panel_matches fig.
Proof.
  unfold plot_food_access_by_county. intros H.
  apply bind_Some in H as (df & w1 & [Hdf ->]%deref_Some & H).
  apply bind_Some in H as (rd & w1 & [Hrd ->]%lift_Some & H).
  apply bind_Some in H as (hs & w1 & [-> ->]%plt_subplots_Some & H).
  simpl in H.
  plot_step H. plot_step H. title_step H.
  plot_step H. plot_step H. title_step H.
  plot_step H. plot_step H. title_step H.
  plot_step H. plot_step H. title_step H.
  eapply plt_savefig_cur in H; [|reflexivity].
  eexists. split; [rewrite H; apply lookup_insert_eq|].
  simpl. unfold panel_columns. simpl.
  rewrite Hc, Hc0, Hc1, Hc2, Hc3, Hc4, Hc5, Hc6. simpl.
  split; [done|]. split; [done|].
  repeat constructor; unfold panel_matches, panel_columns; simpl;
    rewrite ?Hc, ?Hc0, ?Hc1, ?Hc2, ?Hc3, ?Hc4, ?Hc5, ?Hc6; simpl;
    by repeat constructor.
Qed.

(* ===================================================================== *)
(** ** The left join *)
(* ===================================================================== *)

Section join.

Lemma elem_of_matches k rk j : j ∈ matches k rk ↔ rk !! j = Some k.
Proof.
  unfold matches. rewrite list_elem_of_filter, elem_of_seq. split.
  - by intros [? _].
  - intros H. split; [done|]. apply lookup_lt_Some in H. lia.
Qed.

Lemma elem_of_join_row rk i k i' oj :
  (i', oj) ∈ join_row rk i k ↔
  i' = i ∧ ((oj = None ∧ ∀ j, rk !! j ≠ Some k) ∨ (∃ j, oj = Some j ∧ rk !! j = Some k)).
Proof.
  unfold join_row. destruct (matches k rk) as [|j0 js] eqn:E.
  - rewrite list_elem_of_singleton. split.
    + intros [= -> ->]. split; [done|]. left. split; [done|].
      intros j Hj%elem_of_matches. rewrite E in Hj. by apply elem_of_nil in Hj.
    + intros [-> [[-> _]|(j & -> & Hj%elem_of_matches)]]; [done|].
      rewrite E in Hj. by apply elem_of_nil in Hj.
  - rewrite <- E, list_elem_of_fmap. split.
    + intros (j & [= -> ->] & Hj%elem_of_matches). split; [done|]. right. eauto.
    + intros [-> [[-> Hno]|(j & -> & Hj)]].
      * exfalso. apply (Hno j0). apply elem_of_matches. rewrite E. by left.
      * exists j. split; [done|]. by apply elem_of_matches.
Qed.

Lemma elem_of_join_rows lk rk i oj :
  (i, oj) ∈ join_rows lk rk ↔
  ∃ k, lk !! i = Some k ∧
       ((oj = None ∧ ∀ j, rk !! j ≠ Some k) ∨ (∃ j, oj = Some j ∧ rk !! j = Some k)).
Proof.
  unfold join_rows. rewrite list_elem_of_join. split.
  - intros (l & Hin & (i' & k & -> & Hk)%elem_of_lookup_imap).
    apply elem_of_join_row in Hin as [-> H]. eauto.
  - intros (k & Hk & H). exists (join_row rk i k). split.
    + by apply elem_of_join_row.
    + apply elem_of_lookup_imap. eauto.
Qed.

End join.

Section gather.

Context {A : Type}.

Lemma gather_lookup_Some (null : A) (l : list A) idx k i x :
  idx !! k = Some (Some i) → l !! i = Some x → gather null l idx !! k = Some x.
Proof. intros Hk Hi. unfold gather. by rewrite list_lookup_fmap, Hk; simpl; rewrite Hi. Qed.

Lemma gather_lookup_None (null : A) (l : list A) idx k :
  idx !! k = Some None → gather null l idx !! k = Some null.
Proof. intros Hk. unfold gather. by rewrite list_lookup_fmap, Hk. Qed.

Lemma gather_length (null : A) (l : list A) idx : length (gather null l idx) = length idx.
Proof. apply length_fmap. Qed.

End gather.

Lemma cell_at_gather_Some c idx k i x :
  idx !! k = Some (Some i) → cell_at c i = Some x →
  cell_at (col_gather idx c) k = Some x.
Proof.
  intros Hk. destruct c as [l|l|l|l|l]; simpl;
    destruct (l !! i) as [v|] eqn:E; simpl; intros [= <-];
    by erewrite gather_lookup_Some.
Qed.

Lemma cell_at_gather_None c idx k :
  idx !! k = Some None → cell_at (col_gather idx c) k = Some (null_cell_like c).
Proof.
  intros Hk. destruct c as [l|l|l|l|l]; simpl; by erewrite gather_lookup_None.
Qed.

Lemma col_gather_len idx c : col_len (col_gather idx c) = length idx.
Proof. destruct c; simpl; apply gather_length. Qed.

Lemma cell_at_lt c i : (i < col_len c)%nat → is_Some (cell_at c i).
Proof.
  destruct c as [l|l|l|l|l]; simpl; intros H;
    destruct (lookup_lt_is_Some_2 l i H) as [x ->]; by eexists.
Qed.

(** What a successful left merge looks like. *)
Lemma merge_left_Some l r lo ro m :
  merge_left l r lo ro = Some m →
  ∃ lkc rkc t lk rk,
    getitem l lo = Some lkc ∧ getitem r ro = Some rkc ∧
    col_keys lkc = Some (t, lk) ∧ col_keys rkc = Some (t, rk) ∧
    NoDup (merged_columns l r (join_rows lk rk)).*1 ∧
    m = mkDF (RowId <$> seq 0 (length (join_rows lk rk)))
             (list_to_map (merged_columns l r (join_rows lk rk))).
Proof.
  unfold merge_left. intros H.
  destruct (getitem l lo) as [lkc|]; [|done].
  destruct (getitem r ro) as [rkc|]; [|done]. simpl in H.
  destruct (col_keys lkc) as [[t lk]|] eqn:Hlk; [|done].
  destruct (col_keys rkc) as [[t' rk]|] eqn:Hrk; [|done]. simpl in H.
  destruct (decide (lo ≠ ro ∧ t = t')) as [[_ <-]|]; [|done].
  destruct (decide (NoDup (merged_columns l r (join_rows lk rk)).*1)); [|done].
  injection H as <-.
  by exists lkc, rkc, t, lk, rk.
Qed.

Lemma merged_left_column l r rows n c :
  NoDup (merged_columns l r rows).*1 →
  df_columns l !! n = Some c →
  (list_to_map (merged_columns l r rows) : gmap string column)
    !! left_name (df_columns r) n = Some (col_gather (Some ∘ fst <$> rows) c).
Proof.
  intros Hnd Hc. apply elem_of_list_to_map; [done|].
  unfold merged_columns. apply elem_of_app. left.
  apply list_elem_of_fmap. exists (n, c). split; [done|].
  by apply elem_of_map_to_list.
Qed.

Lemma merged_right_column l r rows n c :
  NoDup (merged_columns l r rows).*1 →
  df_columns r !! n = Some c →
  (list_to_map (merged_columns l r rows) : gmap string column)
    !! right_name (df_columns l) n = Some (col_gather (snd <$> rows) c).
Proof.
  intros Hnd Hc. apply elem_of_list_to_map; [done|].
  unfold merged_columns. apply elem_of_app. right.
  apply list_elem_of_fmap. exists (n, c). split; [done|].
  by apply elem_of_map_to_list.
Qed.

Lemma col_keys_length c t ks : col_keys c = Some (t, ks) → length ks = col_len c.
Proof.
  destruct c; simpl; intros [= <- <-]; by rewrite length_fmap.
Qed.

(** When the merge returns: both key columns are there with one dtype, the
    key names differ and the suffixes create no duplicate name. *)
Lemma merge_left_returns l r lo ro lkc rkc t lk rk :
  getitem l lo = Some lkc → getitem r ro = Some rkc →
  col_keys lkc = Some (t, lk) → col_keys rkc = Some (t, rk) →
  lo ≠ ro → NoDup (merged_columns l r (join_rows lk rk)).*1 →
  is_Some (merge_left l r lo ro).
Proof.
  intros Hl Hr Hlk Hrk Hne Hnd. unfold merge_left.
  rewrite Hl, Hr. simpl. rewrite Hlk, Hrk. simpl.
  rewrite decide_True by done. rewrite decide_True by done. by eexists.
Qed.

(** The merged table is well formed and has a fresh [RangeIndex]. *)
Lemma merge_left_well_formed l r lo ro m :
  merge_left l r lo ro = Some m → df_wf m ∧ NoDup (df_index m).
Proof.
  intros (lkc & rkc & t & lk & rk & _ & _ & _ & _ & Hnd & ->)%merge_left_Some.
  set (rows := join_rows lk rk) in *. split.
  - intros name c Hc. unfold nrows. simpl in *.
    rewrite length_fmap, length_seq.
    apply elem_of_list_to_map in Hc; [|done].
    unfold merged_columns in Hc.
    apply elem_of_app in Hc as [Hc|Hc];
      apply list_elem_of_fmap in Hc as ([n c0] & [= _ ->] & _);
      by rewrite col_gather_len, length_fmap.
  - simpl. apply NoDup_fmap_2; [by intros ? ? [=]|apply NoDup_seq].
Qed.

(** Every left row is in the join, with each right row of the same key, or
    alone when no right row has its key. *)
Lemma merge_left_rows l r lo ro m :
  df_wf l → df_wf r → merge_left l r lo ro = Some m →
  ∃ lk rk, key_cells l lo = Some lk ∧ key_cells r ro = Some rk ∧
    ∀ i, (i < nrows l)%nat →
    ∃ k, lk !! i = Some k ∧
      (∀ j, rk !! j = Some k →
         ∃ row, row_carries (df_columns m) (left_name (df_columns r)) (df_columns l) row i ∧
                row_carries (df_columns m) (right_name (df_columns l)) (df_columns r) row j) ∧
      ((∀ j, rk !! j ≠ Some k) →
         ∃ row, row_carries (df_columns m) (left_name (df_columns r)) (df_columns l) row i ∧
                row_nulls (df_columns m) (right_name (df_columns l)) (df_columns r) row).
Proof.
  intros Hwl Hwr (lkc & rkc & t & lk & rk & Hl & Hr & Hlk & Hrk & Hnd & ->)%merge_left_Some.
  exists lk, rk. unfold key_cells. rewrite Hl, Hr. simpl. rewrite Hlk, Hrk.
  split; [done|]. split; [done|]. intros i Hi.
  assert (Hlen : length lk = nrows l).
  { rewrite (col_keys_length _ _ _ Hlk). by apply (Hwl lo). }
  destruct (lookup_lt_is_Some_2 lk i) as [k Hk]; [lia|].
  exists k. split; [done|].
  set (rows := join_rows lk rk) in *. simpl.
  assert (Hcarry_l : ∀ row oj, rows !! row = Some (i, oj) →
    row_carries (list_to_map (merged_columns l r rows)) (left_name (df_columns r))
                (df_columns l) row i).
  { intros row oj Hrow n c Hc. eexists. split; [by apply merged_left_column|].
    destruct (cell_at_lt c i) as [x Hx]; [rewrite (Hwl _ _ Hc); lia|].
    rewrite Hx. eapply cell_at_gather_Some; [|done].
    by rewrite list_lookup_fmap, Hrow. }
  split.
  - intros j Hj.
    assert (Hin : (i, Some j) ∈ rows).
    { apply elem_of_join_rows. exists k. split; [done|]. right. eauto. }
    apply list_elem_of_lookup in Hin as [row Hrow].
    exists row. split; [by eapply Hcarry_l|].
    intros n c Hc. eexists. split; [by apply merged_right_column|].
    assert (Hrlen : length rk = nrows r).
    { rewrite (col_keys_length _ _ _ Hrk). by apply (Hwr ro). }
    destruct (cell_at_lt c j) as [x Hx].
    { rewrite (Hwr _ _ Hc). apply lookup_lt_Some in Hj. lia. }
    rewrite Hx. eapply cell_at_gather_Some; [|done].
    by rewrite list_lookup_fmap, Hrow.
  - intros Hno.
    assert (Hin : (i, None) ∈ rows).
    { apply elem_of_join_rows. exists k. split; [done|]. by left. }
    apply list_elem_of_lookup in Hin as [row Hrow].
    exists row. split; [by eapply Hcarry_l|].
    intros n c Hc. eexists. split; [by apply merged_right_column|].
    apply cell_at_gather_None. by rewrite list_lookup_fmap, Hrow.
Qed.

Lemma alloc_Some df w l w' :
  alloc df w = Some (l, w') →
  heap w' = <[l := df]> (heap w) ∧ heap w !! l = None ∧ disk w' = disk w.
Proof.
  unfold alloc. intros H. inversion H; subst. simpl. repeat split.
  apply not_elem_of_dom, is_fresh.
Qed.

Lemma read_file_Some p w df w' :
  read_file p w = Some (df, w') ↔ disk w !! p = Some df ∧ w' = w.
Proof.
  unfold read_file. rewrite bind_Some. split.
  - intros (a & w1 & [-> ->]%get_world_Some & H%lift_Some). done.
  - intros [H ->]. exists w, w. split; [done|]. by apply lift_Some.
Qed.

(** C5.  The loader's table contains every geometry row (left outer
    join on the tract identifier): for each tabular row with the same key
    there is an output row carrying the geometry cells and the tabular
    cells, and a geometry row without a match is kept in an output row
    whose tabular cells are null. *)
Theorem load_keeps_every_geometry_row w shp csv shp_name csv_name l w' :
  disk w !! shp_name = Some shp → disk w !! csv_name = Some csv →
  df_wf shp → df_wf csv →
  load_in_data shp_name csv_name w = Some (l, w') →
  ∃ merged lk rk,
    heap w' !! l = Some merged ∧
    key_cells shp "CTIDFP00" = Some lk ∧ key_cells csv "CensusTract" = Some rk ∧
    ∀ i, (i < nrows shp)%nat →
    ∃ k, lk !! i = Some k ∧
      (∀ j, rk !! j = Some k →
         ∃ row,
           row_carries (df_columns merged) (left_name (df_columns csv)) (df_columns shp) row i ∧
           row_carries (df_columns merged) (right_name (df_columns shp)) (df_columns csv) row j) ∧
      ((∀ j, rk !! j ≠ Some k) →
         ∃ row,
           row_carries (df_columns merged) (left_name (df_columns csv)) (df_columns shp) row i ∧
           row_nulls (df_columns merged) (right_name (df_columns shp)) (df_columns csv) row).
Proof.
  intros Hshp Hcsv Hwl Hwr. unfold load_in_data. intros H.
  apply bind_Some in H as (shp' & w1 & [E1 ->]%read_file_Some & H).
  apply bind_Some in H as (csv' & w1 & [E2 ->]%read_file_Some & H).
  assert (shp' = shp) as -> by congruence.
  assert (csv' = csv) as -> by congruence.
  apply bind_Some in H as (merged & w1 & [Hm ->]%lift_Some & H).
  apply alloc_Some in H as (Hheap & _ & _).
  destruct (merge_left_rows _ _ _ _ _ Hwl Hwr Hm) as (lk & rk & Hlk & Hrk & Hrows).
  exists merged, lk, rk. split; [|done].
  rewrite Hheap. apply lookup_insert_eq.
Qed.

Section counts.

Lemma notnull_gather_keys c t ks idx :
  col_keys c = Some (t, ks) →
  notnull (col_gather idx c) = (λ oi, bool_decide (is_Some (key_at ks oi))) <$> idx.
Proof.
  destruct c as [l|l|l|l|l]; simpl; intros [= <- <-]; unfold gather;
    rewrite <- list_fmap_compose; apply list_fmap_ext; intros _ [i|] _; simpl;
    rewrite ?list_lookup_fmap; try done;
    by destruct (l !! i) as [[?|]|].
Qed.

Lemma count_filter_mono {A} (g1 g2 : A → bool) (l : list A) :
  (∀ x, x ∈ l → g1 x = true → g2 x = true) →
  (length (filter (λ b, b = true) (g1 <$> l))
   ≤ length (filter (λ b, b = true) (g2 <$> l)))%nat.
Proof.
  induction l as [|x l IH]; intros H; [done|]. rewrite !fmap_cons.
  assert (IH' := IH (λ y Hy, H y (list_elem_of_further _ _ _ Hy))).
  pose proof (H x (list_elem_of_here _ _)) as Hx.
  rewrite !filter_cons.
  destruct (g1 x) eqn:E1.
  - rewrite (Hx eq_refl). rewrite !decide_True by done.
    rewrite !length_cons. lia.
  - rewrite (decide_False (P := false = true)) by done.
    destruct (decide (g2 x = true)); rewrite ?length_cons; lia.
Qed.

Lemma count_le_len c : (count c ≤ col_len c)%nat.
Proof. unfold count. rewrite <- notnull_length. apply length_filter. Qed.

(** In a left join, a row with a tabular key has a geometry key. *)
Lemma merged_counts lkc rkc t lk rk :
  col_keys lkc = Some (t, lk) → col_keys rkc = Some (t, rk) →
  let rows := join_rows lk rk in
  (count (col_gather (snd <$> rows) rkc)
   ≤ count (col_gather (Some ∘ fst <$> rows) lkc))%nat.
Proof.
  intros Hlk Hrk rows. unfold count.
  rewrite (notnull_gather_keys _ _ _ _ Hlk), (notnull_gather_keys _ _ _ _ Hrk).
  rewrite <- !list_fmap_compose. apply count_filter_mono.
  intros [i oj] Hin. simpl.
  apply elem_of_join_rows in Hin as (k & Hk & Hcase). rewrite Hk. simpl.
  destruct Hcase as [[-> _]|(j & -> & Hj)]; simpl; [done|].
  by rewrite Hj.
Qed.

End counts.

(** C4 (amended).  The match rate is 100 times the count of non-null
    CensusTract cells divided by the count of non-null CTIDFP00 cells, in
    float64.  On a table produced by the left join (fewer than 2^53 rows)
    the first count is at most the second; the value lies in [0, 100] as
    soon as one geometry key is non-null, and is NaN when none is. *)
Theorem match_rate_in_range shp csv merged :
  merge_left shp csv "CTIDFP00" "CensusTract" = Some merged →
  df_columns csv !! "CTIDFP00" = None → df_columns shp !! "CensusTract" = None →
  Z.of_nat (nrows merged) < 2 ^ 53 →
  ∃ census ctid,
    getitem merged "CensusTract" = Some census ∧
    getitem merged "CTIDFP00" = Some ctid ∧
    let p := F64.mul (F64.div (F64.of_Z (Z.of_nat (count census)))
                              (F64.of_Z (Z.of_nat (count ctid))))
                     F64.lit_100 in
    percentage_food_data merged = Some p ∧
    (count census ≤ count ctid)%nat ∧
    ((0 < count ctid)%nat → F64.le F64.pzero p = true ∧ F64.le p F64.lit_100 = true) ∧
    (count ctid = 0%nat → p = F64.nan).
Proof.
  intros (lkc & rkc & t & lk & rk & Hl & Hr & Hlk & Hrk & Hnd & ->)%merge_left_Some
         Hno1 Hno2 Hrows.
  set (rows := join_rows lk rk) in *.
  exists (col_gather (snd <$> rows) rkc), (col_gather (Some ∘ fst <$> rows) lkc).
  assert (Hc1 : getitem (mkDF (RowId <$> seq 0 (length rows))
                          (list_to_map (merged_columns shp csv rows))) "CensusTract"
                = Some (col_gather (snd <$> rows) rkc)).
  { unfold getitem. simpl.
    rewrite <- (merged_right_column shp csv rows "CensusTract" rkc Hnd Hr).
    unfold right_name. by rewrite Hno2, decide_False by (by intros [? ?]). }
  assert (Hc2 : getitem (mkDF (RowId <$> seq 0 (length rows))
                          (list_to_map (merged_columns shp csv rows))) "CTIDFP00"
                = Some (col_gather (Some ∘ fst <$> rows) lkc)).
  { unfold getitem. simpl.
    rewrite <- (merged_left_column shp csv rows "CTIDFP00" lkc Hnd Hl).
    unfold left_name. by rewrite Hno1, decide_False by (by intros [? ?]). }
  split; [done|]. split; [done|].
  pose proof (merged_counts lkc rkc t lk rk Hlk Hrk) as Hle. fold rows in Hle.
  simpl in Hle.
  pose proof (count_le_len (col_gather (Some ∘ fst <$> rows) lkc)) as Hlen.
  rewrite col_gather_len, length_fmap in Hlen.
  unfold nrows in Hrows. simpl in Hrows. rewrite length_fmap, length_seq in Hrows.
  cbv zeta. split; [|split; [done|split]].
  - unfold percentage_food_data. by rewrite Hc1, Hc2.
  - intros Hpos. apply match_rate_range; lia.
  - intros H0. rewrite H0 in *.
    assert (count (col_gather (snd <$> rows) rkc) = 0%nat) as -> by lia.
    reflexivity.
Qed.

(* ===================================================================== *)
(** ** Dissolve by county *)
(* ===================================================================== *)

Lemma take_mask_cons {A} (b : bool) (mask : list bool) (x : A) (l : list A) :
  take_mask (b :: mask) (x :: l) = if b then x :: take_mask mask l else take_mask mask l.
Proof. reflexivity. Qed.

Section groups.

Lemma elem_of_group_keys by_ k : k ∈ group_keys by_ ↔ Some k ∈ by_.
Proof.
  unfold group_keys. rewrite merge_sort_Permutation, elem_of_remove_dups.
  rewrite list_elem_of_omap. split.
  - intros (x & Hx & E). simpl in E. by subst x.
  - intros H. by exists (Some k).
Qed.

Lemma NoDup_group_keys by_ : NoDup (group_keys by_).
Proof.
  unfold group_keys. rewrite merge_sort_Permutation. apply NoDup_remove_dups.
Qed.

Lemma sum_cells_cons v l : sum_cells (v :: l) = cell_value v + sum_cells l.
Proof. by destruct v. Qed.

Lemma sum_Z_cons x l : sum_Z (x :: l) = x + sum_Z l.
Proof. reflexivity. Qed.

Lemma sum_Z_plus {A} (f g : A → Z) (l : list A) :
  sum_Z ((λ k, f k + g k) <$> l) = sum_Z (f <$> l) + sum_Z (g <$> l).
Proof.
  induction l as [|x l IH]; [done|].
  rewrite !fmap_cons, !sum_Z_cons, IH. lia.
Qed.

Lemma sum_Z_zero {A} (f : A → Z) (l : list A) :
  (∀ x, x ∈ l → f x = 0) → sum_Z (f <$> l) = 0.
Proof.
  induction l as [|x l IH]; intros H; [done|].
  rewrite fmap_cons, sum_Z_cons, (H x), IH; [done| |]; [intros y Hy; apply H|];
    by constructor.
Qed.

(** Over distinct keys, exactly one group takes a row. *)
Lemma sum_indicator (b : option string) (v : Z) (ks : list string) :
  NoDup ks → (∀ k, b = Some k → k ∈ ks) →
  sum_Z ((λ k, if bool_decide (b = Some k) then v else 0) <$> ks)
  = if bool_decide (is_Some b) then v else 0.
Proof.
  intros Hnd Hin. destruct b as [k0|].
  - rewrite bool_decide_eq_true_2 by (by eexists).
    specialize (Hin k0 eq_refl).
    induction Hnd as [|k ks Hk Hnd IH]; [by apply elem_of_nil in Hin|].
    rewrite fmap_cons, sum_Z_cons. apply elem_of_cons in Hin as [->|Hin].
    + rewrite bool_decide_eq_true_2 by done.
      rewrite sum_Z_zero; [lia|].
      intros x Hx. rewrite bool_decide_eq_false_2; [done|]. intros [= <-]. done.
    + rewrite bool_decide_eq_false_2; [by rewrite IH|]. intros [= <-]. done.
  - rewrite bool_decide_eq_false_2 by (by intros [? ?]).
    apply sum_Z_zero. intros x _. by rewrite bool_decide_eq_false_2.
Qed.

(** Summing the group sums gives the sum over the rows that have a group. *)
Lemma group_sums_total (by_ : list (option string)) (P : list (option Z)) ks :
  NoDup ks → (∀ k, Some k ∈ by_ → k ∈ ks) →
  sum_Z (group_sum by_ P <$> ks)
  = sum_cells (take_mask ((λ v, bool_decide (is_Some v)) <$> by_) P).
Proof.
  intros Hnd. revert P. induction by_ as [|b by_ IH]; intros P Hin.
  - simpl. apply sum_Z_zero. done.
  - destruct P as [|p P].
    { rewrite take_mask_nil_r. apply sum_Z_zero. intros k _.
      unfold group_sum. by rewrite take_mask_nil_r. }
    assert (Hrec : sum_Z (group_sum by_ P <$> ks)
                   = sum_cells (take_mask ((λ v, bool_decide (is_Some v)) <$> by_) P)).
    { apply IH. intros k Hk. apply Hin. by constructor. }
    assert (Hsplit : ∀ k, group_sum (b :: by_) (p :: P) k
       = (if bool_decide (b = Some k) then cell_value p else 0) + group_sum by_ P k).
    { intros k. unfold group_sum, group_mask. rewrite fmap_cons, take_mask_cons.
      destruct (bool_decide (b = Some k)); [by rewrite sum_cells_cons | lia]. }
    rewrite (list_fmap_ext _ _ _ (λ _ k _, Hsplit k)).
    rewrite (sum_Z_plus (λ k, if bool_decide (b = Some k) then cell_value p else 0)
                        (group_sum by_ P)).
    rewrite sum_indicator, Hrec; [| done | intros k ->; apply Hin; by constructor].
    rewrite fmap_cons, take_mask_cons.
    destruct (bool_decide (is_Some b)); [by rewrite sum_cells_cons | lia].
Qed.

Lemma sum_cells_known_groups (by_ : list (option string)) (P : list (option Z)) :
  (∀ i p, P !! i = Some (Some p) → ∃ c, by_ !! i = Some (Some c)) →
  sum_cells (take_mask ((λ v, bool_decide (is_Some v)) <$> by_) P) = sum_cells P.
Proof.
  revert by_. induction P as [|p P IH]; intros by_ H.
  { by rewrite take_mask_nil_r. }
  destruct by_ as [|b by_].
  - destruct p as [z|]; [destruct (H 0%nat z eq_refl) as [? [=]]|].
    simpl. rewrite <- (IH []); [done|].
    intros i q Hq. destruct (H (S i) q Hq) as [? [=]].
  - rewrite fmap_cons, take_mask_cons.
    assert (IH' := IH by_ (λ i q Hq, H (S i) q Hq)).
    destruct b as [c|].
    + rewrite bool_decide_eq_true_2 by (by eexists).
      rewrite !sum_cells_cons. by rewrite IH'.
    + rewrite bool_decide_eq_false_2 by (by intros [? ?]).
      destruct p as [z|]; [destruct (H 0%nat z eq_refl) as [? [=]]|].
      rewrite sum_cells_cons, IH'. done.
Qed.

Lemma sum_cells_Some {A} (f : A → Z) (l : list A) :
  sum_cells ((λ k, Some (f k)) <$> l) = sum_Z (f <$> l).
Proof.
  induction l as [|x l IH]; [done|].
  by rewrite !fmap_cons, sum_cells_cons, sum_Z_cons, IH.
Qed.

End groups.

Section dissolve.

Variable df : DataFrame.
Variable by_ : list (option string).
Hypothesis Hby : getitem df "County" = Some (ObjCol by_).

Lemma dissolve_sum_County :
  dissolve_sum df "County"
  = Some (mkDF (Key <$> group_keys by_)
               (map_imap (agg_column by_ (group_keys by_))
                         (delete "County" (df_columns df)))).
Proof. unfold dissolve_sum. by rewrite Hby. Qed.

Lemma dissolve_num name l :
  name ≠ "County" → get_num df name = Some l →
  ∀ county, dissolve_sum df "County" = Some county →
    get_num county name = Some ((λ k, Some (group_sum by_ l k)) <$> group_keys by_).
Proof.
  intros Hne Hl%get_num_getitem county. rewrite dissolve_sum_County.
  intros [= <-]. unfold get_num, getitem. simpl.
  rewrite map_lookup_imap, lookup_delete_ne by done.
  unfold getitem in Hl. by rewrite Hl.
Qed.

End dissolve.

Lemma select_cols_lookup cols names sel :
  select_cols cols names = Some sel →
  ∀ n, sel !! n = if decide (n ∈ names) then cols !! n else None.
Proof.
  revert sel. induction names as [|m names IH]; intros sel H n; simpl in H.
  - injection H as <-. rewrite lookup_empty. by rewrite decide_False by apply not_elem_of_nil.
  - destruct (cols !! m) as [c|] eqn:Hc; [|done]. simpl in H.
    destruct (select_cols cols names) as [rest|]; [|done]. injection H as <-.
    specialize (IH rest eq_refl n).
    destruct (decide (m = n)) as [->|Hne].
    + rewrite lookup_insert_eq, decide_True by (by left). done.
    + rewrite lookup_insert_ne, IH by done.
      destruct (decide (n ∈ names)).
      * by rewrite decide_True by (by right).
      * rewrite decide_False; [done|]. intros [->|?]%elem_of_cons; done.
Qed.

Lemma select_getitem df names sel n :
  select df names = Some sel → n ∈ names → getitem sel n = getitem df n.
Proof.
  unfold select. intros H Hn.
  destruct (select_cols (df_columns df) names) as [cols|] eqn:E; [|done].
  injection H as <-. unfold getitem. simpl.
  rewrite (select_cols_lookup _ _ _ E). by rewrite decide_True.
Qed.

Lemma select_get_num df names sel n :
  select df names = Some sel → n ∈ names → get_num sel n = get_num df n.
Proof. intros H Hn. unfold get_num. by rewrite (select_getitem _ _ _ _ H Hn). Qed.

Section magnitudes.

Lemma abs_total_cons v l : abs_total (v :: l) = Z.abs (cell_value v) + abs_total l.
Proof. reflexivity. Qed.

Lemma abs_total_nonneg l : 0 ≤ abs_total l.
Proof.
  induction l as [|v l IH]; [done|]. rewrite abs_total_cons. lia.
Qed.

Lemma sum_cells_abs l : Z.abs (sum_cells l) ≤ abs_total l.
Proof.
  induction l as [|v l IH]; [done|].
  rewrite sum_cells_cons, abs_total_cons. lia.
Qed.

Lemma abs_total_take_mask mask l : abs_total (take_mask mask l) ≤ abs_total l.
Proof.
  revert l. induction mask as [|m mask IH]; intros [|v l]; try done.
  - simpl. apply abs_total_nonneg.
  - rewrite take_mask_cons. specialize (IH l).
    destruct m; rewrite ?abs_total_cons; lia.
Qed.

Lemma sum_Z_le {A} (f g : A → Z) (l : list A) :
  (∀ x, f x ≤ g x) → sum_Z (f <$> l) ≤ sum_Z (g <$> l).
Proof.
  intros H. induction l as [|x l IH]; [done|].
  rewrite !fmap_cons, !sum_Z_cons. specialize (H x). lia.
Qed.

(** The magnitudes of the group sums add up to at most the magnitudes of
    the cells. *)
Lemma group_sums_abs (by_ : list (option string)) (P : list (option Z)) ks :
  NoDup ks → (∀ k, Some k ∈ by_ → k ∈ ks) →
  abs_total ((λ k, Some (group_sum by_ P k)) <$> ks) ≤ abs_total P.
Proof.
  intros Hnd Hin.
  set (A := (λ v, Some (Z.abs (cell_value v))) <$> P).
  assert (HA : ∀ mask, sum_cells (take_mask mask A) = abs_total (take_mask mask P)).
  { intros mask. subst A. rewrite take_mask_fmap, sum_cells_Some. done. }
  unfold abs_total at 1. rewrite <- list_fmap_compose.
  etrans; [apply (sum_Z_le _ (group_sum by_ A))|].
  { intros k. simpl. unfold group_sum at 2. rewrite HA. apply sum_cells_abs. }
  rewrite (group_sums_total by_ A ks Hnd Hin), HA.
  apply abs_total_take_mask.
Qed.

End magnitudes.

(** The county sums of a column add up to the column's sum over the rows
    that have a county, and stay within its magnitude. *)
Lemma dissolve_total_bounded df by_ name l :
  name ≠ "County" →
  getitem df "County" = Some (ObjCol by_) → get_num df name = Some l →
  (∀ i p, l !! i = Some (Some p) → ∃ c, by_ !! i = Some (Some c)) →
  ∃ county cl,
    dissolve_sum df "County" = Some county ∧
    get_num county name = Some cl ∧ sum_cells cl = sum_cells l ∧
    abs_total cl ≤ abs_total l.
Proof.
  intros Hne Hby Hl Hknown.
  eexists _, _. split; [by apply dissolve_sum_County|].
  split; [eapply dissolve_num; eauto using dissolve_sum_County|].
  split.
  - rewrite sum_cells_Some, group_sums_total.
    + by apply sum_cells_known_groups.
    + apply NoDup_group_keys.
    + intros k. apply elem_of_group_keys.
  - apply group_sums_abs; [apply NoDup_group_keys|].
    intros k. apply elem_of_group_keys.
Qed.

(** C7 (amended).  When every tract with a non-null population has a
    county name and the magnitudes of the populations add up to less than
    2^53, so that the sums of pandas are exact, the county populations of
    [dissolve] add up to the sum of the tract populations over the tracts
    with a non-null population, and their magnitudes stay below 2^53;
    this holds for the whole table (line 59) and for the selected columns
    (lines 72-75).  A tract without a county name belongs to no group. *)
Theorem county_population_total df by_ P :
  getitem df "County" = Some (ObjCol by_) → get_num df "POP2010" = Some P →
  (∀ i p, P !! i = Some (Some p) → ∃ c, by_ !! i = Some (Some c)) →
  abs_total P < 2 ^ 53 →
  (∃ county CP,
     dissolve_sum df "County" = Some county ∧
     get_num county "POP2010" = Some CP ∧ sum_cells CP = sum_cells P ∧
     abs_total CP < 2 ^ 53) ∧
  (∀ sel,
     select df ["County"; "geometry"; "POP2010"; "lapophalf"; "lapop10";
                "lalowihalf"; "lalowi10"] = Some sel →
     ∃ ratio_data CP,
       dissolve_sum sel "County" = Some ratio_data ∧
       get_num ratio_data "POP2010" = Some CP ∧ sum_cells CP = sum_cells P ∧
       abs_total CP < 2 ^ 53).
Proof.
  intros Hby HP Hknown Hmag. split.
  - destruct (dissolve_total_bounded df by_ "POP2010" P) as (c & cl & ? & ? & ? & ?);
      try done.
    exists c, cl. repeat split; try done. lia.
  - intros sel Hsel.
    destruct (dissolve_total_bounded sel by_ "POP2010" P) as (c & cl & ? & ? & ? & ?);
      try done.
    + rewrite (select_getitem _ _ _ _ Hsel); [done|]. by repeat constructor.
    + rewrite (select_get_num _ _ _ _ Hsel); [done|]. by repeat constructor.
    + exists c, cl. repeat split; try done. lia.
Qed.

Lemma select_Some df names :
  Forall (λ n, is_Some (getitem df n)) names → is_Some (select df names).
Proof.
  unfold select, getitem. intros H.
  assert (is_Some (select_cols (df_columns df) names)) as [cols ->]; [|by eexists].
  induction H as [|n names [c Hc] _ [rest IH]]; simpl; [by eexists|].
  rewrite Hc, IH. by eexists.
Qed.

Lemma add_ratio_Some rd name cname N Pc :
  get_num rd cname = Some N → get_num rd "POP2010" = Some Pc →
  length N = nrows rd → length Pc = nrows rd →
  add_ratio rd name cname
  = Some (mkDF (df_index rd) (<[name := FltCol (truediv N Pc)]> (df_columns rd))).
Proof.
  intros HN HPc LN LP. unfold add_ratio, setitem. rewrite HN, HPc. simpl.
  unfold truediv. rewrite length_zip_with, LN, LP, Nat.min_id.
  by rewrite decide_True.
Qed.

Lemma get_num_insert_ne idx cols name c n :
  name ≠ n → get_num (mkDF idx (<[name := c]> cols)) n = get_num (mkDF idx cols) n.
Proof. intros Hne. unfold get_num, getitem. simpl. by rewrite lookup_insert_ne. Qed.

Lemma flt_at_insert_ne idx cols name c n i :
  name ≠ n → flt_at (mkDF idx (<[name := c]> cols)) n i = flt_at (mkDF idx cols) n i.
Proof. intros Hne. unfold flt_at, getitem. simpl. by rewrite lookup_insert_ne. Qed.

Lemma flt_at_insert_eq idx cols name l i :
  flt_at (mkDF idx (<[name := FltCol l]> cols)) name i = l !! i.
Proof. unfold flt_at, getitem. simpl. by rewrite lookup_insert_eq. Qed.

Lemma truediv_lookup a b i x y :
  a !! i = Some x → b !! i = Some y →
  truediv a b !! i = Some (F64.div (F64.of_cell x) (F64.of_cell y)).
Proof. intros Ha Hb. unfold truediv. by rewrite lookup_zip_with, Ha, Hb. Qed.

Section ratios.

Variable df : DataFrame.
Variable by_ : list (option string).
Variables P H T LH LT : list (option Z).
Hypothesis Hby : getitem df "County" = Some (ObjCol by_).
Hypothesis Hgeo : is_Some (getitem df "geometry").
Hypothesis HP : get_num df "POP2010" = Some P.
Hypothesis HH : get_num df "lapophalf" = Some H.
Hypothesis HT : get_num df "lapop10" = Some T.
Hypothesis HLH : get_num df "lalowihalf" = Some LH.
Hypothesis HLT : get_num df "lalowi10" = Some LT.

(** The county table of [plot_food_access_by_county]: one row per county,
    each ratio the summed count divided by the summed population. *)
Lemma county_ratio_data_rows :
  ∃ rd,
    county_ratio_data df = Some rd ∧
    df_index rd = Key <$> group_keys by_ ∧
    ∀ i k, group_keys by_ !! i = Some k →
      let ratio l := Some (F64.div (F64.of_Z (group_sum by_ l k))
                                   (F64.of_Z (group_sum by_ P k))) in
      flt_at rd "lapophalf_ratio" i = ratio H ∧
      flt_at rd "lapop10_ratio" i = ratio T ∧
      flt_at rd "lalowihalf_ratio" i = ratio LH ∧
      flt_at rd "lalowi10_ratio" i = ratio LT.
Proof.
  set (names := ["County"; "geometry"; "POP2010"; "lapophalf"; "lapop10";
                 "lalowihalf"; "lalowi10"]).
  destruct (select_Some df names) as [sel Hsel].
  { pose proof (get_num_getitem _ _ _ HP). pose proof (get_num_getitem _ _ _ HH).
    pose proof (get_num_getitem _ _ _ HT). pose proof (get_num_getitem _ _ _ HLH).
    pose proof (get_num_getitem _ _ _ HLT).
    subst names. repeat constructor; by eauto. }
  assert (Hsby : getitem sel "County" = Some (ObjCol by_)).
  { rewrite (select_getitem _ _ _ _ Hsel); [done|subst names; by repeat constructor]. }
  assert (Hnum : ∀ n l, n ∈ names → get_num df n = Some l → get_num sel n = Some l).
  { intros n l Hn Hl. by rewrite (select_get_num _ _ _ _ Hsel). }
  set (keys := group_keys by_).
  set (sums := λ l : list (option Z), (λ k, Some (group_sum by_ l k)) <$> keys).
  pose proof (dissolve_sum_County sel by_ Hsby) as Hdis.
  match type of Hdis with _ = Some ?r => set (rd0 := r) in * end.
  assert (Hrd0 : ∀ n l, n ∈ names → n ≠ "County" → get_num df n = Some l →
                        get_num rd0 n = Some (sums l)).
  { intros n l Hn Hne Hl. eapply dissolve_num; eauto. }
  assert (Hlen : ∀ l, length (sums l) = nrows rd0).
  { intros l. unfold sums, nrows. simpl. by rewrite !length_fmap. }
  set (c1 := FltCol (truediv (sums H) (sums P))).
  set (c2 := FltCol (truediv (sums T) (sums P))).
  set (c3 := FltCol (truediv (sums LH) (sums P))).
  set (c4 := FltCol (truediv (sums LT) (sums P))).
  set (rd1 := mkDF (df_index rd0) (<["lapophalf_ratio" := c1]> (df_columns rd0))).
  set (rd2 := mkDF (df_index rd0) (<["lapop10_ratio" := c2]> (df_columns rd1))).
  set (rd3 := mkDF (df_index rd0) (<["lalowihalf_ratio" := c3]> (df_columns rd2))).
  set (rd4 := mkDF (df_index rd0) (<["lalowi10_ratio" := c4]> (df_columns rd3))).
  assert (H0 : ∀ n l, n ∈ names → n ≠ "County" → n ≠ "lapophalf_ratio" →
     n ≠ "lapop10_ratio" → n ≠ "lalowihalf_ratio" → get_num df n = Some l →
     get_num rd1 n = Some (sums l) ∧ get_num rd2 n = Some (sums l) ∧
     get_num rd3 n = Some (sums l)).
  { intros n l Hn Hne ? ? ? Hl. pose proof (Hrd0 n l Hn Hne Hl) as E.
    subst rd1 rd2 rd3. unfold get_num, getitem in *. simpl.
    rewrite !lookup_insert_ne by done. repeat split; exact E. }
  assert (Hin : ∀ n, n ∈ ["POP2010"; "lapophalf"; "lapop10"; "lalowihalf"; "lalowi10"]
                     → n ∈ names).
  { intros n Hn. subst names. do 2 right. exact Hn. }
  exists rd4. split; [|split].
  - unfold county_ratio_data. fold names. rewrite Hsel. simpl. rewrite Hdis. simpl.
    destruct (H0 "POP2010" P) as (P1 & P2 & P3); try done;
      [apply Hin; by repeat constructor|].
    destruct (H0 "lapop10" T) as (T1 & _ & _); try done;
      [apply Hin; by repeat constructor|].
    destruct (H0 "lalowihalf" LH) as (_ & LH2 & _); try done;
      [apply Hin; by repeat constructor|].
    destruct (H0 "lalowi10" LT) as (_ & _ & LT3); try done;
      [apply Hin; by repeat constructor|].
    rewrite (add_ratio_Some rd0 _ _ (sums H) (sums P)); try done;
      [|apply Hrd0; [apply Hin; by repeat constructor|done|done]
       |apply Hrd0; [apply Hin; by repeat constructor|done|done]].
    simpl. fold c1 rd1.
    rewrite (add_ratio_Some rd1 _ _ (sums T) (sums P)); try done.
    simpl. fold c2. change (mkDF (df_index rd0) _) with rd2.
    rewrite (add_ratio_Some rd2 _ _ (sums LH) (sums P)); try done.
    simpl. fold c3. change (mkDF (df_index rd0) _) with rd3.
    rewrite (add_ratio_Some rd3 _ _ (sums LT) (sums P)); try done.
  - done.
  - intros i k Hk. cbv zeta.
    assert (Hs : ∀ l, sums l !! i = Some (Some (group_sum by_ l k))).
    { intros l. unfold sums. by rewrite list_lookup_fmap, Hk. }
    subst rd4 rd3 rd2 rd1 c1 c2 c3 c4. unfold flt_at, getitem. simpl.
    repeat split.
    + rewrite !lookup_insert_ne by done. rewrite lookup_insert_eq.
      by rewrite (truediv_lookup _ _ _ _ _ (Hs H) (Hs P)).
    + rewrite !lookup_insert_ne by done. rewrite lookup_insert_eq.
      by rewrite (truediv_lookup _ _ _ _ _ (Hs T) (Hs P)).
    + rewrite !lookup_insert_ne by done. rewrite lookup_insert_eq.
      by rewrite (truediv_lookup _ _ _ _ _ (Hs LH) (Hs P)).
    + rewrite lookup_insert_eq.
      by rewrite (truediv_lookup _ _ _ _ _ (Hs LT) (Hs P)).
Qed.

End ratios.

(* ===================================================================== *)
(** ** The sample tables evaluated *)
(* ===================================================================== *)

Lemma sample_load :
  load_in_data shp_path csv_path sample_world = Some (0%nat, sample_loaded).
Proof. vm_compute. reflexivity. Qed.

Lemma sample_shp_wf : df_wf sample_shp.
Proof. apply (bool_decide_unpack _). vm_compute. exact I. Qed.

Lemma sample_csv_wf : df_wf sample_csv.
Proof. apply (bool_decide_unpack _). vm_compute. exact I. Qed.

Lemma sample_merged_wf : df_wf sample_merged.
Proof. apply (bool_decide_unpack _). vm_compute. exact I. Qed.

Lemma sample_merged_schema : classifier_schema sample_merged.
Proof. apply (bool_decide_unpack _). vm_compute. exact I. Qed.

Lemma sample_classify : classify sample_merged = Some sample_classified.
Proof. vm_compute. reflexivity. Qed.

(** The whole program runs on the sample inputs. *)
Lemma sample_main : is_Some (main sample_world).
Proof. vm_compute. by eexists. Qed.

(* ===================================================================== *)
(** ** Rows without a usable population *)
(* ===================================================================== *)

Section numeric_cells.

Lemma series_cell_lt s i : (i < series_len s)%nat → is_Some (series_cell s i).
Proof.
  destruct s as [l|l]; simpl; intros Hi;
    destruct (lookup_lt_is_Some_2 l i Hi) as [x ->]; by eexists.
Qed.

Lemma series_cell_Some s i c : series_cell s i = Some c → (i < series_len s)%nat.
Proof.
  destruct s as [l|l]; simpl; destruct (l !! i) eqn:E; try done;
    intros _; by apply lookup_lt_Some in E.
Qed.

Lemma series_eq_lookup s k i c :
  series_cell s i = Some c → series_eq s k !! i = Some (cell_eq c k).
Proof.
  destruct s as [l|l]; simpl; destruct (l !! i) as [v|] eqn:E; try done;
    intros [= <-]; unfold eq_scalar; by rewrite list_lookup_fmap, E.
Qed.

Lemma series_ge_lookup s k i c :
  series_cell s i = Some c → series_ge s k !! i = Some (cell_ge c k).
Proof.
  destruct s as [l|l]; simpl; destruct (l !! i) as [v|] eqn:E; try done;
    intros [= <-]; unfold ge_scalar, ge_float; rewrite list_lookup_fmap, E;
    [by destruct v|done].
Qed.

Lemma series_floats_lookup s i c :
  series_cell s i = Some c → series_floats s !! i = Some (cell_float c).
Proof.
  destruct s as [l|l]; simpl; destruct (l !! i) as [v|] eqn:E; try done;
    intros [= <-]; [by rewrite list_lookup_fmap, E|done].
Qed.

Lemma series_div_lookup a b i x y :
  series_cell a i = Some x → series_cell b i = Some y →
  series_div a b !! i = Some (F64.div (cell_float x) (cell_float y)).
Proof.
  intros Ha Hb. unfold series_div.
  by rewrite lookup_zip_with, (series_floats_lookup _ _ _ Ha),
    (series_floats_lookup _ _ _ Hb).
Qed.

Lemma series_ratio_lookup a b i x y :
  series_cell a i = Some x → series_cell b i = Some y →
  ge_float (series_div a b) F64.lit_0_33 !! i = Some (cell_ratio_ge x y).
Proof.
  intros Ha Hb. unfold ge_float.
  by rewrite list_lookup_fmap, (series_div_lookup _ _ _ _ _ Ha Hb).
Qed.

End numeric_cells.

Section numeric_classifier.

Variable df : DataFrame.
Hypothesis Hwf : df_wf df.
Hypothesis Hschema : numeric_schema df.

Lemma numeric_columns :
  ∃ U R H T P,
    get_series df "Urban" = Some U ∧ get_series df "Rural" = Some R ∧
    get_series df "lapophalf" = Some H ∧ get_series df "lapop10" = Some T ∧
    get_series df "POP2010" = Some P ∧
    series_len U = nrows df ∧ series_len R = nrows df ∧ series_len H = nrows df ∧
    series_len T = nrows df ∧ series_len P = nrows df.
Proof.
  unfold numeric_schema in Hschema.
  repeat (apply Forall_cons in Hschema as [[? ?] Hschema]).
  do 5 eexists. repeat split; eauto using get_series_length.
Qed.

(** What [classify] returns on numeric columns of either dtype: in each
    row the disjunction of the two masks. *)
Lemma classify_cells :
  ∃ df',
    classify df = Some df' ∧
    ∀ i, (i < nrows df)%nat →
      ∃ row, num_row_of df i = Some row ∧
             flag_at df' i = Some (Some (cell_urban_bit row || cell_rural_bit row)).
Proof.
  destruct numeric_columns as (U & R & H & T & P & HU & HR & HH & HT & HP
                               & LU & LR & LH & LT & LP).
  set (u := band (series_eq U 1)
                 (bor (series_ge H 500) (ge_float (series_div H P) F64.lit_0_33))).
  set (r := band (series_eq R 1)
                 (bor (series_ge T 500) (ge_float (series_div T P) F64.lit_0_33))).
  assert (Hlen : length (bor u r) = nrows df).
  { subst u r. rewrite bor_length, !band_length, !bor_length.
    unfold ge_float. rewrite !length_fmap, !series_eq_length, !series_ge_length,
      !series_div_length. lia. }
  exists (mkDF (df_index df)
               (<["low_access" := BoolCol (Some <$> bor u r)]> (df_columns df))).
  split.
  - unfold classify, urban_area, rural_area. rewrite HU, HR, HH, HT, HP. simpl.
    fold u r. unfold setitem. simpl. rewrite length_fmap, Hlen.
    by rewrite decide_True.
  - intros i Hi.
    destruct (series_cell_lt U i) as [xu Hxu]; [lia|].
    destruct (series_cell_lt R i) as [xr Hxr]; [lia|].
    destruct (series_cell_lt H i) as [xh Hxh]; [lia|].
    destruct (series_cell_lt T i) as [xt Hxt]; [lia|].
    destruct (series_cell_lt P i) as [xp Hxp]; [lia|].
    exists (mkNumRow xu xr xh xt xp). split.
    + unfold num_row_of, num_cell_at. rewrite HU, HR, HH, HT, HP. simpl.
      by rewrite Hxu, Hxr, Hxh, Hxt, Hxp.
    + unfold flag_at, getitem. simpl. rewrite lookup_insert_eq.
      rewrite list_lookup_fmap.
      erewrite bor_lookup; [reflexivity| |].
      * subst u. eapply band_lookup; [by apply series_eq_lookup|].
        eapply bor_lookup; [by apply series_ge_lookup | by apply series_ratio_lookup].
      * subst r. eapply band_lookup; [by apply series_eq_lookup|].
        eapply bor_lookup; [by apply series_ge_lookup | by apply series_ratio_lookup].
Qed.

Lemma num_row_of_lt i row : num_row_of df i = Some row → (i < nrows df)%nat.
Proof.
  destruct numeric_columns as (U & ? & ? & ? & ? & HU & _ & _ & _ & _ & LU & _).
  unfold num_row_of, num_cell_at. rewrite HU. simpl.
  destruct (series_cell U i) eqn:E; [|done]. intros _.
  apply series_cell_Some in E. lia.
Qed.

End numeric_classifier.

Section cell_ratio.

Lemma cell_null_float p : cell_null p = true → cell_float p = F64.nan.
Proof.
  destruct p as [[v|]|x|[v|]|[v|]|[v|]]; simpl; try done.
  by destruct x.
Qed.

Lemma cell_zero_float p : cell_zero p = true → cell_float p = F64.pzero.
Proof.
  destruct p as [[[|z|z]|]|x|v|v|v]; simpl; try done.
  by destruct x as [[|]|[|]| |].
Qed.

(** Division by a null population: the ratio clause is false. *)
Lemma cell_ratio_null x p : cell_null p = true → cell_ratio_ge x p = false.
Proof.
  intros Hp. unfold cell_ratio_ge. rewrite (cell_null_float _ Hp).
  unfold F64.div, F64.nan. by destruct (cell_float x).
Qed.

(** Division by a zero population: with the count clause, the ratio
    clause holds exactly for a positive count. *)
Lemma cell_ratio_zero x p k :
  0 < k → cell_zero p = true →
  cell_ge x k || cell_ratio_ge x p = cell_pos x.
Proof.
  intros Hk Hp. unfold cell_ratio_ge. rewrite (cell_zero_float _ Hp).
  destruct x as [[z|]|x|v|v|v]; simpl; try done.
  - destruct z as [|q|q].
    + rewrite of_Z_0. simpl. rewrite orb_false_r. apply Z.leb_gt. lia.
    + pose proof (of_Z_pos q) as Hq.
      destruct (F64.of_Z (Zpos q)) as [s|s| |s m e]; try done; subst s;
        by rewrite orb_true_r.
    + pose proof (of_Z_neg q) as Hq.
      destruct (F64.of_Z (Zneg q)) as [s|s| |s m e]; try done; subst s;
        simpl; rewrite orb_false_r; apply Z.leb_gt; lia.
  - destruct k as [|q|q]; try lia. pose proof (of_Z_pos q) as Hq.
    unfold F64.ge at 1.
    destruct (F64.of_Z (Zpos q)) as [s|s| |s m e]; try done; subst s;
      destruct x as [[|]|[|]| |[|] m' e']; simpl; try done;
      by rewrite ?orb_true_r.
Qed.

End cell_ratio.

(** C2 (amended).  A row with a null population fails both ratio clauses
    and is low access only through the count clauses (lapophalf >= 500 for
    an urban tract, lapop10 >= 500 for a rural one).  A row with a zero
    population passes the ratio clause exactly when its count is positive
    (x / 0 is +inf), so it is low access exactly when it is urban with
    lapophalf > 0 or rural with lapop10 > 0.  The columns may hold
    integers or floats. *)
Theorem low_access_without_population (df : DataFrame) :
  df_wf df → numeric_schema df →
  ∃ df', classify df = Some df' ∧
    ∀ i row, num_row_of df i = Some row →
      ∃ b, flag_at df' i = Some (Some b) ∧
        (cell_null (n_pop row) = true →
           (b = true ↔
              (cell_eq (n_urban row) 1 = true ∧ cell_ge (n_lapophalf row) 500 = true)
              ∨ (cell_eq (n_rural row) 1 = true ∧ cell_ge (n_lapop10 row) 500 = true))) ∧
        (cell_zero (n_pop row) = true →
           (b = true ↔
              (cell_eq (n_urban row) 1 = true ∧ cell_pos (n_lapophalf row) = true)
              ∨ (cell_eq (n_rural row) 1 = true ∧ cell_pos (n_lapop10 row) = true))).
Proof.
  intros Hwf Hs.
  destruct (classify_cells df Hwf Hs) as (df' & Hc & Hrows).
  exists df'. split; [done|]. intros i row Hrow.
  destruct (Hrows i (num_row_of_lt df Hwf Hs i row Hrow)) as (row' & Hrow' & Hflag).
  assert (row' = row) as -> by congruence.
  exists (cell_urban_bit row || cell_rural_bit row). split; [done|].
  unfold cell_urban_bit, cell_rural_bit. split; intros Hp.
  - rewrite !(cell_ratio_null _ _ Hp), !orb_false_r.
    by rewrite orb_true_iff, !andb_true_iff.
  - rewrite !(cell_ratio_zero _ _ 500 ltac:(lia) Hp).
    by rewrite orb_true_iff, !andb_true_iff.
Qed.

(* ===================================================================== *)
(** ** Rendering calls and county ratios *)
(* ===================================================================== *)

(** C8 (amended).  The first four rendering calls leave every table
    object and the input files unchanged.  [plot_low_access_tracts] assigns
    the column [low_access] on the table it is given, which the caller
    shares, and changes nothing else of it: same rows, same other
    columns. *)
Theorem render_frame (r : render) (l : nat) (w w' : world) :
  run_render r l w = Some ((), w') →
  disk w' = disk w ∧
  (r ≠ LowAccessMap → heap w' = heap w) ∧
  (r = LowAccessMap →
     ∃ df df', heap w !! l = Some df ∧ classify df = Some df' ∧
       heap w' = <[l := df']> (heap w) ∧
       df_index df' = df_index df ∧
       ∀ name, name ≠ "low_access" → df_columns df' !! name = df_columns df !! name).
Proof.
  destruct r; simpl; intros H.
  - destruct (read_only_plot_map l _ _ _ H) as [? ?]. split; [done|]. split; done.
  - destruct (read_only_plot_population_map l _ _ _ H) as [? ?]. split; [done|]. split; done.
  - destruct (read_only_plot_population_county_map l _ _ _ H) as [? ?].
    split; [done|]. split; done.
  - destruct (read_only_plot_food_access_by_county l _ _ _ H) as [? ?].
    split; [done|]. split; done.
  - destruct (plot_low_access_tracts_heap _ _ _ _ H) as (df & df' & Hdf & Hcl & Hh & Hd).
    split; [done|]. split; [done|]. intros _.
    destruct (classify_frame _ _ Hcl) as (Hidx & _ & Hcols).
    by exists df, df'.
Qed.

(* ===================================================================== *)
(** ** The theorems at the sample tables *)
(* ===================================================================== *)

Ltac by_compute := apply (bool_decide_unpack _); vm_compute; exact I.

(** The rule on the sample table. *)
Lemma low_access_iff_rule_witness :
  df_wf sample_merged ∧ classifier_schema sample_merged ∧
  ∃ df', classify sample_merged = Some df' ∧
    ∀ i, (i < nrows sample_merged)%nat →
      ∃ row b, row_of sample_merged i = Some row ∧ flag_at df' i = Some (Some b) ∧
               (b = true ↔ low_access_rule row).
Proof.
  assert (Hwf : df_wf sample_merged) by by_compute.
  assert (Hs : classifier_schema sample_merged) by by_compute.
  split; [exact Hwf|]. split; [exact Hs|].
  exact (low_access_iff_rule sample_merged Hwf Hs).
Defined.

(** The sample table has rows without a flag set (the unmatched tract). *)
Lemma no_flag_no_low_access_witness :
  df_wf sample_merged ∧ classifier_schema sample_merged ∧
  ∃ df', classify sample_merged = Some df' ∧
    ∀ i row, row_of sample_merged i = Some row →
      r_urban row ≠ Some 1 → r_rural row ≠ Some 1 →
      flag_at df' i = Some (Some false).
Proof.
  assert (Hwf : df_wf sample_merged) by by_compute.
  assert (Hs : classifier_schema sample_merged) by by_compute.
  split; [exact Hwf|]. split; [exact Hs|].
  exact (no_flag_no_low_access sample_merged Hwf Hs).
Defined.

(** The fifth sample tract: urban, population 0, 100 people beyond half a
    mile.  Both counts are below 500 and the tract is flagged.  So is an
    urban tract of population 0 whose count is the float 0.5. *)
Lemma zero_population_ratio_clause_fires :
  (∃ df',
     classify sample_merged = Some df' ∧
     row_of sample_merged 4 = Some (mkRow (Some 1) (Some 0) (Some 100) (Some 0) (Some 0)) ∧
     flag_at df' 4 = Some (Some true) ∧
     ¬ count_ge (Some 100) 500 ∧ ¬ count_ge (Some 0) 500) ∧
  (∃ df' row,
     classify half_person_table = Some df' ∧
     num_row_of half_person_table 0 = Some row ∧
     n_pop row = CNum (Some 0) ∧
     n_lapophalf row = CFlt (S754_finite false 4503599627370496 (-53)) ∧
     flag_at df' 0 = Some (Some true) ∧
     cell_ge (n_lapophalf row) 500 = false ∧ cell_ge (n_lapophalf row) 1 = false ∧
     cell_ge (n_lapop10 row) 500 = false).
Proof.
  split.
  - exists sample_classified. split; [vm_compute; reflexivity|].
    split; [vm_compute; reflexivity|]. split; [vm_compute; reflexivity|].
    split; intros (z & [= <-] & Hz); lia.
  - eexists _, _. split; [vm_compute; reflexivity|].
    split; [vm_compute; reflexivity|].
    repeat split; vm_compute; reflexivity.
Qed.

(** Null and zero populations on the sample table. *)
Lemma low_access_without_population_witness :
  df_wf sample_merged ∧ numeric_schema sample_merged ∧
  ∃ df', classify sample_merged = Some df' ∧
    ∀ i row, num_row_of sample_merged i = Some row →
      ∃ b, flag_at df' i = Some (Some b) ∧
        (cell_null (n_pop row) = true →
           (b = true ↔
              (cell_eq (n_urban row) 1 = true ∧ cell_ge (n_lapophalf row) 500 = true)
              ∨ (cell_eq (n_rural row) 1 = true ∧ cell_ge (n_lapop10 row) 500 = true))) ∧
        (cell_zero (n_pop row) = true →
           (b = true ↔
              (cell_eq (n_urban row) 1 = true ∧ cell_pos (n_lapophalf row) = true)
              ∨ (cell_eq (n_rural row) 1 = true ∧ cell_pos (n_lapop10 row) = true))).
Proof.
  assert (Hwf : df_wf sample_merged) by by_compute.
  assert (Hs : numeric_schema sample_merged) by by_compute.
  split; [exact Hwf|]. split; [exact Hs|].
  exact (low_access_without_population sample_merged Hwf Hs).
Defined.


(** A geometry input without rows: both counts are 0, the rate is NaN,
    and NaN is neither above 0 nor below 100. *)
Lemma match_rate_empty_table_nan :
  ∃ merged,
    merge_left empty_shp sample_csv "CTIDFP00" "CensusTract" = Some merged ∧
    percentage_food_data merged = Some F64.nan ∧
    F64.le F64.pzero F64.nan = false ∧ F64.le F64.nan F64.lit_100 = false.
Proof.
  eexists. split; [vm_compute; reflexivity|].
  split; [vm_compute; reflexivity|]. split; reflexivity.
Qed.

(** The match rate of the sample join, five tracts out of six. *)
Lemma match_rate_in_range_witness :
  merge_left sample_shp sample_csv "CTIDFP00" "CensusTract" = Some sample_merged ∧
  ∃ census ctid,
    getitem sample_merged "CensusTract" = Some census ∧
    getitem sample_merged "CTIDFP00" = Some ctid ∧
    let p := F64.mul (F64.div (F64.of_Z (Z.of_nat (count census)))
                              (F64.of_Z (Z.of_nat (count ctid))))
                     F64.lit_100 in
    percentage_food_data sample_merged = Some p ∧
    (count census ≤ count ctid)%nat ∧
    ((0 < count ctid)%nat → F64.le F64.pzero p = true ∧ F64.le p F64.lit_100 = true) ∧
    (count ctid = 0%nat → p = F64.nan).
Proof.
  assert (Hm : merge_left sample_shp sample_csv "CTIDFP00" "CensusTract"
               = Some sample_merged) by (vm_compute; reflexivity).
  split; [exact Hm|].
  apply (match_rate_in_range sample_shp sample_csv sample_merged Hm).
  - vm_compute; reflexivity.
  - vm_compute; reflexivity.
  - vm_compute; reflexivity.
Defined.

(** The loader on the sample files. *)
Lemma load_keeps_every_geometry_row_witness :
  load_in_data shp_path csv_path sample_world = Some (0%nat, sample_loaded) ∧
  ∃ merged lk rk,
    heap sample_loaded !! 0%nat = Some merged ∧
    key_cells sample_shp "CTIDFP00" = Some lk ∧
    key_cells sample_csv "CensusTract" = Some rk ∧
    ∀ i, (i < nrows sample_shp)%nat →
    ∃ k, lk !! i = Some k ∧
      (∀ j, rk !! j = Some k →
         ∃ row,
           row_carries (df_columns merged) (left_name (df_columns sample_csv))
                       (df_columns sample_shp) row i ∧
           row_carries (df_columns merged) (right_name (df_columns sample_shp))
                       (df_columns sample_csv) row j) ∧
      ((∀ j, rk !! j ≠ Some k) →
         ∃ row,
           row_carries (df_columns merged) (left_name (df_columns sample_csv))
                       (df_columns sample_shp) row i ∧
           row_nulls (df_columns merged) (right_name (df_columns sample_shp))
                     (df_columns sample_csv) row).
Proof.
  assert (Hl : load_in_data shp_path csv_path sample_world = Some (0%nat, sample_loaded))
    by (vm_compute; reflexivity).
  split; [exact Hl|].
  apply (load_keeps_every_geometry_row sample_world sample_shp sample_csv
           shp_path csv_path 0%nat sample_loaded).
  - vm_compute; reflexivity.
  - vm_compute; reflexivity.
  - by_compute.
  - by_compute.
  - exact Hl.
Defined.


(** A tract with population 5 and no county name, a tract with population
    7 in King: the counties hold 7, the tracts 12. *)
Lemma county_total_drops_tract_without_county :
  ∃ merged county CP P,
    merge_left no_county_shp no_county_csv "CTIDFP00" "CensusTract" = Some merged ∧
    get_num merged "POP2010" = Some P ∧
    dissolve_sum merged "County" = Some county ∧
    get_num county "POP2010" = Some CP ∧
    sum_cells CP = 7 ∧ sum_cells P = 12.
Proof.
  eexists _, _, _, _.
  split; [vm_compute; reflexivity|].
  split; [vm_compute; reflexivity|].
  split; [vm_compute; reflexivity|].
  split; [vm_compute; reflexivity|].
  split; vm_compute; reflexivity.
Qed.

(** County totals of the sample table. *)
Lemma county_population_total_witness :
  let by_ := [Some "King"; Some "King"; Some "Adams"; Some "Adams"; Some "Ferry"; None] in
  let P := [Some 1000; Some 3000; Some 2000; None; Some 0; None] in
  getitem sample_merged "County" = Some (ObjCol by_) ∧
  get_num sample_merged "POP2010" = Some P ∧
  (∀ i p, P !! i = Some (Some p) → ∃ c, by_ !! i = Some (Some c)) ∧
  abs_total P < 2 ^ 53 ∧
  ∃ county CP,
    dissolve_sum sample_merged "County" = Some county ∧
    get_num county "POP2010" = Some CP ∧ sum_cells CP = sum_cells P ∧
    abs_total CP < 2 ^ 53.
Proof.
  intros by_ P.
  assert (H1 : getitem sample_merged "County" = Some (ObjCol by_))
    by (vm_compute; reflexivity).
  assert (H2 : get_num sample_merged "POP2010" = Some P) by (vm_compute; reflexivity).
  assert (H3 : ∀ i p, P !! i = Some (Some p) → ∃ c, by_ !! i = Some (Some c)).
  { intros i p. subst by_ P.
    do 6 (destruct i as [|i]; [simpl; intros [=]; eauto|]). simpl. intros [=]. }
  assert (H4 : abs_total P < 2 ^ 53) by (vm_compute; reflexivity).
  split; [exact H1|]. split; [exact H2|]. split; [exact H3|]. split; [exact H4|].
  exact (proj1 (county_population_total sample_merged by_ P H1 H2 H3 H4)).
Defined.

(** The caller's table before and after [plot_low_access_tracts]: the
    column [low_access] is new. *)
Lemma plot_low_access_tracts_adds_column :
  ∃ w' df',
    heap sample_loaded !! 0%nat = Some sample_merged ∧
    getitem sample_merged "low_access" = None ∧
    plot_low_access_tracts 0%nat sample_loaded = Some ((), w') ∧
    heap w' !! 0%nat = Some df' ∧
    is_Some (getitem df' "low_access").
Proof.
  destruct (plot_low_access_tracts 0%nat sample_loaded) as [[[] w']|] eqn:E;
    [|vm_compute in E; discriminate].
  exists w', sample_classified.
  split; [vm_compute; reflexivity|]. split; [vm_compute; reflexivity|].
  split; [reflexivity|].
  assert ((r ← plot_low_access_tracts 0%nat sample_loaded; heap r.2 !! 0%nat)
          = Some sample_classified) as Hh by (vm_compute; reflexivity).
  rewrite E in Hh. simpl in Hh. split; [exact Hh|]. by_compute.
Qed.

(** The outline map on the loaded sample world. *)
Lemma render_frame_witness :
  ∃ w',
    run_render Outline 0%nat sample_loaded = Some ((), w') ∧
    disk w' = disk sample_loaded ∧
    (Outline ≠ LowAccessMap → heap w' = heap sample_loaded).
Proof.
  destruct (run_render Outline 0%nat sample_loaded) as [[[] w']|] eqn:E;
    [|vm_compute in E; discriminate].
  exists w'. split; [reflexivity|].
  destruct (render_frame Outline 0%nat sample_loaded w' E) as (Hd & Hh & _).
  split; [exact Hd | exact Hh].
Defined.

(** The figure saved for the sample table has four panels and none is
    mismatched. *)
Lemma county_figure_has_no_mismatch :
  ∃ fig,
    sample_grid_figure = Some fig ∧ length fig = 4%nat ∧ ¬ Exists panel_mismatch fig.
Proof.
  destruct sample_grid_figure as [fig|] eqn:E; [|vm_compute in E; discriminate].
  exists fig. split; [reflexivity|].
  assert ((fig ← sample_grid_figure;
           Some (bool_decide (length fig = 4%nat ∧ ¬ Exists panel_mismatch fig)))
          = Some true) as Hb by (vm_compute; reflexivity).
  rewrite E in Hb. simpl in Hb. injection Hb as Hb.
  by apply bool_decide_eq_true in Hb.
Qed.

(** The four panels of the sample figure. *)
Lemma county_figure_titles_match_witness :
  ∃ w' fig,
    plot_food_access_by_county 0%nat sample_loaded = Some ((), w') ∧
    files w' !! "county_food_access.png" = Some fig ∧
    panel_columns <$> fig
      = [["lapophalf_ratio"]; ["lalowihalf_ratio"]; ["lapop10_ratio"]; ["lalowi10_ratio"]] ∧
    ax_title <$> fig
      = ["Low Access: Half"; "Low Access + Low Income: Half";
         "Low Access: 10"; "Low Access + Low Income: 10"] ∧
    Forall panel_matches fig.
Proof.
  destruct (plot_food_access_by_county 0%nat sample_loaded) as [[[] w']|] eqn:E;
    [|vm_compute in E; discriminate].
  destruct (county_figure_titles_match 0%nat sample_loaded w' E) as (fig & Hfig).
  exists w', fig. split; [reflexivity | exact Hfig].
Defined.

(* ===================================================================== *)
(** ** Forward execution of the plotting calls *)
(* ===================================================================== *)

Section forward.

Context {A B : Type}.

Lemma bind_eq (m : M A) (f : A → M B) w a w1 :
  m w = Some (a, w1) → (m ≫= f) w = f a w1.
Proof. intros H. unfold mbind, M_bind. by rewrite H. Qed.

Lemma lift_eq (o : option A) a w : o = Some a → lift o w = Some (a, w).
Proof. by intros ->. Qed.

End forward.

Lemma deref_eq l w df : heap w !! l = Some df → deref l w = Some (df, w).
Proof. intros H. apply deref_Some. done. Qed.

Section drawing.

Variable F : list figure.

Lemma update_axes_eq (fig : figure) (i : nat) (ax : axes) (f : axes → axes) w :
  figs w = F ++ [fig] → fig !! i = Some ax →
  update_axes (length F, i) f w
  = Some ((), set_figs w (F ++ [<[i := f ax]> fig])).
Proof.
  intros Hfigs Hax. unfold update_axes. simpl.
  rewrite (bind_eq get_world _ w w w eq_refl).
  rewrite Hfigs, lookup_app_r, Nat.sub_diag by lia. simpl.
  unfold mbind at 1, M_bind at 1. simpl. rewrite Hax. simpl.
  unfold mbind, M_bind. simpl. unfold set_figs. do 3 f_equal.
  f_equal. rewrite insert_app_r_alt, Nat.sub_diag by lia. done.
Qed.

Lemma df_plot_eq (fig : figure) (i : nat) (ax : axes) df kw ly w :
  plot_data df kw = Some ly → kw_ax kw = Some (length F, i) →
  figs w = F ++ [fig] → fig !! i = Some ax →
  df_plot df kw w
  = Some ((length F, i), set_figs w (F ++ [<[i := add_layer ax ly]> fig])).
Proof.
  intros Hd Hkw Hfigs Hax. unfold plot_data in Hd. unfold df_plot.
  destruct (get_geometry df) as [g|]; [|done]. simpl in Hd.
  rewrite (bind_eq _ _ w g w eq_refl). rewrite Hkw.
  destruct (kw_column kw) as [c|].
  - destruct (getitem df c) as [v|]; [|done]. simpl in Hd. injection Hd as <-.
    unfold mbind at 1, M_bind at 1. simpl.
    unfold mbind at 1, M_bind at 1. simpl.
    rewrite (bind_eq _ _ _ _ _ (update_axes_eq fig i ax _ w Hfigs Hax)). done.
  - simpl in Hd. injection Hd as <-.
    unfold mbind at 1, M_bind at 1. simpl.
    unfold mbind at 1, M_bind at 1. simpl.
    rewrite (bind_eq _ _ _ _ _ (update_axes_eq fig i ax _ w Hfigs Hax)). done.
Qed.

Lemma ax_set_title_eq (fig : figure) (i : nat) (ax : axes) t w :
  figs w = F ++ [fig] → fig !! i = Some ax →
  ax_set_title (length F, i) t w
  = Some ((), set_figs w (F ++ [<[i := set_title ax t]> fig])).
Proof. intros Hf Ha. unfold ax_set_title. by rewrite (update_axes_eq fig i ax _ w Hf Ha). Qed.

Lemma plt_gca_eq (fig : figure) w :
  figs w = F ++ [fig] → plt_gca w = Some ((length F, gca w), w).
Proof.
  intros Hfigs. unfold plt_gca. rewrite (bind_eq get_world _ w w w eq_refl).
  rewrite Hfigs. destruct F as [|f0 F']; simpl; [done|].
  rewrite length_app. simpl. unfold mret, M_ret. do 3 f_equal. lia.
Qed.

Lemma plt_title_eq (fig : figure) (ax : axes) t w :
  figs w = F ++ [fig] → fig !! gca w = Some ax →
  plt_title t w
  = Some ((), set_figs w (F ++ [<[gca w := set_title ax t]> fig])).
Proof.
  intros Hf Ha. unfold plt_title.
  rewrite (bind_eq _ _ _ _ _ (plt_gca_eq fig w Hf)).
  by apply ax_set_title_eq.
Qed.

Lemma plt_savefig_eq (fig : figure) name w :
  figs w = F ++ [fig] →
  plt_savefig name w
  = Some ((), drawn w (figs w) (gca w) (<[name := fig]> (files w))).
Proof.
  intros Hf. unfold plt_savefig.
  rewrite (bind_eq _ _ _ _ _ (plt_gca_eq fig w Hf)).
  rewrite (bind_eq get_world _ w w w eq_refl). simpl.
  rewrite Hf at 1. rewrite lookup_app_r, Nat.sub_diag by lia. simpl.
  unfold mbind, M_bind. simpl. done.
Qed.

End drawing.

(** A plot call without [ax] opens a figure of one axes. *)
Lemma df_plot_new_eq df kw ly w :
  plot_data df kw = Some ly → kw_ax kw = None →
  df_plot df kw w
  = Some ((length (figs w), 0%nat),
          drawn w (figs w ++ [[mkAxes [ly] ""]]) 0 (files w)).
Proof.
  intros Hd Hkw. unfold plot_data in Hd. unfold df_plot.
  destruct (get_geometry df) as [g|]; [|done]. simpl in Hd.
  rewrite (bind_eq _ _ w g w eq_refl). rewrite Hkw.
  assert (∃ vals, match kw_column kw with
                  | Some c => v ← lift (getitem df c); mret (Some v)
                  | None => mret None
                  end w = Some (vals, w) ∧
          ly = mkLayer g (kw_column kw) vals (kw_color kw) (kw_legend kw)
                       (kw_vmin kw) (kw_vmax kw)) as (vals & Hv & ->).
  { destruct (kw_column kw) as [c|].
    - destruct (getitem df c) as [v|]; [|done]. simpl in Hd. injection Hd as <-.
      by exists (Some v).
    - simpl in Hd. injection Hd as <-. by exists None. }
  rewrite (bind_eq _ _ _ _ _ Hv).
  unfold mbind at 1, M_bind at 1. simpl.
  unfold mbind at 1, M_bind at 1.
  erewrite (update_axes_eq (figs w) [mkAxes [] ""] 0 (mkAxes [] ""));
    [|reflexivity|reflexivity].
  reflexivity.
Qed.

Lemma plot_data_plain df g color ax :
  get_geometry df = Some g →
  plot_data df (mkKw None color false ax None None) = Some (plain_layer g color).
Proof. intros Hg. unfold plot_data. by rewrite Hg. Qed.

Lemma plot_data_column df g name vals lg ax vmin vmax :
  get_geometry df = Some g → getitem df name = Some vals →
  plot_data df (mkKw (Some name) None lg ax vmin vmax)
  = Some (mkLayer g (Some name) (Some vals) None lg vmin vmax).
Proof. intros Hg Hv. unfold plot_data. simpl. by rewrite Hg, Hv. Qed.

Lemma plt_subplots_eq n w :
  plt_subplots n w
  = Some ((λ i, (length (figs w), i)) <$> seq 0 n,
          drawn w (figs w ++ [replicate n (mkAxes [] "")]) (pred n) (files w)).
Proof. reflexivity. Qed.

Ltac run tac := etrans; [eapply bind_eq; tac | cbv beta].

Ltac run_plot F :=
  run ltac:(eapply (df_plot_eq F);
            [ first [ eapply plot_data_plain; eassumption
                    | eapply plot_data_column; eassumption ]
            | reflexivity | reflexivity | reflexivity ]).

(** [plot_map] (lines 29-36). *)
Lemma plot_map_eq l w df g :
  heap w !! l = Some df → get_geometry df = Some g →
  let fig := outline_figure g in
  plot_map l w
  = Some ((), drawn w (figs w ++ [fig]) 0 (<["map.png" := fig]> (files w))).
Proof.
  intros Hdf Hg fig. unfold plot_map.
  run ltac:(apply deref_eq; exact Hdf).
  run ltac:(eapply df_plot_new_eq; [eapply plot_data_plain; exact Hg | reflexivity]).
  run ltac:(eapply (plt_title_eq (figs w)); reflexivity).
  erewrite (plt_savefig_eq (figs w)); reflexivity.
Qed.

(** [plot_population_map] (lines 39-49). *)
Lemma plot_population_map_eq l w df g pop :
  heap w !! l = Some df → get_geometry df = Some g →
  getitem df "POP2010" = Some pop →
  let fig := population_figure g pop in
  plot_population_map l w
  = Some ((), drawn w (figs w ++ [fig]) 0
                    (<["population_map.png" := fig]> (files w))).
Proof.
  intros Hdf Hg Hpop fig. unfold plot_population_map.
  run ltac:(apply plt_subplots_eq).
  run ltac:(apply lift_eq; reflexivity).
  run ltac:(apply deref_eq; exact Hdf).
  run_plot (figs w). run_plot (figs w).
  run ltac:(eapply (plt_title_eq (figs w)); reflexivity).
  erewrite (plt_savefig_eq (figs w)); reflexivity.
Qed.

Lemma get_geometry_getitem df g :
  get_geometry df = Some g ↔ getitem df "geometry" = Some (GeomCol g).
Proof.
  unfold get_geometry. destruct (getitem df "geometry") as [[]|]; split; congruence.
Qed.

Lemma dissolve_geometry df by_ g county :
  getitem df "County" = Some (ObjCol by_) → get_geometry df = Some g →
  dissolve_sum df "County" = Some county →
  get_geometry county = Some (county_geometry by_ g).
Proof.
  intros Hby Hg%get_geometry_getitem. rewrite (dissolve_sum_County df by_ Hby).
  intros [= <-]. apply get_geometry_getitem. unfold getitem in *. simpl.
  rewrite map_lookup_imap, lookup_delete_ne by done. rewrite Hg. reflexivity.
Qed.

(** [plot_population_county_map] (lines 52-64). *)
Lemma plot_population_county_map_eq l w df by_ P g :
  heap w !! l = Some df →
  getitem df "County" = Some (ObjCol by_) → get_num df "POP2010" = Some P →
  get_geometry df = Some g →
  let fig := county_figure by_ g P in
  plot_population_county_map l w
  = Some ((), drawn w (figs w ++ [fig]) 0
                    (<["county_population_map.png" := fig]> (files w))).
Proof.
  intros Hdf Hby HP Hg fig. unfold plot_population_county_map.
  pose proof (dissolve_sum_County df by_ Hby) as Hdis.
  match type of Hdis with _ = Some ?c => set (county := c) in * end.
  assert (Hcg : get_geometry county = Some (county_geometry by_ g))
    by (by eapply dissolve_geometry).
  assert (Hcp : getitem county "POP2010" = Some (NumCol (county_sums by_ P))).
  { apply get_num_getitem. by eapply dissolve_num. }
  assert (Hsel : is_Some (select df ["POP2010"; "County"; "geometry"])).
  { apply select_Some. apply get_num_getitem in HP.
    apply get_geometry_getitem in Hg. repeat constructor; by eexists. }
  destruct Hsel as [sel Hsel].
  run ltac:(apply deref_eq; exact Hdf).
  run ltac:(apply lift_eq; exact Hsel).
  run ltac:(apply lift_eq; exact Hdis).
  run ltac:(apply plt_subplots_eq).
  run ltac:(apply lift_eq; reflexivity).
  run_plot (figs w). run_plot (figs w).
  run ltac:(eapply (plt_title_eq (figs w)); reflexivity).
  erewrite (plt_savefig_eq (figs w)); reflexivity.
Qed.

Section ratio_table.

Variable df : DataFrame.
Variable by_ : list (option string).
Variables P H T LH LT : list (option Z).
Variable g : list (option geom).
Hypothesis Hby : getitem df "County" = Some (ObjCol by_).
Hypothesis Hg : get_geometry df = Some g.
Hypothesis HP : get_num df "POP2010" = Some P.
Hypothesis HH : get_num df "lapophalf" = Some H.
Hypothesis HT : get_num df "lapop10" = Some T.
Hypothesis HLH : get_num df "lalowihalf" = Some LH.
Hypothesis HLT : get_num df "lalowi10" = Some LT.

(** The county table with its geometry and its four ratio columns. *)
Lemma county_ratio_data_columns :
  ∃ rd,
    county_ratio_data df = Some rd ∧
    get_geometry rd = Some (county_geometry by_ g) ∧
    getitem rd "lapophalf_ratio" = Some (county_ratio by_ H P) ∧
    getitem rd "lapop10_ratio" = Some (county_ratio by_ T P) ∧
    getitem rd "lalowihalf_ratio" = Some (county_ratio by_ LH P) ∧
    getitem rd "lalowi10_ratio" = Some (county_ratio by_ LT P).
Proof.
  set (names := ["County"; "geometry"; "POP2010"; "lapophalf"; "lapop10";
                 "lalowihalf"; "lalowi10"]).
  pose proof (proj1 (get_geometry_getitem _ _) Hg) as Hgc.
  destruct (select_Some df names) as [sel Hsel].
  { pose proof (get_num_getitem _ _ _ HP). pose proof (get_num_getitem _ _ _ HH).
    pose proof (get_num_getitem _ _ _ HT). pose proof (get_num_getitem _ _ _ HLH).
    pose proof (get_num_getitem _ _ _ HLT).
    subst names. repeat constructor; by eexists. }
  assert (Hsby : getitem sel "County" = Some (ObjCol by_)).
  { rewrite (select_getitem _ _ _ _ Hsel); [done|subst names; by repeat constructor]. }
  assert (Hsg : get_geometry sel = Some g).
  { apply get_geometry_getitem.
    rewrite (select_getitem _ _ _ _ Hsel); [done|subst names; by repeat constructor]. }
  assert (Hin : ∀ n, n ∈ ["POP2010"; "lapophalf"; "lapop10"; "lalowihalf"; "lalowi10"]
                     → n ∈ names).
  { intros n Hn. subst names. do 2 right. exact Hn. }
  pose proof (dissolve_sum_County sel by_ Hsby) as Hdis.
  match type of Hdis with _ = Some ?r => set (rd0 := r) in * end.
  assert (Hrd0 : ∀ n l, n ∈ names → n ≠ "County" → get_num df n = Some l →
                        get_num rd0 n = Some (county_sums by_ l)).
  { intros n l Hn Hne Hl. eapply dissolve_num; eauto.
    by rewrite (select_get_num _ _ _ _ Hsel). }
  assert (Hg0 : get_geometry rd0 = Some (county_geometry by_ g))
    by (by eapply dissolve_geometry).
  assert (Hlen : ∀ l, length (county_sums by_ l) = nrows rd0).
  { intros l. unfold county_sums, nrows. simpl. by rewrite !length_fmap. }
  set (c1 := county_ratio by_ H P). set (c2 := county_ratio by_ T P).
  set (c3 := county_ratio by_ LH P). set (c4 := county_ratio by_ LT P).
  set (rd1 := mkDF (df_index rd0) (<["lapophalf_ratio" := c1]> (df_columns rd0))).
  set (rd2 := mkDF (df_index rd0) (<["lapop10_ratio" := c2]> (df_columns rd1))).
  set (rd3 := mkDF (df_index rd0) (<["lalowihalf_ratio" := c3]> (df_columns rd2))).
  set (rd4 := mkDF (df_index rd0) (<["lalowi10_ratio" := c4]> (df_columns rd3))).
  assert (H0 : ∀ n l, n ∈ names → n ≠ "County" → n ≠ "lapophalf_ratio" →
     n ≠ "lapop10_ratio" → n ≠ "lalowihalf_ratio" → get_num df n = Some l →
     get_num rd1 n = Some (county_sums by_ l) ∧
     get_num rd2 n = Some (county_sums by_ l) ∧
     get_num rd3 n = Some (county_sums by_ l)).
  { intros n l Hn Hne ? ? ? Hl. pose proof (Hrd0 n l Hn Hne Hl) as E.
    subst rd1 rd2 rd3. unfold get_num, getitem in *. simpl.
    rewrite !lookup_insert_ne by done. repeat split; exact E. }
  exists rd4. split; [|split].
  - unfold county_ratio_data. fold names. rewrite Hsel. simpl. rewrite Hdis. simpl.
    destruct (H0 "POP2010" P) as (P1 & P2 & P3); try done;
      [apply Hin; by repeat constructor|].
    destruct (H0 "lapop10" T) as (T1 & _ & _); try done;
      [apply Hin; by repeat constructor|].
    destruct (H0 "lalowihalf" LH) as (_ & LH2 & _); try done;
      [apply Hin; by repeat constructor|].
    destruct (H0 "lalowi10" LT) as (_ & _ & LT3); try done;
      [apply Hin; by repeat constructor|].
    rewrite (add_ratio_Some rd0 _ _ (county_sums by_ H) (county_sums by_ P)); try done;
      [|apply Hrd0; [apply Hin; by repeat constructor|done|done]
       |apply Hrd0; [apply Hin; by repeat constructor|done|done]].
    simpl. fold (county_ratio by_ H P). fold c1 rd1.
    rewrite (add_ratio_Some rd1 _ _ (county_sums by_ T) (county_sums by_ P)); try done.
    simpl. fold (county_ratio by_ T P). fold c2.
    change (mkDF (df_index rd0) _) with rd2.
    rewrite (add_ratio_Some rd2 _ _ (county_sums by_ LH) (county_sums by_ P)); try done.
    simpl. fold (county_ratio by_ LH P). fold c3.
    change (mkDF (df_index rd0) _) with rd3.
    rewrite (add_ratio_Some rd3 _ _ (county_sums by_ LT) (county_sums by_ P)); try done.
  - apply get_geometry_getitem. apply get_geometry_getitem in Hg0.
    subst rd4 rd3 rd2 rd1. unfold getitem in *. simpl.
    by rewrite !lookup_insert_ne.
  - subst rd4 rd3 rd2 rd1. unfold getitem. simpl. repeat split.
    + rewrite !lookup_insert_ne by done. by rewrite lookup_insert_eq.
    + rewrite !lookup_insert_ne by done. by rewrite lookup_insert_eq.
    + rewrite !lookup_insert_ne by done. by rewrite lookup_insert_eq.
    + by rewrite lookup_insert_eq.
Qed.

End ratio_table.

(** [plot_food_access_by_county] (lines 67-103). *)
Lemma plot_food_access_by_county_eq l w df by_ P H T LH LT g :
  heap w !! l = Some df →
  getitem df "County" = Some (ObjCol by_) → get_geometry df = Some g →
  get_num df "POP2010" = Some P → get_num df "lapophalf" = Some H →
  get_num df "lapop10" = Some T → get_num df "lalowihalf" = Some LH →
  get_num df "lalowi10" = Some LT →
  let fig := grid_figure by_ g P H T LH LT in
  plot_food_access_by_county l w
  = Some ((), drawn w (figs w ++ [fig]) 3
                    (<["county_food_access.png" := fig]> (files w))).
Proof.
  intros Hdf Hby Hg HP HH HT HLH HLT fig. unfold plot_food_access_by_county.
  destruct (county_ratio_data_columns df by_ P H T LH LT g Hby Hg HP HH HT HLH HLT)
    as (rd & Hrd & Hcg & R1 & R2 & R3 & R4).
  run ltac:(apply deref_eq; exact Hdf).
  run ltac:(apply lift_eq; exact Hrd).
  run ltac:(apply plt_subplots_eq).
  cbn [fmap list_fmap seq].
  run_plot (figs w). run_plot (figs w).
  run ltac:(eapply (ax_set_title_eq (figs w)); reflexivity).
  run_plot (figs w). run_plot (figs w).
  run ltac:(eapply (ax_set_title_eq (figs w)); reflexivity).
  run_plot (figs w). run_plot (figs w).
  run ltac:(eapply (ax_set_title_eq (figs w)); reflexivity).
  run_plot (figs w). run_plot (figs w).
  run ltac:(eapply (ax_set_title_eq (figs w)); reflexivity).
  erewrite (plt_savefig_eq (figs w)); reflexivity.
Qed.

Lemma store_eq l df w :
  store l df w
  = Some ((), mkWorld (disk w) (<[l := df]> (heap w)) (figs w) (gca w) (files w) (stdout w)).
Proof. reflexivity. Qed.

Lemma low_access_flags_length df flags :
  df_wf df → low_access_flags df = Some flags → length flags = nrows df.
Proof.
  intros Hwf. unfold low_access_flags, urban_area, rural_area.
  destruct (get_series df "Urban") as [U|] eqn:HU; [|done].
  destruct (get_series df "lapophalf") as [H|] eqn:HH; [|done].
  destruct (get_series df "POP2010") as [P|] eqn:HP; [|done].
  destruct (get_series df "Rural") as [R|] eqn:HR; [|done].
  destruct (get_series df "lapop10") as [T|] eqn:HT; [|done]. simpl.
  intros [= <-].
  pose proof (get_series_length _ _ _ Hwf HU). pose proof (get_series_length _ _ _ Hwf HH).
  pose proof (get_series_length _ _ _ Hwf HP). pose proof (get_series_length _ _ _ Hwf HR).
  pose proof (get_series_length _ _ _ Hwf HT).
  rewrite bor_length, !band_length, !bor_length.
  unfold ge_float. rewrite !length_fmap, !series_eq_length, !series_ge_length,
    !series_div_length. lia.
Qed.

Lemma classify_with_flags df flags :
  low_access_flags df = Some flags → length flags = nrows df →
  classify df = Some (with_flags df flags).
Proof.
  unfold low_access_flags, classify. intros Hf Hlen.
  destruct (urban_area df) as [u|]; [|done].
  destruct (rural_area df) as [r|]; [|done]. simpl in *. injection Hf as <-.
  unfold setitem. simpl. rewrite length_fmap. by rewrite decide_True.
Qed.

Lemma bool_index_geometry df g mask sub :
  get_geometry df = Some g → bool_index df mask = Some sub →
  get_geometry sub = Some (take_mask mask g).
Proof.
  intros Hg%get_geometry_getitem. unfold bool_index. case_decide; [|done].
  intros [= <-]. apply get_geometry_getitem. unfold getitem in *. simpl.
  by rewrite lookup_fmap, Hg.
Qed.

(** The two subsets of a table with flags (lines 122-123). *)
Lemma subsets_with_flags df pop flags :
  df_wf df → getitem df "POP2010" = Some pop → length flags = nrows df →
  ∃ fa la,
    food_access_subset (with_flags df flags) = Some fa ∧
    low_access_subset fa = Some la ∧
    fa = mkDF (take_mask (notnull pop) (df_index df))
              (col_take (notnull pop) <$> df_columns (with_flags df flags)) ∧
    la = mkDF (take_mask (take_mask (notnull pop) flags) (df_index fa))
              (col_take (take_mask (notnull pop) flags) <$> df_columns fa).
Proof.
  intros Hwf Hpop Hlen.
  assert (Hmask : length (notnull pop) = nrows df).
  { rewrite notnull_length. exact (Hwf _ _ Hpop). }
  eexists _, _. split; [|split; [|split; reflexivity]].
  - unfold food_access_subset, getitem, with_flags. simpl.
    rewrite lookup_insert_ne by done. unfold getitem in Hpop. rewrite Hpop. simpl.
    unfold bool_index, nrows. simpl. by rewrite decide_True.
  - unfold low_access_subset, getitem. simpl.
    rewrite lookup_fmap, lookup_insert_eq. simpl.
    rewrite take_mask_fmap, mapM_id_Some. simpl. unfold bool_index.
    rewrite decide_True; [done|].
    unfold nrows. simpl. apply take_mask_length. exact Hlen.
Qed.

(** [plot_low_access_tracts] (lines 106-130). *)
Lemma plot_low_access_tracts_eq l w df pop flags g :
  heap w !! l = Some df → df_wf df →
  low_access_flags df = Some flags → getitem df "POP2010" = Some pop →
  get_geometry df = Some g →
  let fig := low_access_figure g pop flags in
  plot_low_access_tracts l w
  = Some ((), mkWorld (disk w) (<[l := with_flags df flags]> (heap w))
                      (figs w ++ [fig]) 0
                      (<["low_access.png" := fig]> (files w)) (stdout w)).
Proof.
  intros Hdf Hwf Hfl Hpop Hg fig. unfold plot_low_access_tracts.
  pose proof (low_access_flags_length df flags Hwf Hfl) as Hlen.
  pose proof (classify_with_flags df flags Hfl Hlen) as Hcl.
  destruct (subsets_with_flags df pop flags Hwf Hpop Hlen)
    as (fa & la & Hfa & Hla & Efa & Ela).
  assert (Hg' : get_geometry (with_flags df flags) = Some g).
  { apply get_geometry_getitem. apply get_geometry_getitem in Hg.
    unfold getitem, with_flags in *. simpl. by rewrite lookup_insert_ne. }
  assert (Hgfa : get_geometry fa = Some (take_mask (notnull pop) g)).
  { eapply bool_index_geometry; [exact Hg'|].
    unfold food_access_subset in Hfa.
    destruct (getitem (with_flags df flags) "POP2010") as [pop'|] eqn:E; [|done].
    assert (pop' = pop) as ->; [|exact Hfa].
    unfold getitem, with_flags in E. simpl in E.
    rewrite lookup_insert_ne in E by done. unfold getitem in Hpop. congruence. }
  assert (Hgla : get_geometry la
                 = Some (take_mask (take_mask (notnull pop) flags)
                                   (take_mask (notnull pop) g))).
  { apply get_geometry_getitem. apply get_geometry_getitem in Hgfa.
    rewrite Ela. unfold getitem in *. simpl. by rewrite lookup_fmap, Hgfa. }
  run ltac:(apply deref_eq; exact Hdf).
  run ltac:(apply lift_eq; exact Hcl).
  run ltac:(apply store_eq).
  run ltac:(apply lift_eq; exact Hfa).
  run ltac:(apply lift_eq; exact Hla).
  run ltac:(apply plt_subplots_eq).
  run ltac:(apply lift_eq; reflexivity).
  run_plot (figs w). run_plot (figs w). run_plot (figs w).
  run ltac:(eapply (plt_title_eq (figs w)); reflexivity).
  erewrite (plt_savefig_eq (figs w)); reflexivity.
Qed.

Lemma read_file_eq p w df : disk w !! p = Some df → read_file p w = Some (df, w).
Proof. intros H. by apply read_file_Some. Qed.

Lemma alloc_eq df w :
  alloc df w
  = Some (fresh (dom (heap w)),
          mkWorld (disk w) (<[fresh (dom (heap w)) := df]> (heap w))
                  (figs w) (gca w) (files w) (stdout w)).
Proof. reflexivity. Qed.

Lemma print_eq x w :
  print x w
  = Some ((), mkWorld (disk w) (heap w) (figs w) (gca w) (files w) (stdout w ++ [x])).
Proof. reflexivity. Qed.

(** [load_in_data] (lines 6-16). *)
Lemma load_in_data_eq s c w shp csv m :
  disk w !! s = Some shp → disk w !! c = Some csv →
  merge_left shp csv "CTIDFP00" "CensusTract" = Some m →
  load_in_data s c w
  = Some (fresh (dom (heap w)),
          mkWorld (disk w) (<[fresh (dom (heap w)) := m]> (heap w))
                  (figs w) (gca w) (files w) (stdout w)).
Proof.
  intros Hs Hc Hm. unfold load_in_data.
  run ltac:(apply read_file_eq; exact Hs).
  run ltac:(apply read_file_eq; exact Hc).
  run ltac:(apply lift_eq; exact Hm).
  apply alloc_eq.
Qed.

Lemma percentage_food_data_rate df census ctid :
  getitem df "CensusTract" = Some census → getitem df "CTIDFP00" = Some ctid →
  percentage_food_data df = Some (match_rate census ctid).
Proof. intros H1 H2. unfold percentage_food_data. by rewrite H1, H2. Qed.

(** X17.  [main] (lines 133-143) on two input files whose join has the
    columns the program reads: it returns, the loaded table ends with the
    [low_access] column, the match rate is printed once, and the five
    figures are drawn and saved in the order of the calls, each under its
    own file name. *)
Theorem main_runs w shp csv m census ctid by_ g P H T LH LT flags :
  disk w !! shp_path = Some shp → disk w !! csv_path = Some csv →
  merge_left shp csv "CTIDFP00" "CensusTract" = Some m →
  getitem m "CensusTract" = Some census → getitem m "CTIDFP00" = Some ctid →
  getitem m "County" = Some (ObjCol by_) → get_geometry m = Some g →
  get_num m "POP2010" = Some P → get_num m "lapophalf" = Some H →
  get_num m "lapop10" = Some T → get_num m "lalowihalf" = Some LH →
  get_num m "lalowi10" = Some LT →
  low_access_flags m = Some flags →
  main w
  = Some ((), mkWorld (disk w)
                (<[fresh (dom (heap w)) := with_flags m flags]> (heap w))
                (figs w ++ [outline_figure g; population_figure g (NumCol P);
                            county_figure by_ g P; grid_figure by_ g P H T LH LT;
                            low_access_figure g (NumCol P) flags])
                0
                (main_files (outline_figure g) (population_figure g (NumCol P))
                            (county_figure by_ g P) (grid_figure by_ g P H T LH LT)
                            (low_access_figure g (NumCol P) flags) (files w))
                (stdout w ++ [match_rate census ctid])).
Proof.
  intros Hs Hc Hm Hcen Hct Hby Hg HP HH HT HLH HLT Hfl. unfold main.
  destruct (merge_left_well_formed _ _ _ _ _ Hm) as [Hwf _].
  pose proof (get_num_getitem _ _ _ HP) as Hpop.
  set (l := fresh (dom (heap w))).
  run ltac:(eapply load_in_data_eq; [exact Hs|exact Hc|exact Hm]).
  fold l.
  run ltac:(apply deref_eq; simpl; apply lookup_insert_eq).
  run ltac:(apply lift_eq; apply percentage_food_data_rate; [exact Hcen|exact Hct]).
  run ltac:(apply print_eq).
  run ltac:(eapply plot_map_eq; [simpl; apply lookup_insert_eq|exact Hg]).
  run ltac:(eapply plot_population_map_eq;
            [simpl; apply lookup_insert_eq|exact Hg|exact Hpop]).
  run ltac:(eapply plot_population_county_map_eq;
            [simpl; apply lookup_insert_eq|exact Hby|exact HP|exact Hg]).
  run ltac:(eapply plot_food_access_by_county_eq;
            [simpl; apply lookup_insert_eq|exact Hby|exact Hg|exact HP|exact HH
            |exact HT|exact HLH|exact HLT]).
  erewrite plot_low_access_tracts_eq;
    [|simpl; apply lookup_insert_eq|exact Hwf|exact Hfl|exact Hpop|exact Hg].
  simpl. rewrite insert_insert_eq. rewrite <- !app_assoc. reflexivity.
Qed.

Lemma take_mask_twice {A} (keep flags : list bool) (l : list A) :
  take_mask (take_mask keep flags) (take_mask keep l)
  = take_mask (band keep flags) l.
Proof.
  revert flags l. induction keep as [|b keep IH]; intros [|c flags] [|x l];
    try reflexivity.
  - by rewrite !take_mask_nil_r.
  - unfold band. simpl. destruct b; simpl.
    + destruct c; [f_equal|]; apply IH.
    + apply IH.
Qed.

Lemma take_mask_elem {A} (mask : list bool) (l : list A) i x :
  mask !! i = Some true → l !! i = Some x → x ∈ take_mask mask l.
Proof.
  revert l i. induction mask as [|b mask IH]; intros [|y l] [|i]; simpl; try done.
  - intros [= ->] [= ->]. left.
  - intros Hm Hl. destruct b; [right|]; eapply IH; eauto.
Qed.

Lemma col_take_twice (keep flags : list bool) (c : column) :
  col_take (take_mask keep flags) (col_take keep c)
  = col_take (band keep flags) c.
Proof. destruct c; simpl; f_equal; apply take_mask_twice. Qed.

Lemma get_num_with_flags df flags n :
  n ≠ "low_access" → get_num (with_flags df flags) n = get_num df n.
Proof.
  intros Hn. unfold get_num, getitem, with_flags. simpl.
  by rewrite lookup_insert_ne.
Qed.

Lemma get_series_with_flags df flags n :
  n ≠ "low_access" → get_series (with_flags df flags) n = get_series df n.
Proof.
  intros Hn. unfold get_series, getitem, with_flags. simpl.
  by rewrite lookup_insert_ne.
Qed.

Lemma low_access_flags_with_flags df flags :
  low_access_flags (with_flags df flags) = low_access_flags df.
Proof.
  unfold low_access_flags, urban_area, rural_area.
  by rewrite !get_series_with_flags.
Qed.

Lemma classify_flags df df' :
  classify df = Some df' →
  ∃ flags, low_access_flags df = Some flags ∧ length flags = nrows df ∧
           df' = with_flags df flags.
Proof.
  unfold classify, low_access_flags.
  destruct (urban_area df) as [u|]; [|done].
  destruct (rural_area df) as [r|]; [|done]. simpl.
  unfold setitem. simpl. rewrite length_fmap. case_decide; [|done].
  intros [= <-]. by exists (bor u r).
Qed.

(** X12.  Lines 113-120 run again on their own result leave the table as
    it is: the flags are computed from columns the assignment does not
    touch. *)
Theorem classify_idempotent df df' :
  classify df = Some df' → classify df' = Some df'.
Proof.
  intros (flags & Hfl & Hlen & ->)%classify_flags.
  rewrite (classify_with_flags (with_flags df flags) flags).
  - f_equal. unfold with_flags. simpl. by rewrite insert_insert_eq.
  - by rewrite low_access_flags_with_flags.
  - exact Hlen.
Qed.

(** X13.  Lines 122-123: the two filters in sequence, first the rows with
    a known population and then the flagged rows among them, select the
    rows that the single filter [POP2010.notnull() & low_access] selects
    on the classified table. *)
Theorem low_access_subset_single_filter df pop flags :
  df_wf df → getitem df "POP2010" = Some pop → length flags = nrows df →
  ∃ food_access low_access,
    food_access_subset (with_flags df flags) = Some food_access ∧
    low_access_subset food_access = Some low_access ∧
    bool_index (with_flags df flags) (band (notnull pop) flags) = Some low_access.
Proof.
  intros Hwf Hpop Hlen.
  destruct (subsets_with_flags df pop flags Hwf Hpop Hlen)
    as (fa & la & Hfa' & Hla & Efa & Ela).
  exists fa, la. split; [exact Hfa'|]. split; [exact Hla|].
  rewrite Ela, Efa. simpl. unfold bool_index.
  assert (Hmask : length (notnull pop) = nrows df).
  { rewrite notnull_length. exact (Hwf _ _ Hpop). }
  rewrite decide_True.
  - f_equal. f_equal; [symmetry; apply take_mask_twice|].
    rewrite <- map_fmap_compose. apply map_fmap_ext.
    intros n c _. symmetry. apply col_take_twice.
  - unfold band, nrows, with_flags. simpl. rewrite length_zip_with.
    unfold nrows in *. lia.
Qed.

Section county_rows.

Variable df : DataFrame.
Variable by_ : list (option string).
Hypothesis Hby : getitem df "County" = Some (ObjCol by_).

(** X7.  The rows of the dissolved table (lines 59, 75): the county names
    that occur in the table, each once, in ascending order; a tract
    without a county name makes no row. *)
Theorem dissolve_index_sorted :
  ∃ county keys,
    dissolve_sum df "County" = Some county ∧
    df_index county = Key <$> keys ∧
    Sorted str_le keys ∧ NoDup keys ∧
    ∀ k, k ∈ keys ↔ Some k ∈ by_.
Proof.
  eexists _, (group_keys by_). split; [apply (dissolve_sum_County df by_ Hby)|].
  split; [done|]. split; [|split].
  - unfold group_keys. apply Sorted_merge_sort. apply _.
  - apply NoDup_group_keys.
  - apply elem_of_group_keys.
Qed.

(** X8.  The geometry of a county row (lines 59, 75) is the union of the
    geometries of the tracts of that county: a point lies in it exactly
    when it lies in one of them. *)
Theorem dissolve_geometry_union g j k :
  get_geometry df = Some g →
  group_keys by_ !! j = Some k →
  ∃ county u,
    dissolve_sum df "County" = Some county ∧
    df_index county !! j = Some (Key k) ∧
    geom_at county j = Some (Some u) ∧
    ∀ p : nat,
      p ∈ u ↔ ∃ i x, by_ !! i = Some (Some k) ∧ g !! i = Some (Some x) ∧ p ∈ x.
Proof.
  intros Hg Hk.
  pose proof (dissolve_sum_County df by_ Hby) as Hdis.
  pose proof (dissolve_geometry df by_ g _ Hby Hg Hdis) as Hcg.
  eexists _, (union_geoms (take_mask (group_mask by_ k) g)).
  split; [exact Hdis|]. split; [|split; [|intros p]].
  - simpl. by rewrite list_lookup_fmap, Hk.
  - unfold geom_at. rewrite Hcg. simpl. unfold county_geometry.
    rewrite list_lookup_fmap, Hk. done.
  - unfold union_geoms. rewrite elem_of_union_list. split.
    + intros (x & Hx & Hp). apply list_elem_of_omap in Hx as (ox & Hox & Hid).
      simpl in Hid. subst ox.
      apply elem_of_take_mask in Hox as (i & Hm & Hi).
      exists i, x. split; [|done]. unfold group_mask in Hm.
      rewrite list_lookup_fmap in Hm.
      destruct (by_ !! i) as [v|]; [|done]. simpl in Hm.
      injection Hm as Hm. apply bool_decide_eq_true in Hm. by subst v.
    + intros (i & x & Hb & Hgi & Hp). exists x. split; [|done].
      apply list_elem_of_omap. exists (Some x). split; [|done].
      eapply take_mask_elem; [|exact Hgi]. unfold group_mask.
      rewrite list_lookup_fmap, Hb. simpl. by rewrite bool_decide_eq_true_2.
Qed.

End county_rows.

Lemma sum_cells_within (l P : list (option Z)) (mask : list bool) :
  Forall2 within_population l P →
  0 ≤ sum_cells (take_mask mask l) ≤ sum_cells (take_mask mask P).
Proof.
  intros HF. revert mask. induction HF as [|x p l P Hxp HF IH]; intros [|b mask].
  - done.
  - done.
  - done.
  - rewrite !take_mask_cons. destruct b; [|apply IH].
    rewrite !sum_cells_cons. specialize (IH mask). unfold within_population in Hxp. lia.
Qed.

Lemma le_one (m : positive) (e : Z) :
  e ≤ -52 → Zpos m ≤ 2 ^ 52 * 2 ^ (-52 - e) →
  F64.le (S754_finite false m e) (F64.of_Z 1) = true.
Proof.
  intros He Hm.
  change (F64.of_Z 1) with (S754_finite false 4503599627370496 (-52)).
  unfold F64.le, SFleb, SFcompare.
  destruct (Z.compare_spec e (-52)) as [->|Hlt|Hgt]; [|done|lia].
  simpl in Hm. rewrite Pos.compare_cont_spec. simpl.
  destruct (Pos.compare_spec m 4503599627370496); try done. lia.
Qed.

(** A quotient of counts [0 <= a <= b], [0 < b < 2^53], lies in [0, 1]. *)
Lemma ratio_unit_range (a b : Z) :
  0 ≤ a ≤ b → 0 < b < 2 ^ 53 →
  let r := F64.div (F64.of_Z a) (F64.of_Z b) in
  F64.le F64.pzero r = true ∧ F64.le r (F64.of_Z 1) = true.
Proof.
  intros Ha Hb. destruct b as [|b|b]; try lia.
  destruct a as [|a|a]; try lia.
  - destruct (of_Z_small b) as (mb & eb & Hb' & _); [lia|].
    cbv zeta. rewrite of_Z_0, Hb'. by vm_compute.
  - pose proof (div_le_one a b ltac:(lia) ltac:(lia)) as Hdiv. cbv zeta.
    destruct (F64.div (F64.of_Z (Zpos a)) (F64.of_Z (Zpos b))) as [s|s| |s m e].
    + rewrite Hdiv. by vm_compute.
    + done.
    + done.
    + destruct Hdiv as (-> & He & Hm). split; [done|]. by apply le_one.
Qed.

(** A quotient by a zero sum: NaN for 0/0, plus infinity for a positive
    numerator. *)
Lemma ratio_zero_sum (a : Z) :
  0 ≤ a →
  F64.div (F64.of_Z a) (F64.of_Z 0)
  = if decide (a = 0) then F64.nan else S754_infinity false.
Proof.
  intros Ha. rewrite of_Z_0. destruct a as [|a|a]; try lia.
  - by rewrite of_Z_0.
  - rewrite decide_False by done. pose proof (of_Z_pos a) as Hp.
    destruct (F64.of_Z (Zpos a)) as [s|s| |s m e]; try done; by subst s.
Qed.

Section county_ratio_range.

Variable df : DataFrame.
Variable by_ : list (option string).
Variables P H T LH LT : list (option Z).
Hypothesis Hby : getitem df "County" = Some (ObjCol by_).
Hypothesis Hgeo : is_Some (getitem df "geometry").
Hypothesis HP : get_num df "POP2010" = Some P.
Hypothesis HH : get_num df "lapophalf" = Some H.
Hypothesis HT : get_num df "lapop10" = Some T.
Hypothesis HLH : get_num df "lalowihalf" = Some LH.
Hypothesis HLT : get_num df "lalowi10" = Some LT.

Lemma county_ratio_cell rd i k name l :
  county_ratio_data df = Some rd →
  group_keys by_ !! i = Some k →
  (name, l) ∈ ratio_sources H T LH LT →
  flt_at rd name i
  = Some (F64.div (F64.of_Z (group_sum by_ l k)) (F64.of_Z (group_sum by_ P k))).
Proof.
  intros Hrd Hk Hname.
  destruct (county_ratio_data_rows df by_ P H T LH LT Hby Hgeo HP HH HT HLH HLT)
    as (rd' & Hrd' & _ & Hrows).
  assert (rd' = rd) as -> by congruence.
  destruct (Hrows i k Hk) as (R1 & R2 & R3 & R4). cbv zeta in *.
  unfold ratio_sources in Hname.
  apply elem_of_cons in Hname as [[= -> ->]|Hname]; [exact R1|].
  apply elem_of_cons in Hname as [[= -> ->]|Hname]; [exact R2|].
  apply elem_of_cons in Hname as [[= -> ->]|Hname]; [exact R3|].
  apply elem_of_cons in Hname as [[= -> ->]|Hname]; [exact R4|].
  by apply elem_of_nil in Hname.
Qed.

(** X10.  Lines 75-84 against the colour range of lines 87-102 ([vmin=0],
    [vmax=1]): when a count of every tract lies between 0 and the
    population of the tract, its ratio in a county with a positive
    population (below 2^53) lies in [0, 1]. *)
Theorem county_ratio_in_unit_range i k name l :
  group_keys by_ !! i = Some k →
  (name, l) ∈ ratio_sources H T LH LT →
  Forall2 within_population l P →
  0 < group_sum by_ P k < 2 ^ 53 →
  ∃ rd r, county_ratio_data df = Some rd ∧ flt_at rd name i = Some r ∧
          F64.le F64.pzero r = true ∧ F64.le r (F64.of_Z 1) = true.
Proof.
  intros Hk Hname Hl Hpop.
  destruct (county_ratio_data_rows df by_ P H T LH LT Hby Hgeo HP HH HT HLH HLT)
    as (rd & Hrd & _).
  eexists rd, _. split; [exact Hrd|]. split.
  - by eapply county_ratio_cell.
  - apply ratio_unit_range; [|exact Hpop]. unfold group_sum. by apply sum_cells_within.
Qed.

(** X11.  Lines 75-84 have no guard for a county whose population sums to
    zero: the division does not raise, the ratio is NaN when the count
    sums to zero too and plus infinity when it is positive, outside the
    range [0, 1] either way. *)
Theorem county_ratio_zero_population i k name l :
  group_keys by_ !! i = Some k →
  (name, l) ∈ ratio_sources H T LH LT →
  group_sum by_ P k = 0 → 0 ≤ group_sum by_ l k →
  ∃ rd r, county_ratio_data df = Some rd ∧ flt_at rd name i = Some r ∧
          r = (if decide (group_sum by_ l k = 0) then F64.nan else S754_infinity false) ∧
          F64.le r (F64.of_Z 1) = false.
Proof.
  intros Hk Hname Hpop Hl.
  destruct (county_ratio_data_rows df by_ P H T LH LT Hby Hgeo HP HH HT HLH HLT)
    as (rd & Hrd & _).
  eexists rd, _. split; [exact Hrd|]. split; [by eapply county_ratio_cell|].
  rewrite Hpop, ratio_zero_sum by done. split; [done|]. by case_decide.
Qed.

End county_ratio_range.

(* ===================================================================== *)
(** ** Counties of two tracts: the ratio of the sums and the mean of the ratios *)
(* ===================================================================== *)

Section two_tracts.







End two_tracts.


Section unique_keys.

Variable rk : list (option keyv).
Hypothesis Hnd : NoDup rk.

Lemma matches_unique k : (length (matches k rk) ≤ 1)%nat.
Proof.
  assert (Hm : NoDup (matches k rk)).
  { unfold matches. apply NoDup_filter, NoDup_seq. }
  destruct (matches k rk) as [|j1 [|j2 js]] eqn:E; simpl; try lia.
  assert (H1 : j1 ∈ matches k rk) by (rewrite E; left).
  assert (H2 : j2 ∈ matches k rk) by (rewrite E; right; left).
  apply elem_of_matches in H1, H2.
  pose proof (NoDup_lookup _ _ _ _ Hnd H1 H2) as ->.
  apply NoDup_cons in Hm as [Hn _]. exfalso. apply Hn. left.
Qed.

Lemma join_row_unique i k : ∃ oj, join_row rk i k = [(i, oj)].
Proof.
  unfold join_row. pose proof (matches_unique k) as Hl.
  destruct (matches k rk) as [|j [|j' js]]; simpl in *; [by eexists|by eexists|lia].
Qed.

Lemma join_rows_unique_from lk n :
  fst <$> mjoin (imap (λ i, join_row rk (n + i)) lk) = seq n (length lk).
Proof.
  revert n. induction lk as [|k lk IH]; intros n; [done|].
  rewrite imap_cons. simpl. rewrite fmap_app.
  destruct (join_row_unique (n + 0) k) as [oj ->]. simpl.
  rewrite Nat.add_0_r. f_equal.
  rewrite <- (IH (S n)). f_equal. f_equal. apply imap_ext.
  intros i x _. simpl. f_equal. lia.
Qed.

Lemma join_rows_unique lk : fst <$> join_rows lk rk = seq 0 (length lk).
Proof. apply (join_rows_unique_from lk 0). Qed.

End unique_keys.

Lemma gather_seq {A} (null : A) (l : list A) :
  gather null l (Some <$> seq 0 (length l)) = l.
Proof.
  unfold gather. rewrite <- list_fmap_compose.
  apply list_eq. intros i. rewrite list_lookup_fmap.
  destruct (decide (i < length l)%nat) as [Hi|Hi].
  - rewrite lookup_seq_lt by done. simpl.
    destruct (lookup_lt_is_Some_2 l i Hi) as [x Hx]. by rewrite Hx.
  - rewrite lookup_seq_ge by lia. simpl. symmetry. apply lookup_ge_None. lia.
Qed.

Lemma col_gather_seq (c : column) :
  col_gather (Some <$> seq 0 (col_len c)) c = c.
Proof. destruct c; simpl; f_equal; apply gather_seq. Qed.

(** X2.  Lines 14-15: when no two rows of the right table share a join key, the
    left join has the rows of the left table, in their order, and the
    columns of the left table are in it unchanged. *)
Theorem merge_left_unique_keys l r lo ro m rk :
  df_wf l → merge_left l r lo ro = Some m →
  key_cells r ro = Some rk → NoDup rk →
  nrows m = nrows l ∧
  ∀ n c, getitem l n = Some c → getitem m (left_name (df_columns r) n) = Some c.
Proof.
  intros Hwf (lkc & rkc & t & lk & rk' & Hl & Hr & Hlk & Hrk & Hnd & ->)%merge_left_Some
    Hkeys Hrk_nd.
  assert (rk' = rk) as ->.
  { unfold key_cells in Hkeys. rewrite Hr in Hkeys. simpl in Hkeys.
    rewrite Hrk in Hkeys. simpl in Hkeys. congruence. }
  assert (Hlen : length lk = nrows l).
  { rewrite (col_keys_length _ _ _ Hlk). exact (Hwf _ _ Hl). }
  pose proof (join_rows_unique rk Hrk_nd lk) as Hfst.
  assert (Hrows : length (join_rows lk rk) = nrows l).
  { rewrite <- (length_fmap fst), Hfst, length_seq. exact Hlen. }
  split.
  - unfold nrows at 1. simpl. by rewrite length_fmap, length_seq.
  - intros n c Hc. unfold getitem. simpl.
    rewrite (merged_left_column l r _ n c Hnd Hc). f_equal.
    rewrite list_fmap_compose, Hfst, Hlen, <- (Hwf _ _ Hc).
    apply col_gather_seq.
Qed.

Lemma div_self (m : positive) (e : Z) :
  F64.div (S754_finite false m e) (S754_finite false m e) = F64.of_Z 1.
Proof.
  unfold F64.div, SFdiv, F64.prec, F64.emax.
  rewrite SFdiv_core_binary_spec. cbv zeta.
  replace (Zdigits2 (Zpos m) + e - (Zdigits2 (Zpos m) + e)) with 0 by lia.
  replace (e - e) with 0 by lia.
  change (Z.min (fexp 53 1024 0) 0) with (-53).
  change (0 - -53) with 53.
  rewrite (Z.mul_comm (Zpos m)), Z.div_mul, Z.mod_mul by lia.
  unfold new_location, new_location_even, new_location_odd. simpl Z.eqb.
  destruct (Z.even (Zpos m)); reflexivity.
Qed.

Lemma div_zero_num (b : positive) :
  F64.div (F64.of_Z 0) (F64.of_Z (Zpos b)) = F64.pzero.
Proof.
  rewrite of_Z_0. pose proof (of_Z_pos b) as Hb.
  destruct (F64.of_Z (Zpos b)) as [s|s| |s m e]; try done; by subst s.
Qed.

(** X3.  Lines 19-26 at the two ends: when every geometry key has a tabular key
    beside it the rate is exactly 100.0, when none has it is 0.0. *)
Theorem match_rate_end_points df census ctid :
  getitem df "CensusTract" = Some census → getitem df "CTIDFP00" = Some ctid →
  (0 < count ctid)%nat → Z.of_nat (count ctid) < 2 ^ 53 →
  (count census = count ctid → percentage_food_data df = Some F64.lit_100) ∧
  (count census = 0%nat → percentage_food_data df = Some F64.pzero).
Proof.
  intros Hcen Hct Hpos Hlt. unfold percentage_food_data. rewrite Hcen, Hct. simpl.
  destruct (Z.of_nat (count ctid)) as [|b|b] eqn:Eb; try lia.
  split.
  - intros ->. rewrite Eb. f_equal.
    destruct (of_Z_small b Hlt) as (mb & eb & -> & _).
    rewrite div_self. vm_compute. reflexivity.
  - intros ->. f_equal. change (Z.of_nat 0) with 0. rewrite div_zero_num.
    vm_compute. reflexivity.
Qed.

(* ===================================================================== *)
(** ** What each function of the program returns and leaves behind *)
(* ===================================================================== *)

(** X1.  [load_in_data] (lines 6-16) on two files of the disk whose left
    join is [m]: it returns a handle that no table had before, the table
    behind it is [m], well formed and with distinct row labels, and the
    tables, figures, files and output that were there stay as they are. *)
Theorem load_in_data_runs s c w shp csv m :
  disk w !! s = Some shp → disk w !! c = Some csv →
  merge_left shp csv "CTIDFP00" "CensusTract" = Some m →
  ∃ l w',
    load_in_data s c w = Some (l, w') ∧
    heap w !! l = None ∧ heap w' = <[l := m]> (heap w) ∧
    df_wf m ∧ NoDup (df_index m) ∧
    disk w' = disk w ∧ figs w' = figs w ∧ files w' = files w ∧
    stdout w' = stdout w.
Proof.
  intros Hs Hc Hm. eexists _, _. split; [by eapply load_in_data_eq|]. simpl.
  split; [apply not_elem_of_dom, is_fresh|]. split; [done|].
  destruct (merge_left_well_formed _ _ _ _ _ Hm) as [Hwf Hnd]. done.
Qed.

(** X4.  [plot_map] (lines 29-36) on a table with a geometry column: it
    returns, opens one new figure of one axes holding one uncoloured layer
    of all geometries under the title "Washington State", and saves that
    figure as map.png; nothing else changes. *)
Theorem plot_map_runs l w df g :
  heap w !! l = Some df → get_geometry df = Some g →
  ∃ w', plot_map l w = Some ((), w') ∧
    figs w' = figs w ++ [outline_figure g] ∧ gca w' = 0%nat ∧
    files w' = <["map.png" := outline_figure g]> (files w) ∧
    heap w' = heap w ∧ disk w' = disk w ∧ stdout w' = stdout w.
Proof.
  intros Hdf Hg. eexists. split; [by eapply plot_map_eq|]. done.
Qed.

(** X5.  [plot_population_map] (lines 39-49) on a table with a geometry
    and a POP2010 column: one new figure, on its axes the grey background
    of all tracts and above it the tracts coloured by POP2010 with a
    legend, saved as population_map.png; nothing else changes. *)
Theorem plot_population_map_runs l w df g pop :
  heap w !! l = Some df → get_geometry df = Some g →
  getitem df "POP2010" = Some pop →
  ∃ w', plot_population_map l w = Some ((), w') ∧
    figs w' = figs w ++ [population_figure g pop] ∧ gca w' = 0%nat ∧
    files w' = <["population_map.png" := population_figure g pop]> (files w) ∧
    heap w' = heap w ∧ disk w' = disk w ∧ stdout w' = stdout w.
Proof.
  intros Hdf Hg Hpop. eexists. split; [by eapply plot_population_map_eq|]. done.
Qed.

(** X6.  [plot_population_county_map] (lines 52-64): one new figure, the
    grey background of all tracts and above it one shape per county, the
    union of its tracts, coloured by the sum of POP2010 over the county;
    saved as county_population_map.png; nothing else changes. *)
Theorem plot_population_county_map_runs l w df by_ P g :
  heap w !! l = Some df →
  getitem df "County" = Some (ObjCol by_) → get_num df "POP2010" = Some P →
  get_geometry df = Some g →
  ∃ w', plot_population_county_map l w = Some ((), w') ∧
    figs w' = figs w ++ [county_figure by_ g P] ∧ gca w' = 0%nat ∧
    files w' = <["county_population_map.png" := county_figure by_ g P]> (files w) ∧
    heap w' = heap w ∧ disk w' = disk w ∧ stdout w' = stdout w.
Proof.
  intros Hdf Hby HP Hg. eexists.
  split; [by eapply plot_population_county_map_eq|]. done.
Qed.

(** X9.  [plot_food_access_by_county] (lines 67-103): one new figure of
    four axes; each holds the grey background and the county shapes
    coloured by one ratio column on the range 0 to 1, under the title of
    that ratio; saved as county_food_access.png; nothing else changes. *)
Theorem plot_food_access_by_county_runs l w df by_ P H T LH LT g :
  heap w !! l = Some df →
  getitem df "County" = Some (ObjCol by_) → get_geometry df = Some g →
  get_num df "POP2010" = Some P → get_num df "lapophalf" = Some H →
  get_num df "lapop10" = Some T → get_num df "lalowihalf" = Some LH →
  get_num df "lalowi10" = Some LT →
  ∃ w', plot_food_access_by_county l w = Some ((), w') ∧
    figs w' = figs w ++ [grid_figure by_ g P H T LH LT] ∧
    files w'
    = <["county_food_access.png" := grid_figure by_ g P H T LH LT]> (files w) ∧
    heap w' = heap w ∧ disk w' = disk w ∧ stdout w' = stdout w.
Proof.
  intros Hdf Hby Hg HP HH HT HLH HLT. eexists.
  split; [by eapply plot_food_access_by_county_eq|]. done.
Qed.

(** X14.  [plot_low_access_tracts] (lines 106-130) on a well-formed table
    with the classifier's columns and a geometry: the table behind the
    handle gets the flags as its [low_access] column; one new figure with
    three layers on one axes, all tracts in #EEEEEE, the tracts with a
    known population in #AAAAAA, the flagged ones among these in the
    default colour; saved as low_access.png. *)
Theorem plot_low_access_tracts_runs l w df pop flags g :
  heap w !! l = Some df → df_wf df →
  low_access_flags df = Some flags → getitem df "POP2010" = Some pop →
  get_geometry df = Some g →
  ∃ w', plot_low_access_tracts l w = Some ((), w') ∧
    heap w' = <[l := with_flags df flags]> (heap w) ∧
    figs w' = figs w ++ [low_access_figure g pop flags] ∧ gca w' = 0%nat ∧
    files w' = <["low_access.png" := low_access_figure g pop flags]> (files w) ∧
    disk w' = disk w ∧ stdout w' = stdout w.
Proof.
  intros Hdf Hwf Hfl Hpop Hg. eexists.
  split; [by eapply plot_low_access_tracts_eq|]. done.
Qed.

Lemma with_flags_wf df flags :
  df_wf df → length flags = nrows df → df_wf (with_flags df flags).
Proof.
  intros Hwf Hlen name c. unfold with_flags. simpl.
  intros [[_ <-]|[_ Hc]]%lookup_insert_Some.
  - simpl. by rewrite length_fmap.
  - exact (Hwf _ _ Hc).
Qed.

Lemma getitem_with_flags df flags n :
  n ≠ "low_access" → getitem (with_flags df flags) n = getitem df n.
Proof. intros Hn. unfold getitem, with_flags. simpl. by rewrite lookup_insert_ne. Qed.

Lemma get_geometry_with_flags df flags :
  get_geometry (with_flags df flags) = get_geometry df.
Proof. unfold get_geometry. by rewrite getitem_with_flags. Qed.

Lemma with_flags_twice df flags :
  with_flags (with_flags df flags) flags = with_flags df flags.
Proof. unfold with_flags. simpl. by rewrite insert_insert_eq. Qed.

(** X15.  [plot_low_access_tracts] called a second time: the table, with
    its [low_access] column, stays as the first call left it, and the
    figure of the first call is drawn again and saved over the same file,
    so the files stay as they are. *)
Theorem plot_low_access_tracts_again l w df pop flags g :
  heap w !! l = Some df → df_wf df →
  low_access_flags df = Some flags → getitem df "POP2010" = Some pop →
  get_geometry df = Some g →
  ∃ w1 w2 fig,
    plot_low_access_tracts l w = Some ((), w1) ∧
    plot_low_access_tracts l w1 = Some ((), w2) ∧
    files w1 !! "low_access.png" = Some fig ∧
    heap w2 = heap w1 ∧ files w2 = files w1 ∧
    figs w2 = figs w1 ++ [fig].
Proof.
  intros Hdf Hwf Hfl Hpop Hg.
  pose proof (low_access_flags_length df flags Hwf Hfl) as Hlen.
  eexists _, _, (low_access_figure g pop flags).
  split; [by eapply plot_low_access_tracts_eq|].
  split.
  - eapply (plot_low_access_tracts_eq l _ (with_flags df flags) pop flags g).
    + simpl. apply lookup_insert_eq.
    + by apply with_flags_wf.
    + by rewrite low_access_flags_with_flags.
    + by rewrite getitem_with_flags.
    + by rewrite get_geometry_with_flags.
  - simpl. split; [apply lookup_insert_eq|].
    split; [by rewrite with_flags_twice, insert_insert_eq|].
    split; [by rewrite insert_insert_eq|done].
Qed.

(** X16.  The four other rendering calls do not look at the [low_access]
    column: run on the table as [plot_low_access_tracts] leaves it, each
    draws and saves the figure it draws on the table as loaded, so the
    figures do not depend on the order of the calls in [main]. *)
Theorem renders_ignore_flags r l w df flags by_ g P H T LH LT :
  r ≠ LowAccessMap →
  heap w !! l = Some df →
  getitem df "County" = Some (ObjCol by_) → get_geometry df = Some g →
  get_num df "POP2010" = Some P → get_num df "lapophalf" = Some H →
  get_num df "lapop10" = Some T → get_num df "lalowihalf" = Some LH →
  get_num df "lalowi10" = Some LT →
  ∃ fig cur name,
    run_render r l w
    = Some ((), drawn w (figs w ++ [fig]) cur (<[name := fig]> (files w))) ∧
    run_render r l (flagged w l df flags)
    = Some ((), drawn (flagged w l df flags) (figs w ++ [fig]) cur
                      (<[name := fig]> (files w))).
Proof.
  intros Hr Hdf Hby Hg HP HH HT HLH HLT.
  pose proof (get_num_getitem _ _ _ HP) as Hpop.
  assert (Hdf' : heap (flagged w l df flags) !! l = Some (with_flags df flags))
    by (simpl; apply lookup_insert_eq).
  assert (Hby' : getitem (with_flags df flags) "County" = Some (ObjCol by_))
    by (by rewrite getitem_with_flags).
  assert (Hg' : get_geometry (with_flags df flags) = Some g)
    by (by rewrite get_geometry_with_flags).
  assert (Hpop' : getitem (with_flags df flags) "POP2010" = Some (NumCol P))
    by (by rewrite getitem_with_flags).
  assert (Hnum : ∀ n v, n ≠ "low_access" → get_num df n = Some v →
                        get_num (with_flags df flags) n = Some v).
  { intros n v Hn Hv. by rewrite get_num_with_flags. }
  destruct r; simpl; [| | | |done].
  - eexists _, _, _. split; [by eapply plot_map_eq|].
    by eapply (plot_map_eq l (flagged w l df flags)).
  - eexists _, _, _. split; [by eapply plot_population_map_eq|].
    by eapply (plot_population_map_eq l (flagged w l df flags)).
  - eexists _, _, _. split; [by eapply plot_population_county_map_eq|].
    eapply (plot_population_county_map_eq l (flagged w l df flags));
      [exact Hdf'|exact Hby'|by apply Hnum|exact Hg'].
  - eexists _, _, _. split; [by eapply plot_food_access_by_county_eq|].
    eapply (plot_food_access_by_county_eq l (flagged w l df flags));
      [exact Hdf'|exact Hby'|exact Hg'|by apply Hnum..].
Qed.

(* ===================================================================== *)
(** ** The further theorems at the sample tables *)
(* ===================================================================== *)

Ltac by_eval := vm_compute; reflexivity.

(** The loader on the sample files. *)
Lemma load_in_data_runs_witness :
  disk sample_world !! shp_path = Some sample_shp ∧
  disk sample_world !! csv_path = Some sample_csv ∧
  merge_left sample_shp sample_csv "CTIDFP00" "CensusTract" = Some sample_merged ∧
  ∃ l w',
    load_in_data shp_path csv_path sample_world = Some (l, w') ∧
    heap sample_world !! l = None ∧
    heap w' = <[l := sample_merged]> (heap sample_world) ∧
    df_wf sample_merged ∧ NoDup (df_index sample_merged) ∧
    disk w' = disk sample_world ∧ figs w' = figs sample_world ∧
    files w' = files sample_world ∧ stdout w' = stdout sample_world.
Proof.
  assert (H1 : disk sample_world !! shp_path = Some sample_shp) by by_eval.
  assert (H2 : disk sample_world !! csv_path = Some sample_csv) by by_eval.
  assert (H3 : merge_left sample_shp sample_csv "CTIDFP00" "CensusTract"
               = Some sample_merged) by by_eval.
  split; [exact H1|]. split; [exact H2|]. split; [exact H3|].
  exact (load_in_data_runs shp_path csv_path sample_world sample_shp sample_csv
           sample_merged H1 H2 H3).
Defined.

(** The sample CSV has one row per tract. *)
Lemma merge_left_unique_keys_witness :
  df_wf sample_shp ∧
  merge_left sample_shp sample_csv "CTIDFP00" "CensusTract" = Some sample_merged ∧
  key_cells sample_csv "CensusTract" = Some sample_csv_keys ∧
  NoDup sample_csv_keys ∧
  nrows sample_merged = nrows sample_shp ∧
  ∀ n c, getitem sample_shp n = Some c →
         getitem sample_merged (left_name (df_columns sample_csv) n) = Some c.
Proof.
  assert (H1 : df_wf sample_shp) by by_compute.
  assert (H2 : merge_left sample_shp sample_csv "CTIDFP00" "CensusTract"
               = Some sample_merged) by by_eval.
  assert (H3 : key_cells sample_csv "CensusTract" = Some sample_csv_keys) by by_eval.
  assert (H4 : NoDup sample_csv_keys) by by_compute.
  split; [exact H1|]. split; [exact H2|]. split; [exact H3|]. split; [exact H4|].
  exact (merge_left_unique_keys sample_shp sample_csv "CTIDFP00" "CensusTract"
           sample_merged sample_csv_keys H1 H2 H3 H4).
Defined.

(** The two ends on two joins of the same shapefile: with a CSV that has
    both tracts the rate is 100.0, with a CSV that has neither it is 0.0. *)
Lemma match_rate_end_points_witness :
  merge_left no_county_shp no_county_csv "CTIDFP00" "CensusTract" = Some all_matched ∧
  merge_left no_county_shp stranger_csv "CTIDFP00" "CensusTract" = Some none_matched ∧
  count (ObjCol [Some "t1"; Some "t2"]) = 2%nat ∧
  count (ObjCol [None; None]) = 0%nat ∧
  percentage_food_data all_matched = Some F64.lit_100 ∧
  percentage_food_data none_matched = Some F64.pzero.
Proof.
  set (ctid := ObjCol [Some "t1"; Some "t2"]).
  set (nulls := ObjCol [None; None]).
  assert (M1 : merge_left no_county_shp no_county_csv "CTIDFP00" "CensusTract"
               = Some all_matched) by (vm_compute; reflexivity).
  assert (M2 : merge_left no_county_shp stranger_csv "CTIDFP00" "CensusTract"
               = Some none_matched) by (vm_compute; reflexivity).
  assert (A1 : getitem all_matched "CensusTract" = Some ctid) by (vm_compute; reflexivity).
  assert (A2 : getitem all_matched "CTIDFP00" = Some ctid) by (vm_compute; reflexivity).
  assert (N1 : getitem none_matched "CensusTract" = Some nulls) by (vm_compute; reflexivity).
  assert (N2 : getitem none_matched "CTIDFP00" = Some ctid) by (vm_compute; reflexivity).
  assert (H3 : (0 < count ctid)%nat) by by_compute.
  assert (H4 : Z.of_nat (count ctid) < 2 ^ 53) by (vm_compute; reflexivity).
  assert (E1 : count ctid = 2%nat) by (vm_compute; reflexivity).
  assert (E0 : count nulls = 0%nat) by (vm_compute; reflexivity).
  split; [exact M1|]. split; [exact M2|]. split; [exact E1|]. split; [exact E0|].
  split.
  - exact (proj1 (match_rate_end_points all_matched ctid ctid A1 A2 H3 H4) eq_refl).
  - exact (proj2 (match_rate_end_points none_matched nulls ctid N1 N2 H3 H4) E0).
Defined.

(** The outline of the sample tracts. *)
Lemma plot_map_runs_witness :
  heap sample_loaded !! 0%nat = Some sample_merged ∧
  get_geometry sample_merged = Some sample_geometry ∧
  ∃ w', plot_map 0 sample_loaded = Some ((), w') ∧
    figs w' = figs sample_loaded ++ [outline_figure sample_geometry] ∧
    gca w' = 0%nat ∧
    files w' = <["map.png" := outline_figure sample_geometry]> (files sample_loaded) ∧
    heap w' = heap sample_loaded ∧ disk w' = disk sample_loaded ∧
    stdout w' = stdout sample_loaded.
Proof.
  assert (H1 : heap sample_loaded !! 0%nat = Some sample_merged) by by_eval.
  assert (H2 : get_geometry sample_merged = Some sample_geometry) by by_eval.
  split; [exact H1|]. split; [exact H2|].
  exact (plot_map_runs 0%nat sample_loaded sample_merged sample_geometry H1 H2).
Defined.

(** The population map of the sample tracts. *)
Lemma plot_population_map_runs_witness :
  heap sample_loaded !! 0%nat = Some sample_merged ∧
  get_geometry sample_merged = Some sample_geometry ∧
  getitem sample_merged "POP2010" = Some (NumCol sample_pop) ∧
  ∃ w', plot_population_map 0 sample_loaded = Some ((), w') ∧
    figs w' = figs sample_loaded
              ++ [population_figure sample_geometry (NumCol sample_pop)] ∧
    gca w' = 0%nat ∧
    files w' = <["population_map.png"
                 := population_figure sample_geometry (NumCol sample_pop)]>
                 (files sample_loaded) ∧
    heap w' = heap sample_loaded ∧ disk w' = disk sample_loaded ∧
    stdout w' = stdout sample_loaded.
Proof.
  assert (H1 : heap sample_loaded !! 0%nat = Some sample_merged) by by_eval.
  assert (H2 : get_geometry sample_merged = Some sample_geometry) by by_eval.
  assert (H3 : getitem sample_merged "POP2010" = Some (NumCol sample_pop)) by by_eval.
  split; [exact H1|]. split; [exact H2|]. split; [exact H3|].
  exact (plot_population_map_runs 0%nat sample_loaded sample_merged sample_geometry
           (NumCol sample_pop) H1 H2 H3).
Defined.

(** The county population map of the sample tracts. *)
Lemma plot_population_county_map_runs_witness :
  heap sample_loaded !! 0%nat = Some sample_merged ∧
  getitem sample_merged "County" = Some (ObjCol sample_county) ∧
  get_num sample_merged "POP2010" = Some sample_pop ∧
  get_geometry sample_merged = Some sample_geometry ∧
  ∃ w', plot_population_county_map 0 sample_loaded = Some ((), w') ∧
    figs w' = figs sample_loaded
              ++ [county_figure sample_county sample_geometry sample_pop] ∧
    gca w' = 0%nat ∧
    files w' = <["county_population_map.png"
                 := county_figure sample_county sample_geometry sample_pop]>
                 (files sample_loaded) ∧
    heap w' = heap sample_loaded ∧ disk w' = disk sample_loaded ∧
    stdout w' = stdout sample_loaded.
Proof.
  assert (H1 : heap sample_loaded !! 0%nat = Some sample_merged) by by_eval.
  assert (H2 : getitem sample_merged "County" = Some (ObjCol sample_county)) by by_eval.
  assert (H3 : get_num sample_merged "POP2010" = Some sample_pop) by by_eval.
  assert (H4 : get_geometry sample_merged = Some sample_geometry) by by_eval.
  split; [exact H1|]. split; [exact H2|]. split; [exact H3|]. split; [exact H4|].
  exact (plot_population_county_map_runs 0%nat sample_loaded sample_merged
           sample_county sample_pop sample_geometry H1 H2 H3 H4).
Defined.

(** The counties of the sample table: Adams, Ferry, King. *)
Lemma dissolve_index_sorted_witness :
  getitem sample_merged "County" = Some (ObjCol sample_county) ∧
  ∃ county keys,
    dissolve_sum sample_merged "County" = Some county ∧
    df_index county = Key <$> keys ∧
    Sorted str_le keys ∧ NoDup keys ∧
    ∀ k, k ∈ keys ↔ Some k ∈ sample_county.
Proof.
  assert (H1 : getitem sample_merged "County" = Some (ObjCol sample_county)) by by_eval.
  split; [exact H1|].
  exact (dissolve_index_sorted sample_merged sample_county H1).
Defined.

(** King county of the sample table, the third county row. *)
Lemma dissolve_geometry_union_witness :
  getitem sample_merged "County" = Some (ObjCol sample_county) ∧
  get_geometry sample_merged = Some sample_geometry ∧
  group_keys sample_county !! 2%nat = Some "King" ∧
  ∃ county u,
    dissolve_sum sample_merged "County" = Some county ∧
    df_index county !! 2%nat = Some (Key "King") ∧
    geom_at county 2 = Some (Some u) ∧
    ∀ p : nat,
      p ∈ u ↔ ∃ i x, sample_county !! i = Some (Some "King") ∧
                     sample_geometry !! i = Some (Some x) ∧ p ∈ x.
Proof.
  assert (H1 : getitem sample_merged "County" = Some (ObjCol sample_county)) by by_eval.
  assert (H2 : get_geometry sample_merged = Some sample_geometry) by by_eval.
  assert (H3 : group_keys sample_county !! 2%nat = Some "King") by by_eval.
  split; [exact H1|]. split; [exact H2|]. split; [exact H3|].
  exact (dissolve_geometry_union sample_merged sample_county H1 sample_geometry
           2%nat "King" H2 H3).
Defined.

(** The four-panel figure of the sample table. *)
Lemma plot_food_access_by_county_runs_witness :
  heap sample_loaded !! 0%nat = Some sample_merged ∧
  getitem sample_merged "County" = Some (ObjCol sample_county) ∧
  get_geometry sample_merged = Some sample_geometry ∧
  get_num sample_merged "POP2010" = Some sample_pop ∧
  get_num sample_merged "lapophalf" = Some sample_lapophalf ∧
  get_num sample_merged "lapop10" = Some sample_lapop10 ∧
  get_num sample_merged "lalowihalf" = Some sample_lalowihalf ∧
  get_num sample_merged "lalowi10" = Some sample_lalowi10 ∧
  let fig := grid_figure sample_county sample_geometry sample_pop sample_lapophalf
                         sample_lapop10 sample_lalowihalf sample_lalowi10 in
  ∃ w', plot_food_access_by_county 0 sample_loaded = Some ((), w') ∧
    figs w' = figs sample_loaded ++ [fig] ∧
    files w' = <["county_food_access.png" := fig]> (files sample_loaded) ∧
    heap w' = heap sample_loaded ∧ disk w' = disk sample_loaded ∧
    stdout w' = stdout sample_loaded.
Proof.
  assert (H1 : heap sample_loaded !! 0%nat = Some sample_merged) by by_eval.
  assert (H2 : getitem sample_merged "County" = Some (ObjCol sample_county)) by by_eval.
  assert (H3 : get_geometry sample_merged = Some sample_geometry) by by_eval.
  assert (H4 : get_num sample_merged "POP2010" = Some sample_pop) by by_eval.
  assert (H5 : get_num sample_merged "lapophalf" = Some sample_lapophalf) by by_eval.
  assert (H6 : get_num sample_merged "lapop10" = Some sample_lapop10) by by_eval.
  assert (H7 : get_num sample_merged "lalowihalf" = Some sample_lalowihalf) by by_eval.
  assert (H8 : get_num sample_merged "lalowi10" = Some sample_lalowi10) by by_eval.
  split; [exact H1|]. split; [exact H2|]. split; [exact H3|]. split; [exact H4|].
  split; [exact H5|]. split; [exact H6|]. split; [exact H7|]. split; [exact H8|].
  exact (plot_food_access_by_county_runs 0%nat sample_loaded sample_merged
           sample_county sample_pop sample_lapophalf sample_lapop10
           sample_lalowihalf sample_lalowi10 sample_geometry
           H1 H2 H3 H4 H5 H6 H7 H8).
Defined.

(** King county of the sample table: 4000 people, none of them beyond ten
    miles. *)
Lemma county_ratio_in_unit_range_witness :
  getitem sample_merged "County" = Some (ObjCol sample_county) ∧
  is_Some (getitem sample_merged "geometry") ∧
  get_num sample_merged "POP2010" = Some sample_pop ∧
  get_num sample_merged "lapophalf" = Some sample_lapophalf ∧
  get_num sample_merged "lapop10" = Some sample_lapop10 ∧
  get_num sample_merged "lalowihalf" = Some sample_lalowihalf ∧
  get_num sample_merged "lalowi10" = Some sample_lalowi10 ∧
  group_keys sample_county !! 2%nat = Some "King" ∧
  ("lapop10_ratio", sample_lapop10)
    ∈ ratio_sources sample_lapophalf sample_lapop10 sample_lalowihalf sample_lalowi10 ∧
  Forall2 within_population sample_lapop10 sample_pop ∧
  0 < group_sum sample_county sample_pop "King" < 2 ^ 53 ∧
  ∃ rd r, county_ratio_data sample_merged = Some rd ∧
          flt_at rd "lapop10_ratio" 2 = Some r ∧
          F64.le F64.pzero r = true ∧ F64.le r (F64.of_Z 1) = true.
Proof.
  assert (H1 : getitem sample_merged "County" = Some (ObjCol sample_county)) by by_eval.
  assert (H2 : is_Some (getitem sample_merged "geometry")) by by_compute.
  assert (H3 : get_num sample_merged "POP2010" = Some sample_pop) by by_eval.
  assert (H4 : get_num sample_merged "lapophalf" = Some sample_lapophalf) by by_eval.
  assert (H5 : get_num sample_merged "lapop10" = Some sample_lapop10) by by_eval.
  assert (H6 : get_num sample_merged "lalowihalf" = Some sample_lalowihalf) by by_eval.
  assert (H7 : get_num sample_merged "lalowi10" = Some sample_lalowi10) by by_eval.
  assert (H8 : group_keys sample_county !! 2%nat = Some "King") by by_eval.
  assert (H9 : ("lapop10_ratio", sample_lapop10)
    ∈ ratio_sources sample_lapophalf sample_lapop10 sample_lalowihalf sample_lalowi10)
    by by_compute.
  assert (H10 : Forall2 within_population sample_lapop10 sample_pop) by by_compute.
  assert (H11 : 0 < group_sum sample_county sample_pop "King" < 2 ^ 53) by by_compute.
  split; [exact H1|]. split; [exact H2|]. split; [exact H3|]. split; [exact H4|].
  split; [exact H5|]. split; [exact H6|]. split; [exact H7|]. split; [exact H8|].
  split; [exact H9|]. split; [exact H10|]. split; [exact H11|].
  exact (county_ratio_in_unit_range sample_merged sample_county sample_pop
           sample_lapophalf sample_lapop10 sample_lalowihalf sample_lalowi10
           H1 H2 H3 H4 H5 H6 H7 2%nat "King" "lapop10_ratio" sample_lapop10
           H8 H9 H10 H11).
Defined.

(** Ferry county of the sample table: its one tract has population 0 and
    100 people beyond half a mile. *)
Lemma county_ratio_zero_population_witness :
  getitem sample_merged "County" = Some (ObjCol sample_county) ∧
  is_Some (getitem sample_merged "geometry") ∧
  get_num sample_merged "POP2010" = Some sample_pop ∧
  get_num sample_merged "lapophalf" = Some sample_lapophalf ∧
  get_num sample_merged "lapop10" = Some sample_lapop10 ∧
  get_num sample_merged "lalowihalf" = Some sample_lalowihalf ∧
  get_num sample_merged "lalowi10" = Some sample_lalowi10 ∧
  group_keys sample_county !! 1%nat = Some "Ferry" ∧
  ("lapophalf_ratio", sample_lapophalf)
    ∈ ratio_sources sample_lapophalf sample_lapop10 sample_lalowihalf sample_lalowi10 ∧
  group_sum sample_county sample_pop "Ferry" = 0 ∧
  0 ≤ group_sum sample_county sample_lapophalf "Ferry" ∧
  ∃ rd r, county_ratio_data sample_merged = Some rd ∧
          flt_at rd "lapophalf_ratio" 1 = Some r ∧
          r = (if decide (group_sum sample_county sample_lapophalf "Ferry" = 0)
               then F64.nan else S754_infinity false) ∧
          F64.le r (F64.of_Z 1) = false.
Proof.
  assert (H1 : getitem sample_merged "County" = Some (ObjCol sample_county)) by by_eval.
  assert (H2 : is_Some (getitem sample_merged "geometry")) by by_compute.
  assert (H3 : get_num sample_merged "POP2010" = Some sample_pop) by by_eval.
  assert (H4 : get_num sample_merged "lapophalf" = Some sample_lapophalf) by by_eval.
  assert (H5 : get_num sample_merged "lapop10" = Some sample_lapop10) by by_eval.
  assert (H6 : get_num sample_merged "lalowihalf" = Some sample_lalowihalf) by by_eval.
  assert (H7 : get_num sample_merged "lalowi10" = Some sample_lalowi10) by by_eval.
  assert (H8 : group_keys sample_county !! 1%nat = Some "Ferry") by by_eval.
  assert (H9 : ("lapophalf_ratio", sample_lapophalf)
    ∈ ratio_sources sample_lapophalf sample_lapop10 sample_lalowihalf sample_lalowi10)
    by by_compute.
  assert (H10 : group_sum sample_county sample_pop "Ferry" = 0) by by_eval.
  assert (H11 : 0 ≤ group_sum sample_county sample_lapophalf "Ferry") by by_compute.
  split; [exact H1|]. split; [exact H2|]. split; [exact H3|]. split; [exact H4|].
  split; [exact H5|]. split; [exact H6|]. split; [exact H7|]. split; [exact H8|].
  split; [exact H9|]. split; [exact H10|]. split; [exact H11|].
  exact (county_ratio_zero_population sample_merged sample_county sample_pop
           sample_lapophalf sample_lapop10 sample_lalowihalf sample_lalowi10
           H1 H2 H3 H4 H5 H6 H7 1%nat "Ferry" "lapophalf_ratio" sample_lapophalf
           H8 H9 H10 H11).
Defined.

(** The classified sample table. *)
Lemma classify_idempotent_witness :
  classify sample_merged = Some sample_classified ∧
  classify sample_classified = Some sample_classified.
Proof.
  assert (H1 : classify sample_merged = Some sample_classified) by by_eval.
  split; [exact H1|].
  exact (classify_idempotent sample_merged sample_classified H1).
Defined.

(** The two filters on the sample table. *)
Lemma low_access_subset_single_filter_witness :
  df_wf sample_merged ∧
  getitem sample_merged "POP2010" = Some (NumCol sample_pop) ∧
  length sample_flags = nrows sample_merged ∧
  ∃ food_access low_access,
    food_access_subset (with_flags sample_merged sample_flags) = Some food_access ∧
    low_access_subset food_access = Some low_access ∧
    bool_index (with_flags sample_merged sample_flags)
               (band (notnull (NumCol sample_pop)) sample_flags) = Some low_access.
Proof.
  assert (H1 : df_wf sample_merged) by by_compute.
  assert (H2 : getitem sample_merged "POP2010" = Some (NumCol sample_pop)) by by_eval.
  assert (H3 : length sample_flags = nrows sample_merged) by by_eval.
  split; [exact H1|]. split; [exact H2|]. split; [exact H3|].
  exact (low_access_subset_single_filter sample_merged (NumCol sample_pop)
           sample_flags H1 H2 H3).
Defined.

(** The low-access map of the sample tracts. *)
Lemma plot_low_access_tracts_runs_witness :
  heap sample_loaded !! 0%nat = Some sample_merged ∧ df_wf sample_merged ∧
  low_access_flags sample_merged = Some sample_flags ∧
  getitem sample_merged "POP2010" = Some (NumCol sample_pop) ∧
  get_geometry sample_merged = Some sample_geometry ∧
  let fig := low_access_figure sample_geometry (NumCol sample_pop) sample_flags in
  ∃ w', plot_low_access_tracts 0 sample_loaded = Some ((), w') ∧
    heap w' = <[0%nat := with_flags sample_merged sample_flags]> (heap sample_loaded) ∧
    figs w' = figs sample_loaded ++ [fig] ∧ gca w' = 0%nat ∧
    files w' = <["low_access.png" := fig]> (files sample_loaded) ∧
    disk w' = disk sample_loaded ∧ stdout w' = stdout sample_loaded.
Proof.
  assert (H1 : heap sample_loaded !! 0%nat = Some sample_merged) by by_eval.
  assert (H2 : df_wf sample_merged) by by_compute.
  assert (H3 : low_access_flags sample_merged = Some sample_flags) by by_eval.
  assert (H4 : getitem sample_merged "POP2010" = Some (NumCol sample_pop)) by by_eval.
  assert (H5 : get_geometry sample_merged = Some sample_geometry) by by_eval.
  split; [exact H1|]. split; [exact H2|]. split; [exact H3|]. split; [exact H4|].
  split; [exact H5|].
  exact (plot_low_access_tracts_runs 0%nat sample_loaded sample_merged
           (NumCol sample_pop) sample_flags sample_geometry H1 H2 H3 H4 H5).
Defined.

(** The low-access map of the sample tracts, drawn twice. *)
Lemma plot_low_access_tracts_again_witness :
  heap sample_loaded !! 0%nat = Some sample_merged ∧ df_wf sample_merged ∧
  low_access_flags sample_merged = Some sample_flags ∧
  getitem sample_merged "POP2010" = Some (NumCol sample_pop) ∧
  get_geometry sample_merged = Some sample_geometry ∧
  ∃ w1 w2 fig,
    plot_low_access_tracts 0 sample_loaded = Some ((), w1) ∧
    plot_low_access_tracts 0 w1 = Some ((), w2) ∧
    files w1 !! "low_access.png" = Some fig ∧
    heap w2 = heap w1 ∧ files w2 = files w1 ∧
    figs w2 = figs w1 ++ [fig].
Proof.
  assert (H1 : heap sample_loaded !! 0%nat = Some sample_merged) by by_eval.
  assert (H2 : df_wf sample_merged) by by_compute.
  assert (H3 : low_access_flags sample_merged = Some sample_flags) by by_eval.
  assert (H4 : getitem sample_merged "POP2010" = Some (NumCol sample_pop)) by by_eval.
  assert (H5 : get_geometry sample_merged = Some sample_geometry) by by_eval.
  split; [exact H1|]. split; [exact H2|]. split; [exact H3|]. split; [exact H4|].
  split; [exact H5|].
  exact (plot_low_access_tracts_again 0%nat sample_loaded sample_merged
           (NumCol sample_pop) sample_flags sample_geometry H1 H2 H3 H4 H5).
Defined.

(** The county population map before and after the sample table is
    classified. *)
Lemma renders_ignore_flags_witness :
  CountyPopulation ≠ LowAccessMap ∧
  heap sample_loaded !! 0%nat = Some sample_merged ∧
  getitem sample_merged "County" = Some (ObjCol sample_county) ∧
  get_geometry sample_merged = Some sample_geometry ∧
  get_num sample_merged "POP2010" = Some sample_pop ∧
  get_num sample_merged "lapophalf" = Some sample_lapophalf ∧
  get_num sample_merged "lapop10" = Some sample_lapop10 ∧
  get_num sample_merged "lalowihalf" = Some sample_lalowihalf ∧
  get_num sample_merged "lalowi10" = Some sample_lalowi10 ∧
  let w1 := flagged sample_loaded 0 sample_merged sample_flags in
  ∃ fig cur name,
    run_render CountyPopulation 0 sample_loaded
    = Some ((), drawn sample_loaded (figs sample_loaded ++ [fig]) cur
                      (<[name := fig]> (files sample_loaded))) ∧
    run_render CountyPopulation 0 w1
    = Some ((), drawn w1 (figs sample_loaded ++ [fig]) cur
                      (<[name := fig]> (files sample_loaded))).
Proof.
  assert (H0 : CountyPopulation ≠ LowAccessMap) by by_compute.
  assert (H1 : heap sample_loaded !! 0%nat = Some sample_merged) by by_eval.
  assert (H2 : getitem sample_merged "County" = Some (ObjCol sample_county)) by by_eval.
  assert (H3 : get_geometry sample_merged = Some sample_geometry) by by_eval.
  assert (H4 : get_num sample_merged "POP2010" = Some sample_pop) by by_eval.
  assert (H5 : get_num sample_merged "lapophalf" = Some sample_lapophalf) by by_eval.
  assert (H6 : get_num sample_merged "lapop10" = Some sample_lapop10) by by_eval.
  assert (H7 : get_num sample_merged "lalowihalf" = Some sample_lalowihalf) by by_eval.
  assert (H8 : get_num sample_merged "lalowi10" = Some sample_lalowi10) by by_eval.
  split; [exact H0|].
  split; [exact H1|]. split; [exact H2|]. split; [exact H3|]. split; [exact H4|].
  split; [exact H5|]. split; [exact H6|]. split; [exact H7|]. split; [exact H8|].
  exact (renders_ignore_flags CountyPopulation 0%nat sample_loaded sample_merged
           sample_flags sample_county sample_geometry sample_pop sample_lapophalf
           sample_lapop10 sample_lalowihalf sample_lalowi10
           H0 H1 H2 H3 H4 H5 H6 H7 H8).
Defined.

(** The whole program on the sample files. *)
Lemma main_runs_witness :
  disk sample_world !! shp_path = Some sample_shp ∧
  disk sample_world !! csv_path = Some sample_csv ∧
  merge_left sample_shp sample_csv "CTIDFP00" "CensusTract" = Some sample_merged ∧
  getitem sample_merged "CensusTract" = Some sample_census ∧
  getitem sample_merged "CTIDFP00" = Some sample_ctid ∧
  getitem sample_merged "County" = Some (ObjCol sample_county) ∧
  get_geometry sample_merged = Some sample_geometry ∧
  get_num sample_merged "POP2010" = Some sample_pop ∧
  get_num sample_merged "lapophalf" = Some sample_lapophalf ∧
  get_num sample_merged "lapop10" = Some sample_lapop10 ∧
  get_num sample_merged "lalowihalf" = Some sample_lalowihalf ∧
  get_num sample_merged "lalowi10" = Some sample_lalowi10 ∧
  low_access_flags sample_merged = Some sample_flags ∧
  let f1 := outline_figure sample_geometry in
  let f2 := population_figure sample_geometry (NumCol sample_pop) in
  let f3 := county_figure sample_county sample_geometry sample_pop in
  let f4 := grid_figure sample_county sample_geometry sample_pop sample_lapophalf
                        sample_lapop10 sample_lalowihalf sample_lalowi10 in
  let f5 := low_access_figure sample_geometry (NumCol sample_pop) sample_flags in
  main sample_world
  = Some ((), mkWorld (disk sample_world)
                (<[fresh (dom (heap sample_world))
                   := with_flags sample_merged sample_flags]> (heap sample_world))
                (figs sample_world ++ [f1; f2; f3; f4; f5])
                0
                (main_files f1 f2 f3 f4 f5 (files sample_world))
                (stdout sample_world ++ [match_rate sample_census sample_ctid])).
Proof.
  assert (H1 : disk sample_world !! shp_path = Some sample_shp) by by_eval.
  assert (H2 : disk sample_world !! csv_path = Some sample_csv) by by_eval.
  assert (H3 : merge_left sample_shp sample_csv "CTIDFP00" "CensusTract"
               = Some sample_merged) by by_eval.
  assert (H4 : getitem sample_merged "CensusTract" = Some sample_census) by by_eval.
  assert (H5 : getitem sample_merged "CTIDFP00" = Some sample_ctid) by by_eval.
  assert (H6 : getitem sample_merged "County" = Some (ObjCol sample_county)) by by_eval.
  assert (H7 : get_geometry sample_merged = Some sample_geometry) by by_eval.
  assert (H8 : get_num sample_merged "POP2010" = Some sample_pop) by by_eval.
  assert (H9 : get_num sample_merged "lapophalf" = Some sample_lapophalf) by by_eval.
  assert (H10 : get_num sample_merged "lapop10" = Some sample_lapop10) by by_eval.
  assert (H11 : get_num sample_merged "lalowihalf" = Some sample_lalowihalf) by by_eval.
  assert (H12 : get_num sample_merged "lalowi10" = Some sample_lalowi10) by by_eval.
  assert (H13 : low_access_flags sample_merged = Some sample_flags) by by_eval.
  split; [exact H1|]. split; [exact H2|]. split; [exact H3|]. split; [exact H4|].
  split; [exact H5|]. split; [exact H6|]. split; [exact H7|]. split; [exact H8|].
  split; [exact H9|]. split; [exact H10|]. split; [exact H11|]. split; [exact H12|].
  split; [exact H13|].
  exact (main_runs sample_world sample_shp sample_csv sample_merged sample_census
           sample_ctid sample_county sample_geometry sample_pop sample_lapophalf
           sample_lapop10 sample_lalowihalf sample_lalowi10 sample_flags
           H1 H2 H3 H4 H5 H6 H7 H8 H9 H10 H11 H12 H13).
Defined.

